(** * Med-remind: the health-storage module and the screens that use it

    A shallow embedding of [utils/health-storage.ts] (the record store and
    its derived views), of the meal and workout screens ([app/diet/add.tsx],
    [app/exercise/add.tsx]: their forms and their save actions) and of the
    exercise screen ([app/exercise/index.tsx]: its load and what its cards
    and bars are computed from).

    Layout of the development:
    - the host platform the code runs on: characters and decimal numerals,
      JavaScript numbers and values, [JSON.stringify] / [JSON.parse],
      [Date], [AsyncStorage], [console] and [Alert];
    - the program: the eight storage operations and the three screens;
    - the properties.

    Modelling boundary of the platform part.
    - A JavaScript number is an exact decimal ([Int], [Dec]) or one of the
      three non-finite values.  The whole numbers the program computes
      with are rounded as binary64 rounds them: where [parseInt] reads one,
      and in the sums and the product of the forms; the progress bars are
      computed in binary64 throughout.  The numerals of a JSON text are
      read exactly; a property that follows a number found in the store
      through a write and a read is stated for numbers within the range of
      binary64, beyond which [JSON.parse] gives an infinity.
      [Number::toString] prints every digit of a whole number: the shortest
      digits it prints from 2^53 on, and the exponent notation it switches
      to for very large and very small magnitudes, are not modelled.
    - A string is a sequence of bytes read as UTF-8 text.  A unicode escape
      of a JSON string literal is decoded to the UTF-8 bytes of that single
      code unit.
    - An object is an association list in insertion order; the special
      ordering of integer-like keys is not modelled.
    - The range limit of time values (8.64e15 ms around the epoch) is
      applied where a date is made from a number; what [Date.parse] and
      the clock give is taken to be within it.
    - [Date.parse] and the local time zone are parameters of the
      development: the language standard leaves both to the host.
    - The clock stands still during one operation: the two readings a
      save takes, for the id and for the date of its entry, are the same.
    - A screen is its state and its handlers; what it draws is modelled only
      where a later computation depends on it. *)

From Stdlib Require Import ZArith String Ascii List Lia Bool.
From stdpp Require Import gmap strings.

Set Default Proof Using "Type".

(** ** Characters *)

Definition code (c : ascii) : Z := Z.of_N (N_of_ascii c).
Definition chr (n : Z) : ascii := ascii_of_N (Z.to_N n).

Definition dquote : ascii := Eval compute in chr 34.
Definition backslash : ascii := Eval compute in chr 92.

Definition is_digit (c : ascii) : bool := ((48 <=? code c) && (code c <=? 57))%Z.
Definition digit_val (c : ascii) : Z := (code c - 48)%Z.
Definition digit_char (d : Z) : ascii := chr (48 + d).

(** JSON white space: space, tab, line feed, carriage return. *)
Definition is_json_ws (c : ascii) : bool :=
  ((code c =? 32) || (code c =? 9) || (code c =? 10) || (code c =? 13))%Z.

Fixpoint skip_ws (s : string) : string :=
  match s with
  | String c r => if is_json_ws c then skip_ws r else s
  | EmptyString => s
  end.

(** ** Decimal numerals *)

(** [digits n k] is the decimal numeral of [n >= 0], most significant digit
    first, followed by [k]. *)
Fixpoint digits_loop (fuel : nat) (n : Z) (k : string) : string :=
  let k' := String (digit_char (n mod 10)) k in
  match fuel with
  | O => k'
  | S fuel' => if (n <? 10)%Z then k' else digits_loop fuel' (n / 10) k'
  end.

Definition digits (n : Z) (k : string) : string :=
  digits_loop (Z.to_nat (Z.log2 n)) n k.

(** [pad_digits w n k]: the last [w] decimal digits of [n], zero padded. *)
Fixpoint pad_digits (w : nat) (n : Z) (k : string) : string :=
  match w with
  | O => k
  | S w' => pad_digits w' (n / 10) (String (digit_char (n mod 10)) k)
  end.

(** Reads the longest run of digits: the value accumulated on [acc], the
    number of digits read added to [cnt], and the rest. *)
Fixpoint read_digits (s : string) (acc : Z) (cnt : nat) : Z * nat * string :=
  match s with
  | String c r =>
      if is_digit c then read_digits r (acc * 10 + digit_val c)%Z (S cnt)
      else (acc, cnt, s)
  | EmptyString => (acc, cnt, s)
  end.

(** ** Numbers *)

(** [Dec m k] is [m / 10^k] with [k] fractional digits, the last of them
    not zero. *)
Inductive number :=
  | Int (z : Z)
  | Dec (m : Z) (k : positive)
  | NaN
  | Infinity
  | NegInfinity.

(** Removes up to [k] trailing zero digits of the mantissa. *)
Fixpoint strip_zeros (k : nat) (m : Z) : number :=
  match k with
  | O => Int m
  | S k' => if (m mod 10 =? 0)%Z then strip_zeros k' (m / 10) else Dec m (Pos.of_nat k)
  end.

(** The number [m * 10^e]. *)
Definition make_number (m e : Z) : number :=
  if (m =? 0)%Z then Int 0
  else if (0 <=? e)%Z then Int (m * 10 ^ e)
  else strip_zeros (Z.to_nat (- e)) m.

(** Scaled mantissas of two finite numbers on their common scale. *)
Definition scale_of (n : number) : option (Z * Z) :=
  match n with
  | Int z => Some (z, 0%Z)
  | Dec m k => Some (m, Z.pos k)
  | _ => None
  end.

Definition is_NaN (n : number) : bool :=
  match n with NaN => true | _ => false end.

Definition num_sign (n : number) : Z :=
  match n with
  | Int z => Z.sgn z
  | Dec m _ => Z.sgn m
  | NaN => 0
  | Infinity => 1
  | NegInfinity => -1
  end.

(** The number a whole number is held as, in binary64: the whole number
    itself up to 2^53 in magnitude, and beyond that the nearest number with
    a significand of 53 bits, a tie going to the even significand; an
    infinity once that reaches 2^1024. *)
Definition round64 (z : Z) : number :=
  let a := Z.abs z in
  let e := (Z.log2 a - 52)%Z in
  if (e <=? 0)%Z then Int z
  else
    let q := (a / 2 ^ e)%Z in
    let r := (a mod 2 ^ e)%Z in
    let half := (2 ^ (e - 1))%Z in
    let q' := if (half <? r)%Z || ((r =? half)%Z && Z.odd q) then (q + 1)%Z else q in
    let v := (q' * 2 ^ e)%Z in
    if (2 ^ 1024 <=? v)%Z then (if (z <? 0)%Z then NegInfinity else Infinity)
    else Int (if (z <? 0)%Z then - v else v).

(** The operator [+] on numbers.  The sum of two whole numbers is rounded
    as binary64 rounds it.  A number with a fraction is added exactly: none
    reaches a sum of the program, whose forms hold what [parseInt] gives. *)
Definition num_add (a b : number) : number :=
  match a, b with
  | NaN, _ | _, NaN => NaN
  | Infinity, NegInfinity | NegInfinity, Infinity => NaN
  | Infinity, _ | _, Infinity => Infinity
  | NegInfinity, _ | _, NegInfinity => NegInfinity
  | Int x, Int y => round64 (x + y)
  | Int x, Dec m k => make_number (x * 10 ^ Z.pos k + m) (- Z.pos k)
  | Dec m k, Int y => make_number (m + y * 10 ^ Z.pos k) (- Z.pos k)
  | Dec m k, Dec m' k' =>
      let s := Z.max (Z.pos k) (Z.pos k') in
      make_number (m * 10 ^ (s - Z.pos k) + m' * 10 ^ (s - Z.pos k')) (- s)
  end.

(** The operator [*] on numbers, with the product of two whole numbers
    rounded as binary64 rounds it. *)
Definition num_mul (a b : number) : number :=
  match a, b with
  | Int x, Int y => round64 (x * y)
  | _, _ =>
      match scale_of a, scale_of b with
      | Some (m, k), Some (m', k') => make_number (m * m') (- (k + k'))
      | _, _ =>
          if is_NaN a || is_NaN b then NaN
          else match (num_sign a * num_sign b)%Z with
               | Z0 => NaN
               | Zpos _ => Infinity
               | Zneg _ => NegInfinity
               end
      end
  end.

(** [a <= b], false as soon as one side is [NaN]. *)
Definition num_le (a b : number) : bool :=
  match a, b with
  | NaN, _ | _, NaN => false
  | NegInfinity, _ | _, Infinity => true
  | Infinity, _ | _, NegInfinity => false
  | _, _ =>
      match scale_of a, scale_of b with
      | Some (m, k), Some (m', k') =>
          let s := Z.max k k' in
          (m * 10 ^ (s - k) <=? m' * 10 ^ (s - k'))%Z
      | _, _ => false
      end
  end.

(** [Math.round]: the nearest integer, a half rounded up. *)
Definition Math_round (n : number) : number :=
  match n with
  | Dec m k => Int ((2 * m + 10 ^ Z.pos k) / (2 * 10 ^ Z.pos k))
  | _ => n
  end.

(** Truthiness of a number: [NaN] and zero are falsy. *)
Definition num_truthy (n : number) : bool :=
  match n with
  | NaN => false
  | Int z => negb (z =? 0)%Z
  | _ => true
  end.

(** [Number::toString] for a finite number, followed by [k]. *)
Definition print_Z (z : Z) (k : string) : string :=
  if (z <? 0)%Z then String "-" (digits (- z) k) else digits z k.

Definition print_Dec (m : Z) (p : positive) (k : string) : string :=
  let w := Pos.to_nat p in
  let a := Z.abs m in
  let body := digits (a / 10 ^ Z.pos p) (String "." (pad_digits w (a mod 10 ^ Z.pos p) k)) in
  if (m <? 0)%Z then String "-" body else body.

Definition print_number (n : number) (k : string) : string :=
  match n with
  | Int z => print_Z z k
  | Dec m p => print_Dec m p k
  | NaN => "NaN" +:+ k
  | Infinity => "Infinity" +:+ k
  | NegInfinity => "-Infinity" +:+ k
  end.

Definition Number_toString (n : number) : string := print_number n "".

(** ** Values *)

(** The values that flow through the module: what [JSON.parse] can return
    and what the screens hand to the store.  [undefined] is not a value of
    this type: a missing property reads as [None]. *)
#[local] Unset Elimination Schemes.
Inductive value :=
  | VNull
  | VBool (b : bool)
  | VNum (n : number)
  | VStr (s : string)
  | VArr (l : list value)
  | VObj (l : list (string * value)).
#[local] Set Elimination Schemes.

Section value_induction.
Variable P : value -> Prop.
Hypothesis Hnull : P VNull.
Hypothesis Hbool : forall b, P (VBool b).
Hypothesis Hnum : forall n, P (VNum n).
Hypothesis Hstr : forall s, P (VStr s).
Hypothesis Harr : forall l, Forall P l -> P (VArr l).
Hypothesis Hobj : forall l, Forall (fun kv => P (snd kv)) l -> P (VObj l).

Fixpoint value_ind' (v : value) : P v :=
  match v with
  | VNull => Hnull
  | VBool b => Hbool b
  | VNum n => Hnum n
  | VStr s => Hstr s
  | VArr l =>
      Harr l ((fix go (l : list value) : Forall P l :=
                 match l with
                 | [] => List.Forall_nil P
                 | x :: xs => @List.Forall_cons _ P x xs (value_ind' x) (go xs)
                 end) l)
  | VObj l =>
      Hobj l ((fix go (l : list (string * value)) : Forall (fun kv => P (snd kv)) l :=
                 match l with
                 | [] => List.Forall_nil _
                 | kv :: xs => @List.Forall_cons _ _ kv xs (value_ind' (snd kv)) (go xs)
                 end) l)
  end.
End value_induction.

(** Property lookup in an object literal; a later definition of a key
    replaces the value of the earlier one and keeps its place. *)
Fixpoint obj_get (l : list (string * value)) (k : string) : option value :=
  match l with
  | [] => None
  | (k', v) :: r => if String.eqb k' k then Some v else obj_get r k
  end.

Fixpoint obj_set (l : list (string * value)) (k : string) (v : value) : list (string * value) :=
  match l with
  | [] => [(k, v)]
  | (k', v') :: r => if String.eqb k' k then (k, v) :: r else (k', v') :: obj_set r k v
  end.

Definition obj_of_members (ms : list (string * value)) : list (string * value) :=
  fold_left (fun o kv => obj_set o (fst kv) (snd kv)) ms [].

(** ** JSON.stringify *)

Definition hex_char (d : Z) : ascii :=
  if (d <? 10)%Z then chr (48 + d) else chr (87 + d).

Definition hex_val (c : ascii) : option Z :=
  let n := code c in
  if ((48 <=? n) && (n <=? 57))%Z then Some (n - 48)%Z
  else if ((97 <=? n) && (n <=? 102))%Z then Some (n - 87)%Z
  else if ((65 <=? n) && (n <=? 70))%Z then Some (n - 55)%Z
  else None.

(** [QuoteJSONString], one character at a time. *)
Definition escape_char (c : ascii) (k : string) : string :=
  let n := code c in
  if (n =? 34)%Z then String backslash (String dquote k)
  else if (n =? 92)%Z then String backslash (String backslash k)
  else if (n =? 8)%Z then String backslash (String "b" k)
  else if (n =? 12)%Z then String backslash (String "f" k)
  else if (n =? 10)%Z then String backslash (String "n" k)
  else if (n =? 13)%Z then String backslash (String "r" k)
  else if (n =? 9)%Z then String backslash (String "t" k)
  else if (n <? 32)%Z then
    String backslash (String "u" (String "0" (String "0"
      (String (hex_char (n / 16)) (String (hex_char (n mod 16)) k)))))
  else String c k.

Fixpoint escape (s k : string) : string :=
  match s with
  | EmptyString => k
  | String c r => escape_char c (escape r k)
  end.

Definition print_string (s k : string) : string :=
  String dquote (escape s (String dquote k)).

(** A number serialises as its numeral when finite and as [null]
    otherwise. *)
Definition print_json_number (n : number) (k : string) : string :=
  match n with
  | Int _ | Dec _ _ => print_number n k
  | _ => "null" +:+ k
  end.

(** [print v k] is the compact JSON text of [v] followed by [k]. *)
Fixpoint print (v : value) (k : string) : string :=
  match v with
  | VNull => "null" +:+ k
  | VBool true => "true" +:+ k
  | VBool false => "false" +:+ k
  | VNum n => print_json_number n k
  | VStr s => print_string s k
  | VArr l =>
      String "["
        match l with
        | [] => String "]" k
        | x :: xs =>
            print x
              ((fix elements (xs : list value) : string :=
                  match xs with
                  | [] => String "]" k
                  | y :: ys => String "," (print y (elements ys))
                  end) xs)
        end
  | VObj l =>
      String "{"
        match l with
        | [] => String "}" k
        | (key, x) :: xs =>
            print_string key (String ":" (print x
              ((fix members (xs : list (string * value)) : string :=
                  match xs with
                  | [] => String "}" k
                  | (key', y) :: ys =>
                      String "," (print_string key' (String ":" (print y (members ys))))
                  end) xs)))
        end
  end.

Definition JSON_stringify (v : value) : string := print v "".

(** ** JSON.parse *)

(** UTF-8 bytes of one code unit. *)
Definition utf8 (cu : Z) (k : string) : string :=
  if (cu <? 128)%Z then String (chr cu) k
  else if (cu <? 2048)%Z then
    String (chr (192 + cu / 64)) (String (chr (128 + cu mod 64)) k)
  else
    String (chr (224 + cu / 4096))
      (String (chr (128 + (cu / 64) mod 64)) (String (chr (128 + cu mod 64)) k)).

Definition hex4 (a b c d : ascii) : option Z :=
  match hex_val a, hex_val b, hex_val c, hex_val d with
  | Some x, Some y, Some z, Some w => Some (((x * 16 + y) * 16 + z) * 16 + w)%Z
  | _, _, _, _ => None
  end.

Definition unescape (e : ascii) : option ascii :=
  let n := code e in
  if (n =? 34)%Z then Some dquote
  else if (n =? 92)%Z then Some backslash
  else if (n =? 47)%Z then Some "/"%char
  else if (n =? 98)%Z then Some (chr 8)
  else if (n =? 102)%Z then Some (chr 12)
  else if (n =? 110)%Z then Some (chr 10)
  else if (n =? 114)%Z then Some (chr 13)
  else if (n =? 116)%Z then Some (chr 9)
  else None.

(** The characters of a string literal after its opening quote, up to and
    including the closing quote. *)
Fixpoint lex_string (s : string) : option (string * string) :=
  match s with
  | EmptyString => None
  | String c r =>
      if (code c =? 34)%Z then Some (EmptyString, r)
      else if (code c =? 92)%Z then
        match r with
        | EmptyString => None
        | String e r1 =>
            if (code e =? 117)%Z then
              match r1 with
              | String a (String b (String c' (String d r2))) =>
                  match hex4 a b c' d, lex_string r2 with
                  | Some cu, Some (t, q) => Some (utf8 cu t, q)
                  | _, _ => None
                  end
              | _ => None
              end
            else
              match unescape e, lex_string r1 with
              | Some ch, Some (t, q) => Some (String ch t, q)
              | _, _ => None
              end
        end
      else if (code c <? 32)%Z then None
      else
        match lex_string r with
        | Some (t, q) => Some (String c t, q)
        | None => None
        end
  end.

(** The fraction and exponent parts of a number literal whose integer part
    is [ip]. *)
Definition lex_fraction (ip : Z) (s : string) : option (Z * nat * string) :=
  match s with
  | String c r =>
      if (code c =? 46)%Z then
        match r with
        | String d _ => if is_digit d then Some (read_digits r ip 0) else None
        | EmptyString => None
        end
      else Some (ip, O, s)
  | EmptyString => Some (ip, O, s)
  end.

Definition lex_exponent (s : string) : option (Z * string) :=
  match s with
  | String c r =>
      if ((code c =? 101) || (code c =? 69))%Z then
        let '(neg, r1) :=
          match r with
          | String sg r' =>
              if (code sg =? 45)%Z then (true, r')
              else if (code sg =? 43)%Z then (false, r')
              else (false, r)
          | EmptyString => (false, r)
          end in
        match r1 with
        | String d _ =>
            if is_digit d then
              let '(e, _, q) := read_digits r1 0 0 in
              Some (if neg then (- e)%Z else e, q)
            else None
        | EmptyString => None
        end
      else Some (0%Z, s)
  | EmptyString => Some (0%Z, s)
  end.

Definition lex_number (s : string) : option (number * string) :=
  let '(neg, s1) :=
    match s with
    | String c r => if (code c =? 45)%Z then (true, r) else (false, s)
    | EmptyString => (false, s)
    end in
  match s1 with
  | String c r =>
      if is_digit c then
        let '(ip, s2) :=
          if (code c =? 48)%Z then (0%Z, r)
          else let '(v, _, q) := read_digits s1 0 0 in (v, q) in
        match lex_fraction ip s2 with
        | Some (m, fc, s3) =>
            match lex_exponent s3 with
            | Some (e, s4) =>
                Some (make_number (if neg then - m else m) (e - Z.of_nat fc), s4)
            | None => None
            end
        | None => None
        end
      else None
  | EmptyString => None
  end.

Inductive presult (A : Type) :=
  | Parsed (a : A) (rest : string)
  | SyntaxErr
  | NoFuel.
Arguments Parsed {A} a rest.
Arguments SyntaxErr {A}.
Arguments NoFuel {A}.

Definition lex_literal (s : string) : presult value :=
  match s with
  | String "n" (String "u" (String "l" (String "l" r))) => Parsed VNull r
  | String "t" (String "r" (String "u" (String "e" r))) => Parsed (VBool true) r
  | String "f" (String "a" (String "l" (String "s" (String "e" r)))) => Parsed (VBool false) r
  | _ => SyntaxErr
  end.

(** Recursive descent on the JSON grammar.  The fuel bounds the nesting of
    calls; [parse_fuel_enough] shows that [JSON_parse] never runs out. *)
Fixpoint parse_value (fuel : nat) (s : string) : presult value :=
  match fuel with
  | O => NoFuel
  | S fuel' =>
      match skip_ws s with
      | EmptyString => SyntaxErr
      | String c r =>
          if (code c =? 91)%Z then
            match skip_ws r with
            | String c' r' =>
                if (code c' =? 93)%Z then Parsed (VArr []) r'
                else
                  match parse_elements fuel' r with
                  | Parsed l q => Parsed (VArr l) q
                  | SyntaxErr => SyntaxErr
                  | NoFuel => NoFuel
                  end
            | EmptyString => SyntaxErr
            end
          else if (code c =? 123)%Z then
            match skip_ws r with
            | String c' r' =>
                if (code c' =? 125)%Z then Parsed (VObj []) r'
                else
                  match parse_members fuel' r with
                  | Parsed l q => Parsed (VObj (obj_of_members l)) q
                  | SyntaxErr => SyntaxErr
                  | NoFuel => NoFuel
                  end
            | EmptyString => SyntaxErr
            end
          else if (code c =? 34)%Z then
            match lex_string r with
            | Some (t, q) => Parsed (VStr t) q
            | None => SyntaxErr
            end
          else if is_digit c || (code c =? 45)%Z then
            match lex_number (String c r) with
            | Some (n, q) => Parsed (VNum n) q
            | None => SyntaxErr
            end
          else lex_literal (String c r)
      end
  end
with parse_elements (fuel : nat) (s : string) : presult (list value) :=
  match fuel with
  | O => NoFuel
  | S fuel' =>
      match parse_value fuel' s with
      | Parsed v r =>
          match skip_ws r with
          | String c r' =>
              if (code c =? 44)%Z then
                match parse_elements fuel' r' with
                | Parsed l q => Parsed (v :: l) q
                | SyntaxErr => SyntaxErr
                | NoFuel => NoFuel
                end
              else if (code c =? 93)%Z then Parsed [v] r'
              else SyntaxErr
          | EmptyString => SyntaxErr
          end
      | SyntaxErr => SyntaxErr
      | NoFuel => NoFuel
      end
  end
with parse_members (fuel : nat) (s : string) : presult (list (string * value)) :=
  match fuel with
  | O => NoFuel
  | S fuel' =>
      match skip_ws s with
      | String c r =>
          if (code c =? 34)%Z then
            match lex_string r with
            | Some (key, r1) =>
                match skip_ws r1 with
                | String c1 r2 =>
                    if (code c1 =? 58)%Z then
                      match parse_value fuel' r2 with
                      | Parsed v r3 =>
                          match skip_ws r3 with
                          | String c3 r4 =>
                              if (code c3 =? 44)%Z then
                                match parse_members fuel' r4 with
                                | Parsed l q => Parsed ((key, v) :: l) q
                                | SyntaxErr => SyntaxErr
                                | NoFuel => NoFuel
                                end
                              else if (code c3 =? 125)%Z then Parsed [(key, v)] r4
                              else SyntaxErr
                          | EmptyString => SyntaxErr
                          end
                      | SyntaxErr => SyntaxErr
                      | NoFuel => NoFuel
                      end
                    else SyntaxErr
                | EmptyString => SyntaxErr
                end
            | None => SyntaxErr
            end
          else SyntaxErr
      | EmptyString => SyntaxErr
      end
  end.

Definition parse_fuel (s : string) : nat := S (2 * String.length s).

(** [JSON.parse]: [None] stands for the [SyntaxError] it throws. *)
Definition JSON_parse (s : string) : option value :=
  match parse_value (parse_fuel s) s with
  | Parsed v r =>
      match skip_ws r with
      | EmptyString => Some v
      | String _ _ => None
      end
  | _ => None
  end.

(** ** Date *)

(** The two host-defined parts of [Date]: the parser of date strings
    ([None] is the time value [NaN]) and the offset of local time from UTC
    in milliseconds, at a UTC instant ([true]) or at a local time value
    ([false]). *)
Record Host := {
  Date_parse : string -> option Z;
  LocalTZA : Z -> bool -> Z
}.

(** A [Date] object holds a time value in milliseconds since the epoch, or
    [NaN] ([None]): an invalid date. *)
Definition Date := option Z.

Section calendar.
Local Open Scope Z_scope.

Definition msPerDay : Z := 86400000.

Definition Day (t : Z) : Z := t / msPerDay.
Definition TimeWithinDay (t : Z) : Z := t mod msPerDay.

Definition DaysInYear (y : Z) : Z :=
  if negb (y mod 4 =? 0) then 365
  else if negb (y mod 100 =? 0) then 366
  else if negb (y mod 400 =? 0) then 365
  else 366.

Definition DayFromYear (y : Z) : Z :=
  365 * (y - 1970) + (y - 1969) / 4 - (y - 1901) / 100 + (y - 1601) / 400.

(** The largest year whose first day is not after day [d]: an estimate
    from the mean length of a year, off by one at most. *)
Definition YearFromDay (d : Z) : Z :=
  let y := 1970 + d * 400 / 146097 in
  if d <? DayFromYear y then y - 1
  else if DayFromYear (y + 1) <=? d then y + 1
  else y.

Definition YearFromTime (t : Z) : Z := YearFromDay (Day t).
Definition InLeapYear (t : Z) : Z :=
  if DaysInYear (YearFromTime t) =? 366 then 1 else 0.
Definition DayWithinYear (t : Z) : Z := Day t - DayFromYear (YearFromTime t).

(** Day within the year on which month [m] (0 to 11) starts. *)
Definition month_start (m leap : Z) : Z :=
  match m with
  | 0 => 0
  | 1 => 31
  | 2 => 59 + leap
  | 3 => 90 + leap
  | 4 => 120 + leap
  | 5 => 151 + leap
  | 6 => 181 + leap
  | 7 => 212 + leap
  | 8 => 243 + leap
  | 9 => 273 + leap
  | 10 => 304 + leap
  | _ => 334 + leap
  end.

Definition month_of (dwy leap : Z) : Z :=
  if dwy <? 31 then 0
  else if dwy <? 59 + leap then 1
  else if dwy <? 90 + leap then 2
  else if dwy <? 120 + leap then 3
  else if dwy <? 151 + leap then 4
  else if dwy <? 181 + leap then 5
  else if dwy <? 212 + leap then 6
  else if dwy <? 243 + leap then 7
  else if dwy <? 273 + leap then 8
  else if dwy <? 304 + leap then 9
  else if dwy <? 334 + leap then 10
  else 11.

Definition MonthFromTime (t : Z) : Z := month_of (DayWithinYear t) (InLeapYear t).
Definition DateFromTime (t : Z) : Z :=
  DayWithinYear t - month_start (MonthFromTime t) (InLeapYear t) + 1.
Definition WeekDay (t : Z) : Z := (Day t + 4) mod 7.

Definition HourFromTime (t : Z) : Z := (t / 3600000) mod 24.
Definition MinFromTime (t : Z) : Z := (t / 60000) mod 60.
Definition SecFromTime (t : Z) : Z := (t / 1000) mod 60.
Definition msFromTime (t : Z) : Z := t mod 1000.

Definition MakeTime (h m s ms : Z) : Z := h * 3600000 + m * 60000 + s * 1000 + ms.

Definition MakeDay (year month date : Z) : Z :=
  let ym := year + month / 12 in
  let mn := month mod 12 in
  DayFromYear ym + month_start mn (if DaysInYear ym =? 366 then 1 else 0) + date - 1.

Definition MakeDate (day time : Z) : Z := day * msPerDay + time.

Variable h : Host.

Definition LocalTime (t : Z) : Z := t + LocalTZA h t true.
Definition UTC (t : Z) : Z := t - LocalTZA h t false.

(** [d.getDate()], [d.getDay()]: [None] is [NaN]. *)
Definition Date_getDate (d : Date) : option Z :=
  match d with Some t => Some (DateFromTime (LocalTime t)) | None => None end.
Definition Date_getDay (d : Date) : option Z :=
  match d with Some t => Some (WeekDay (LocalTime t)) | None => None end.

(** [d.setDate(dt)] and [d.setHours(h, m, s, ms)], as the date they leave
    in [d]. *)
Definition Date_setDate (d : Date) (dt : option Z) : Date :=
  match d, dt with
  | Some t, Some n =>
      let lt := LocalTime t in
      Some (UTC (MakeDate (MakeDay (YearFromTime lt) (MonthFromTime lt) n)
                          (TimeWithinDay lt)))
  | _, _ => None
  end.

Definition Date_setHours (d : Date) (hh mm ss ms : Z) : Date :=
  match d with
  | Some t => Some (UTC (MakeDate (Day (LocalTime t)) (MakeTime hh mm ss ms)))
  | None => None
  end.

(** Relational comparison of two dates: on their time values, false when
    one of them is [NaN]. *)
Definition Date_ge (a b : Date) : bool :=
  match a, b with Some x, Some y => y <=? x | _, _ => false end.
Definition Date_lt (a b : Date) : bool :=
  match a, b with Some x, Some y => x <? y | _, _ => false end.

Definition day_name (w : Z) : string :=
  match w with
  | 0 => "Sun" | 1 => "Mon" | 2 => "Tue" | 3 => "Wed"
  | 4 => "Thu" | 5 => "Fri" | _ => "Sat"
  end.

Definition month_name (m : Z) : string :=
  match m with
  | 0 => "Jan" | 1 => "Feb" | 2 => "Mar" | 3 => "Apr" | 4 => "May"
  | 5 => "Jun" | 6 => "Jul" | 7 => "Aug" | 8 => "Sep" | 9 => "Oct"
  | 10 => "Nov" | _ => "Dec"
  end.

(** A year on four digits at least, with a minus sign when negative. *)
Definition year_string (y : Z) (k : string) : string :=
  let a := Z.abs y in
  let body := if a <? 10000 then pad_digits 4 a k else digits a k in
  if y <? 0 then String "-" body else body.

(** [DateString] of a time value taken as local time. *)
Definition DateString (lt : Z) : string :=
  day_name (WeekDay lt) +:+ String " " (month_name (MonthFromTime lt) +:+
    String " " (pad_digits 2 (DateFromTime lt) (String " " (year_string (YearFromTime lt) "")))).

Definition Date_toDateString (d : Date) : string :=
  match d with
  | Some t => DateString (LocalTime t)
  | None => "Invalid Date"
  end.

(** [d.toISOString()] of a valid date; the year takes six digits and a
    sign outside 0..9999. *)
Definition iso_year (y : Z) (k : string) : string :=
  if (0 <=? y) && (y <=? 9999) then pad_digits 4 y k
  else if y <? 0 then String "-" (pad_digits 6 (Z.abs y) k)
  else String "+" (pad_digits 6 y k).

Definition iso_time (t : Z) (k : string) : string :=
  pad_digits 2 (HourFromTime t) (String ":" (pad_digits 2 (MinFromTime t)
    (String ":" (pad_digits 2 (SecFromTime t) (String "." (pad_digits 3 (msFromTime t) k)))))).

Definition iso_date (t : Z) (k : string) : string :=
  iso_year (YearFromTime t) (String "-" (pad_digits 2 (MonthFromTime t + 1)
    (String "-" (pad_digits 2 (DateFromTime t) k)))).

Definition toISOString (t : Z) : string :=
  iso_date t (String "T" (iso_time t "Z")).
End calendar.

(** ** Errors *)

(** The calls to the storage provider, and what a computation can raise:
    the failure of such a call, a [TypeError], or the [SyntaxError] of
    [JSON.parse]. *)
Inductive Call :=
  | GetItem (key : string)
  | SetItem (key val : string)
  | MultiRemove (keys : list string).

Inductive Error :=
  | StorageFailure (c : Call)
  | TypeError
  | SyntaxError.

Inductive Result (A : Type) :=
  | Ok (a : A)
  | Throw (e : Error).
Arguments Ok {A} a.
Arguments Throw {A} e.

(** ** Conversions of values *)

(** [ToString] of a value.  The elements of an array are joined by commas,
    with [null] as the empty string.  An object converts through its
    [toString] property: in an object of JSON data a property of that name
    is not a function and hides the inherited one, so the conversion
    raises; every other object is [[object Object]]. *)
Fixpoint ToString (v : value) : Result string :=
  match v with
  | VNull => Ok "null"
  | VBool true => Ok "true"
  | VBool false => Ok "false"
  | VNum n => Ok (Number_toString n)
  | VStr s => Ok s
  | VArr l =>
      (fix join (first : bool) (xs : list value) : Result string :=
         match xs with
         | [] => Ok ""
         | y :: ys =>
             match (match y with VNull => Ok "" | _ => ToString y end) with
             | Ok s =>
                 match join false ys with
                 | Ok r => Ok ((if first then s else String "," s) +:+ r)
                 | Throw e => Throw e
                 end
             | Throw e => Throw e
             end
         end) true l
  | VObj l =>
      match obj_get l "toString" with
      | Some _ => Throw TypeError
      | None => Ok "[object Object]"
      end
  end.

(** [TimeClip] of a number: [None], the invalid date, for [NaN], the
    infinities and a number beyond 8.64e15 in magnitude; otherwise the
    number without its fraction. *)
Definition time_of_number (n : number) : option Z :=
  match n with
  | Int z => if (Z.abs z <=? 8640000000000000)%Z then Some z else None
  | Dec m k =>
      if (Z.abs m <=? 8640000000000000 * 10 ^ Z.pos k)%Z
      then Some (Z.quot m (10 ^ Z.pos k))
      else None
  | _ => None
  end.

(** [new Date(x)] for the value of a property read: [None] is
    [undefined].  An array or an object is converted to a primitive first,
    which may raise. *)
Definition Date_new (h : Host) (x : option value) : Result Date :=
  match x with
  | None => Ok None
  | Some (VStr s) => Ok (Date_parse h s)
  | Some (VNum n) => Ok (time_of_number n)
  | Some VNull => Ok (Some 0%Z)
  | Some (VBool b) => Ok (Some (if b then 1 else 0)%Z)
  | Some v =>
      match ToString v with
      | Ok s => Ok (Date_parse h s)
      | Throw e => Throw e
      end
  end.

(** ** Strings *)

(** White space for [trim] and [parseInt]: the white space and the line
    terminators of the language, in UTF-8.  In one byte: tab, line feed,
    vertical tab, form feed, carriage return, space.  In two: U+00A0.  In
    three: U+1680, U+2000 to U+200A, U+2028, U+2029, U+202F, U+205F, U+3000
    and U+FEFF. *)
Definition is_white (c : ascii) : bool :=
  let n := code c in
  ((n =? 9) || (n =? 10) || (n =? 11) || (n =? 12) || (n =? 13) || (n =? 32))%Z.

Definition is_white2 (c1 c2 : ascii) : bool :=
  ((code c1 =? 194) && (code c2 =? 160))%Z.

Definition is_white3 (c1 c2 c3 : ascii) : bool :=
  let a := code c1 in
  let b := code c2 in
  let c := code c3 in
  ((a =? 225) && (b =? 154) && (c =? 128)
   || (a =? 226) && (b =? 128)
      && ((128 <=? c) && (c <=? 138) || (c =? 168) || (c =? 169) || (c =? 175))
   || (a =? 226) && (b =? 129) && (c =? 159)
   || (a =? 227) && (b =? 128) && (c =? 128)
   || (a =? 239) && (b =? 187) && (c =? 191))%Z.

Fixpoint trim_start (s : string) : string :=
  match s with
  | String c1 r1 =>
      if is_white c1 then trim_start r1
      else
        match r1 with
        | String c2 r2 =>
            if is_white2 c1 c2 then trim_start r2
            else
              match r2 with
              | String c3 r3 => if is_white3 c1 c2 c3 then trim_start r3 else s
              | EmptyString => s
              end
        | EmptyString => s
        end
  | EmptyString => s
  end.

(** The text is white space throughout. *)
Definition blank (s : string) : bool :=
  match trim_start s with
  | EmptyString => true
  | String _ _ => false
  end.

Fixpoint trim_end (s : string) : string :=
  match s with
  | String c r => if blank s then "" else String c (trim_end r)
  | EmptyString => ""
  end.

Definition trim (s : string) : string := trim_end (trim_start s).

(** A string is truthy when it is not empty. *)
Definition str_truthy (s : string) : bool :=
  match s with EmptyString => false | String _ _ => true end.

Fixpoint read_hex (s : string) (acc : Z) (cnt : nat) : Z * nat :=
  match s with
  | String c r =>
      match hex_val c with
      | Some d => read_hex r (acc * 16 + d)%Z (S cnt)
      | None => (acc, cnt)
      end
  | EmptyString => (acc, cnt)
  end.

(** [parseInt(s)] without a radix: leading white space, a sign, an
    optional [0x] prefix, then the longest run of digits; [NaN] when there
    is none. *)
Definition parseInt (s : string) : number :=
  let s0 := trim_start s in
  let '(neg, s1) :=
    match s0 with
    | String c r =>
        if (code c =? 45)%Z then (true, r)
        else if (code c =? 43)%Z then (false, r)
        else (false, s0)
    | EmptyString => (false, s0)
    end in
  let '(v, cnt) :=
    match s1 with
    | String z (String x r) =>
        if ((code z =? 48) && ((code x =? 120) || (code x =? 88)))%Z
        then read_hex r 0 0
        else let '(v, n, _) := read_digits s1 0 0 in (v, n)
    | _ => let '(v, n, _) := read_digits s1 0 0 in (v, n)
    end in
  match cnt with
  | O => NaN
  | S _ => round64 (if neg then - v else v)
  end.

(** ** The device: storage provider, clock, console, alerts *)

(** [faulty n] tells whether the [n]-th call to the storage provider
    fails; [calls] is the trace of the calls made so far, oldest first.
    A failing call leaves the stored data as it was. *)
Record World := mkWorld {
  storage : gmap string string;
  clock : Z;
  host : Host;
  faulty : nat -> bool;
  calls : list Call;
  console : list string;
  alerts : list (string * string)
}.

Definition M (A : Type) : Type := World -> Result A * World.

Definition ret {A} (a : A) : M A := fun w => (Ok a, w).

Definition bind {A B} (m : M A) (f : A -> M B) : M B :=
  fun w =>
    match m w with
    | (Ok a, w') => f a w'
    | (Throw e, w') => (Throw e, w')
    end.

Definition throw {A} (e : Error) : M A := fun w => (Throw e, w).

Definition try_catch {A} (m : M A) (handler : Error -> M A) : M A :=
  fun w =>
    match m w with
    | (Ok a, w') => (Ok a, w')
    | (Throw e, w') => handler e w'
    end.

Definition lift {A} (r : Result A) : M A := fun w => (r, w).

Declare Scope js_scope.
Delimit Scope js_scope with js.
Notation "x <- m ;; k" := (bind m (fun x => k))
  (at level 100, m at next level, right associativity) : js_scope.
Notation "m ;; k" := (bind m (fun _ => k))
  (at level 100, right associativity) : js_scope.

Definition provider (c : Call) (w : World) (st : gmap string string) : World :=
  mkWorld st (clock w) (host w) (faulty w) (calls w ++ [c]) (console w) (alerts w).

Definition fails_next (w : World) : bool := faulty w (length (calls w)).

Definition AsyncStorage_getItem (key : string) : M (option string) :=
  fun w =>
    let w' := provider (GetItem key) w (storage w) in
    if fails_next w then (Throw (StorageFailure (GetItem key)), w')
    else (Ok (storage w !! key), w').

Definition AsyncStorage_setItem (key val : string) : M unit :=
  fun w =>
    if fails_next w
    then (Throw (StorageFailure (SetItem key val)), provider (SetItem key val) w (storage w))
    else (Ok tt, provider (SetItem key val) w (<[key := val]> (storage w))).

Definition AsyncStorage_multiRemove (keys : list string) : M unit :=
  fun w =>
    if fails_next w
    then (Throw (StorageFailure (MultiRemove keys)), provider (MultiRemove keys) w (storage w))
    else (Ok tt, provider (MultiRemove keys) w (foldr delete (storage w) keys)).

Definition console_error (msg : string) : M unit :=
  fun w => (Ok tt, mkWorld (storage w) (clock w) (host w) (faulty w) (calls w)
                           (console w ++ [msg]) (alerts w)).

Definition Alert_alert (title msg : string) : M unit :=
  fun w => (Ok tt, mkWorld (storage w) (clock w) (host w) (faulty w) (calls w)
                           (console w) (alerts w ++ [(title, msg)])).

(** [new Date()] and [Date.now()]: the clock of the device. *)
Definition Date_now : M Z := fun w => (Ok (clock w), w).
Definition the_host : M Host := fun w => (Ok (host w), w).

(** [JSON.parse] as a computation that may throw. *)
Definition JSON_parse_M (s : string) : M value :=
  match JSON_parse s with
  | Some v => ret v
  | None => throw SyntaxError
  end.

(** [a.push(x)]: the array with [x] at its end; on anything that is not an
    array the call raises. *)
Definition array_push (a x : value) : M value :=
  match a with
  | VArr l => ret (VArr (l ++ [x]))
  | _ => throw TypeError
  end.

(** [v.key] for a key that is neither [length] nor an index: reading a
    property of [null] raises, a missing property is [undefined]. *)
Definition get_prop (v : value) (key : string) : Result (option value) :=
  match v with
  | VNull => Throw TypeError
  | VObj l => Ok (obj_get l key)
  | _ => Ok None
  end.

(** [a.filter(f)] where the callback may raise. *)
Fixpoint filter_list (f : value -> Result bool) (l : list value) : Result (list value) :=
  match l with
  | [] => Ok []
  | x :: xs =>
      match f x with
      | Ok b =>
          match filter_list f xs with
          | Ok r => Ok (if b then x :: r else r)
          | Throw e => Throw e
          end
      | Throw e => Throw e
      end
  end.

Definition array_filter (a : value) (f : value -> Result bool) : M (list value) :=
  match a with
  | VArr l => lift (filter_list f l)
  | _ => throw TypeError
  end.

(** [v === s] for a string constant [s]. *)
Definition strict_eq_str (v : option value) (s : string) : bool :=
  match v with
  | Some (VStr t) => String.eqb t s
  | _ => false
  end.

(** ** utils/health-storage.ts *)

Local Open Scope js_scope.

Definition DIET_KEY : string := "@diet_entries".
Definition EXERCISE_KEY : string := "@exercise_entries".

Record FoodItem := {
  name : string;
  calories : number;
  protein : number;
  carbs : number;
  fat : number
}.

Record DietEntry := {
  id : string;
  date : string;
  mealType : string;
  foods : list FoodItem;
  totalCalories : number;
  totalProtein : number;
  totalCarbs : number;
  totalFat : number
}.

Record Exercise := {
  ex_name : string;
  sets : option number;
  reps : option number;
  weight : option number;
  ex_duration : option number;
  distance : option number
}.

Record ExerciseEntry := {
  ex_id : string;
  ex_date : string;
  type : string;
  exercises : list Exercise;
  duration : number;
  caloriesBurned : number
}.

(** The objects the screens build for these shapes, as values: the keys
    in the order of the object literals; an optional field that is absent
    or [undefined] has no key (it has none once serialised either). *)
Definition FoodItem_value (f : FoodItem) : value :=
  VObj [("name", VStr (name f)); ("calories", VNum (calories f));
        ("protein", VNum (protein f)); ("carbs", VNum (carbs f));
        ("fat", VNum (fat f))].

Definition DietEntry_value (e : DietEntry) : value :=
  VObj [("id", VStr (id e)); ("date", VStr (date e));
        ("mealType", VStr (mealType e));
        ("foods", VArr (map FoodItem_value (foods e)));
        ("totalCalories", VNum (totalCalories e));
        ("totalProtein", VNum (totalProtein e));
        ("totalCarbs", VNum (totalCarbs e));
        ("totalFat", VNum (totalFat e))].

Definition optional (key : string) (o : option number) : list (string * value) :=
  match o with
  | Some n => [(key, VNum n)]
  | None => []
  end.

Definition Exercise_value (x : Exercise) : value :=
  VObj (("name", VStr (ex_name x)) :: optional "sets" (sets x) ++ optional "reps" (reps x)
        ++ optional "weight" (weight x) ++ optional "duration" (ex_duration x)
        ++ optional "distance" (distance x)).

Definition ExerciseEntry_value (e : ExerciseEntry) : value :=
  VObj [("id", VStr (ex_id e)); ("date", VStr (ex_date e));
        ("type", VStr (type e));
        ("exercises", VArr (map Exercise_value (exercises e)));
        ("duration", VNum (duration e));
        ("caloriesBurned", VNum (caloriesBurned e))].

(** What [getItem] returned, read as the list of entries. *)
Definition entries_of_data (data : option string) : M value :=
  match data with
  | Some s => if str_truthy s then JSON_parse_M s else ret (VArr [])
  | None => ret (VArr [])
  end.

Definition getDietEntries : M value :=
  try_catch
    (data <- AsyncStorage_getItem DIET_KEY ;;
     entries_of_data data)
    (fun error =>
       console_error "Error getting diet entries:" ;;
       ret (VArr [])).

Definition addDietEntry (entry : DietEntry) : M unit :=
  try_catch
    (entries <- getDietEntries ;;
     entries <- array_push entries (DietEntry_value entry) ;;
     AsyncStorage_setItem DIET_KEY (JSON_stringify entries))
    (fun error =>
       console_error "Error adding diet entry:" ;;
       throw error).

Definition getExerciseEntries : M value :=
  try_catch
    (data <- AsyncStorage_getItem EXERCISE_KEY ;;
     entries_of_data data)
    (fun error =>
       console_error "Error getting exercise entries:" ;;
       ret (VArr [])).

Definition addExerciseEntry (entry : ExerciseEntry) : M unit :=
  try_catch
    (entries <- getExerciseEntries ;;
     entries <- array_push entries (ExerciseEntry_value entry) ;;
     AsyncStorage_setItem EXERCISE_KEY (JSON_stringify entries))
    (fun error =>
       console_error "Error adding exercise entry:" ;;
       throw error).

(** The callback of the two daily filters:
    [new Date(entry.date).toDateString() === today]. *)
Definition is_today (h : Host) (today : string) (entry : value) : Result bool :=
  match get_prop entry "date" with
  | Ok d =>
      match Date_new h d with
      | Ok entryDate => Ok (String.eqb (Date_toDateString h entryDate) today)
      | Throw e => Throw e
      end
  | Throw e => Throw e
  end.

Definition getTodaysDietEntries : M value :=
  try_catch
    (entries <- getDietEntries ;;
     now <- Date_now ;;
     h <- the_host ;;
     let today := Date_toDateString h (Some now) in
     l <- array_filter entries (is_today h today) ;;
     ret (VArr l))
    (fun error =>
       console_error "Error getting today's diet entries:" ;;
       ret (VArr [])).

Definition getTodaysExerciseEntries : M value :=
  try_catch
    (entries <- getExerciseEntries ;;
     now <- Date_now ;;
     h <- the_host ;;
     let today := Date_toDateString h (Some now) in
     l <- array_filter entries (is_today h today) ;;
     ret (VArr l))
    (fun error =>
       console_error "Error getting today's exercise entries:" ;;
       ret (VArr [])).

Record WeeklyProgress := {
  strength : nat;
  cardio : nat;
  walking : nat;
  flexibility : nat
}.

(** [weekStart] and [weekEnd] of [getWeeklyExerciseProgress]. *)
Definition weekStart (h : Host) (now : Z) : Date :=
  let today : Date := Some now in
  let weekStart : Date := today in
  let weekStart :=
    Date_setDate h weekStart
      (match Date_getDate h today, Date_getDay h today with
       | Some d, Some w => Some (d - w)%Z
       | _, _ => None
       end) in
  Date_setHours h weekStart 0 0 0 0.

Definition weekEnd (h : Host) (now : Z) : Date :=
  let weekEnd : Date := weekStart h now in
  Date_setDate h weekEnd
    (match Date_getDate h (weekStart h now) with
     | Some d => Some (d + 7)%Z
     | None => None
     end).

(** The callback of the weekly filter:
    [new Date(entry.date) >= weekStart && new Date(entry.date) < weekEnd].
    *)
Definition in_week (h : Host) (ws we : Date) (entry : value) : Result bool :=
  match get_prop entry "date" with
  | Ok d =>
      match Date_new h d with
      | Ok a =>
          if Date_ge a ws
          then match Date_new h d with
               | Ok b => Ok (Date_lt b we)
               | Throw e => Throw e
               end
          else Ok false
      | Throw e => Throw e
      end
  | Throw e => Throw e
  end.

(** The callback of the four counts: [entry.type === t]. *)
Definition has_type (t : string) (entry : value) : Result bool :=
  match get_prop entry "type" with
  | Ok ty => Ok (strict_eq_str ty t)
  | Throw e => Throw e
  end.

Definition count_type (t : string) (weeklyEntries : list value) : M nat :=
  l <- lift (filter_list (has_type t) weeklyEntries) ;;
  ret (length l).

Definition getWeeklyExerciseProgress : M WeeklyProgress :=
  try_catch
    (entries <- getExerciseEntries ;;
     now <- Date_now ;;
     h <- the_host ;;
     let ws := weekStart h now in
     let we := weekEnd h now in
     weeklyEntries <- array_filter entries (in_week h ws we) ;;
     s <- count_type "strength" weeklyEntries ;;
     c <- count_type "cardio" weeklyEntries ;;
     w <- count_type "walking" weeklyEntries ;;
     f <- count_type "flexibility" weeklyEntries ;;
     ret {| strength := s; cardio := c; walking := w; flexibility := f |})
    (fun error =>
       console_error "Error getting weekly exercise progress:" ;;
       ret {| strength := 0; cardio := 0; walking := 0; flexibility := 0 |}).

Definition clearHealthData : M unit :=
  try_catch
    (AsyncStorage_multiRemove [DIET_KEY; EXERCISE_KEY])
    (fun error =>
       console_error "Error clearing health data:" ;;
       throw error).

(** ** app/diet/add.tsx: the meal screen *)

(** [x || 0] and [x || undefined] on a number. *)
Definition or_zero (n : number) : number := if num_truthy n then n else Int 0.
Definition or_undefined (n : number) : option number :=
  if num_truthy n then Some n else None.

Record MealScreen := {
  selectedMealType : string;
  foodItems : list FoodItem;
  currentFood : FoodItem
}.

Definition emptyFood : FoodItem :=
  {| name := ""; calories := Int 0; protein := Int 0; carbs := Int 0; fat := Int 0 |}.

Definition initialMealScreen : MealScreen :=
  {| selectedMealType := "breakfast"; foodItems := []; currentFood := emptyFood |}.

(** The four numeric inputs of the food form. *)
Definition setCalories (text : string) (st : MealScreen) : MealScreen :=
  let c := currentFood st in
  {| selectedMealType := selectedMealType st; foodItems := foodItems st;
     currentFood := {| name := name c; calories := or_zero (parseInt text);
                       protein := protein c; carbs := carbs c; fat := fat c |} |}.

Definition setProtein (text : string) (st : MealScreen) : MealScreen :=
  let c := currentFood st in
  {| selectedMealType := selectedMealType st; foodItems := foodItems st;
     currentFood := {| name := name c; calories := calories c;
                       protein := or_zero (parseInt text); carbs := carbs c; fat := fat c |} |}.

Definition setCarbs (text : string) (st : MealScreen) : MealScreen :=
  let c := currentFood st in
  {| selectedMealType := selectedMealType st; foodItems := foodItems st;
     currentFood := {| name := name c; calories := calories c;
                       protein := protein c; carbs := or_zero (parseInt text); fat := fat c |} |}.

Definition setFat (text : string) (st : MealScreen) : MealScreen :=
  let c := currentFood st in
  {| selectedMealType := selectedMealType st; foodItems := foodItems st;
     currentFood := {| name := name c; calories := calories c;
                       protein := protein c; carbs := carbs c; fat := or_zero (parseInt text) |} |}.

Definition setFoodName (text : string) (st : MealScreen) : MealScreen :=
  let c := currentFood st in
  {| selectedMealType := selectedMealType st; foodItems := foodItems st;
     currentFood := {| name := text; calories := calories c;
                       protein := protein c; carbs := carbs c; fat := fat c |} |}.

Definition addFoodItem (st : MealScreen) : M MealScreen :=
  if negb (str_truthy (trim (name (currentFood st)))) then
    Alert_alert "Error" "Please enter a food name" ;;
    ret st
  else
    ret {| selectedMealType := selectedMealType st;
           foodItems := foodItems st ++ [currentFood st];
           currentFood := emptyFood |}.

(** [splice(index, 1)] on a copy of the list. *)
Fixpoint splice1 {A} (index : nat) (l : list A) : list A :=
  match l, index with
  | [], _ => []
  | _ :: r, O => r
  | x :: r, S i => x :: splice1 i r
  end.

Definition removeFoodItem (index : nat) (st : MealScreen) : MealScreen :=
  {| selectedMealType := selectedMealType st;
     foodItems := splice1 index (foodItems st);
     currentFood := currentFood st |}.

Record Totals := {
  t_calories : number;
  t_protein : number;
  t_carbs : number;
  t_fat : number
}.

Definition calculateTotals (st : MealScreen) : Totals :=
  fold_left
    (fun acc item =>
       {| t_calories := num_add (t_calories acc) (calories item);
          t_protein := num_add (t_protein acc) (protein item);
          t_carbs := num_add (t_carbs acc) (carbs item);
          t_fat := num_add (t_fat acc) (fat item) |})
    (foodItems st)
    {| t_calories := Int 0; t_protein := Int 0; t_carbs := Int 0; t_fat := Int 0 |}.

Definition saveMeal (st : MealScreen) : M unit :=
  if (length (foodItems st) =? 0)%nat then
    Alert_alert "Error" "Please add at least one food item"
  else
    try_catch
      (let totals := calculateTotals st in
       now <- Date_now ;;
       addDietEntry
         {| id := Number_toString (Int now);
            date := toISOString now;
            mealType := selectedMealType st;
            foods := foodItems st;
            totalCalories := t_calories totals;
            totalProtein := t_protein totals;
            totalCarbs := t_carbs totals;
            totalFat := t_fat totals |} ;;
       Alert_alert "Success" "Meal saved successfully")
      (fun error =>
         console_error "Error saving meal:" ;;
         Alert_alert "Error" "Failed to save meal").

(** The form: the row of meal types and what the user can do. *)

Record MealType := {
  mt_id : string;
  mt_label : string;
  mt_icon : string;
  mt_color : string
}.

Definition MEAL_TYPES : list MealType :=
  [ {| mt_id := "breakfast"; mt_label := "Breakfast";
       mt_icon := "restaurant-outline"; mt_color := "#FF6B6B" |};
    {| mt_id := "lunch"; mt_label := "Lunch";
       mt_icon := "cafe-outline"; mt_color := "#4ECDC4" |};
    {| mt_id := "dinner"; mt_label := "Dinner";
       mt_icon := "fast-food-outline"; mt_color := "#45B7D1" |};
    {| mt_id := "snacks"; mt_label := "Snacks";
       mt_icon := "nutrition-outline"; mt_color := "#96CEB4" |} ].

Definition setSelectedMealType (type_id : string) (st : MealScreen) : MealScreen :=
  {| selectedMealType := type_id; foodItems := foodItems st; currentFood := currentFood st |}.

(** The texts the four numeric inputs of the food form show: the [value]
    of each input. *)
Definition caloriesText (st : MealScreen) : string :=
  Number_toString (calories (currentFood st)).
Definition proteinText (st : MealScreen) : string :=
  Number_toString (protein (currentFood st)).
Definition carbsText (st : MealScreen) : string :=
  Number_toString (carbs (currentFood st)).
Definition fatText (st : MealScreen) : string :=
  Number_toString (fat (currentFood st)).

(** What the user can do on the meal screen, one constructor for each
    handler of the view: the button of the [n]-th meal type, the five text
    inputs of the food form, the add button, the remove button of the item
    shown at [index], and the save button. *)
Inductive MealEvent :=
  | PressMealType (n : nat)
  | ChangeFoodName (text : string)
  | ChangeCalories (text : string)
  | ChangeProtein (text : string)
  | ChangeCarbs (text : string)
  | ChangeFat (text : string)
  | PressAddFood
  | PressRemoveFood (index : nat)
  | PressSaveMeal.

(** The handler the view attaches to each of them.  A button that is not
    on the screen cannot be pressed: the state stays as it is. *)
Definition meal_handler (ev : MealEvent) (st : MealScreen) : M MealScreen :=
  match ev with
  | PressMealType n =>
      match nth_error MEAL_TYPES n with
      | Some t => ret (setSelectedMealType (mt_id t) st)
      | None => ret st
      end
  | ChangeFoodName text => ret (setFoodName text st)
  | ChangeCalories text => ret (setCalories text st)
  | ChangeProtein text => ret (setProtein text st)
  | ChangeCarbs text => ret (setCarbs text st)
  | ChangeFat text => ret (setFat text st)
  | PressAddFood => addFoodItem st
  | PressRemoveFood index =>
      if (index <? length (foodItems st))%nat then ret (removeFoodItem index st)
      else ret st
  | PressSaveMeal => saveMeal st ;; ret st
  end.

(** The events of a visit to the screen, handled one after the other. *)
Fixpoint meal_session (evs : list MealEvent) (st : MealScreen) : M MealScreen :=
  match evs with
  | [] => ret st
  | ev :: evs' => st' <- meal_handler ev st ;; meal_session evs' st'
  end.

(** ** app/exercise/add.tsx: the workout screen *)

Record WorkoutScreen := {
  selectedType : string;
  ws_exercises : list Exercise;
  currentExercise : Exercise;
  workoutDuration : string
}.

Definition emptyExercise : Exercise :=
  {| ex_name := ""; sets := None; reps := None; weight := None;
     ex_duration := None; distance := None |}.

Definition initialWorkoutScreen : WorkoutScreen :=
  {| selectedType := "strength"; ws_exercises := [];
     currentExercise := emptyExercise; workoutDuration := "" |}.

Definition addExercise (st : WorkoutScreen) : M WorkoutScreen :=
  if negb (str_truthy (trim (ex_name (currentExercise st)))) then
    Alert_alert "Error" "Please enter an exercise name" ;;
    ret st
  else
    ret {| selectedType := selectedType st;
           ws_exercises := ws_exercises st ++ [currentExercise st];
           currentExercise := emptyExercise;
           workoutDuration := workoutDuration st |}.

Definition removeExercise (index : nat) (st : WorkoutScreen) : WorkoutScreen :=
  {| selectedType := selectedType st;
     ws_exercises := splice1 index (ws_exercises st);
     currentExercise := currentExercise st;
     workoutDuration := workoutDuration st |}.

Definition saveWorkout (st : WorkoutScreen) : M unit :=
  if (length (ws_exercises st) =? 0)%nat then
    Alert_alert "Error" "Please add at least one exercise"
  else if negb (str_truthy (trim (workoutDuration st))) then
    Alert_alert "Error" "Please enter workout duration"
  else
    try_catch
      (let duration := parseInt (workoutDuration st) in
       if is_NaN duration || num_le duration (Int 0) then
         Alert_alert "Error" "Please enter a valid duration"
       else
         let caloriesBurned := Math_round (num_mul duration (Int 5)) in
         now <- Date_now ;;
         addExerciseEntry
           {| ex_id := Number_toString (Int now);
              ex_date := toISOString now;
              type := selectedType st;
              exercises := ws_exercises st;
              duration := duration;
              caloriesBurned := caloriesBurned |} ;;
         Alert_alert "Success" "Workout saved successfully")
      (fun error =>
         console_error "Error saving workout:" ;;
         Alert_alert "Error" "Failed to save workout").

(** The form: the row of exercise types, the common exercises, the
    inputs, and what the user can do. *)

Record ExerciseType := {
  et_id : string;
  et_label : string;
  et_icon : string;
  et_color : string
}.

Definition EXERCISE_TYPES : list ExerciseType :=
  [ {| et_id := "strength"; et_label := "Strength";
       et_icon := "barbell-outline"; et_color := "#FF6B6B" |};
    {| et_id := "cardio"; et_label := "Cardio";
       et_icon := "bicycle-outline"; et_color := "#4ECDC4" |};
    {| et_id := "walking"; et_label := "Walking";
       et_icon := "walk-outline"; et_color := "#45B7D1" |};
    {| et_id := "flexibility"; et_label := "Flexibility";
       et_icon := "fitness-outline"; et_color := "#96CEB4" |} ].

Definition COMMON_EXERCISES : list (string * list string) :=
  [ ("strength",
     ["Bench Press"; "Squats"; "Deadlifts"; "Pull-ups"; "Push-ups";
      "Shoulder Press"; "Bicep Curls"; "Tricep Extensions"]);
    ("cardio",
     ["Running"; "Cycling"; "Swimming"; "Jump Rope"; "Rowing";
      "Elliptical"; "Stair Master"]);
    ("walking", ["Walking"; "Hiking"; "Treadmill Walking"]);
    ("flexibility",
     ["Yoga"; "Stretching"; "Pilates"; "Mobility Work"; "Dynamic Stretching"]) ].

(** Property lookup in a table keyed by strings. *)
Fixpoint table_get {A} (l : list (string * A)) (k : string) : option A :=
  match l with
  | [] => None
  | (k', v) :: r => if String.eqb k' k then Some v else table_get r k
  end.

(** [COMMON_EXERCISES[selectedType].map(...)]: the names offered below the
    name input; mapping over a missing entry of the table raises. *)
Definition commonExercises (st : WorkoutScreen) : Result (list string) :=
  match table_get COMMON_EXERCISES (selectedType st) with
  | Some names => Ok names
  | None => Throw TypeError
  end.

Definition setSelectedType (type_id : string) (st : WorkoutScreen) : WorkoutScreen :=
  {| selectedType := type_id; ws_exercises := ws_exercises st;
     currentExercise := currentExercise st; workoutDuration := workoutDuration st |}.

Definition setCurrentExercise (x : Exercise) (st : WorkoutScreen) : WorkoutScreen :=
  {| selectedType := selectedType st; ws_exercises := ws_exercises st;
     currentExercise := x; workoutDuration := workoutDuration st |}.

Definition setWorkoutDuration (text : string) (st : WorkoutScreen) : WorkoutScreen :=
  {| selectedType := selectedType st; ws_exercises := ws_exercises st;
     currentExercise := currentExercise st; workoutDuration := text |}.

Definition setExerciseName (text : string) (st : WorkoutScreen) : WorkoutScreen :=
  let c := currentExercise st in
  setCurrentExercise
    {| ex_name := text; sets := sets c; reps := reps c; weight := weight c;
       ex_duration := ex_duration c; distance := distance c |} st.

(** The numeric inputs of an exercise. *)
Inductive DetailInput :=
  | SetsInput
  | RepsInput
  | WeightInput
  | DurationInput
  | DistanceInput.

Definition DetailInput_eqb (a b : DetailInput) : bool :=
  match a, b with
  | SetsInput, SetsInput | RepsInput, RepsInput | WeightInput, WeightInput
  | DurationInput, DurationInput | DistanceInput, DistanceInput => true
  | _, _ => false
  end.

(** [renderExerciseInputs]: the inputs shown for the selected type. *)
Definition renderExerciseInputs (st : WorkoutScreen) : list DetailInput :=
  let t := selectedType st in
  if String.eqb t "strength" then [SetsInput; RepsInput; WeightInput]
  else if String.eqb t "cardio" || String.eqb t "walking" then [DurationInput; DistanceInput]
  else if String.eqb t "flexibility" then [DurationInput]
  else [].

(** The [onChangeText] handler of each of them: the field is set to
    [parseInt(text) || undefined]. *)
Definition setDetail (input : DetailInput) (text : string) (st : WorkoutScreen) : WorkoutScreen :=
  let c := currentExercise st in
  let v := or_undefined (parseInt text) in
  setCurrentExercise
    match input with
    | SetsInput =>
        {| ex_name := ex_name c; sets := v; reps := reps c; weight := weight c;
           ex_duration := ex_duration c; distance := distance c |}
    | RepsInput =>
        {| ex_name := ex_name c; sets := sets c; reps := v; weight := weight c;
           ex_duration := ex_duration c; distance := distance c |}
    | WeightInput =>
        {| ex_name := ex_name c; sets := sets c; reps := reps c; weight := v;
           ex_duration := ex_duration c; distance := distance c |}
    | DurationInput =>
        {| ex_name := ex_name c; sets := sets c; reps := reps c; weight := weight c;
           ex_duration := v; distance := distance c |}
    | DistanceInput =>
        {| ex_name := ex_name c; sets := sets c; reps := reps c; weight := weight c;
           ex_duration := ex_duration c; distance := v |}
    end st.

(** The text each of them shows: [field?.toString() || ""]. *)
Definition detail_of (input : DetailInput) (x : Exercise) : option number :=
  match input with
  | SetsInput => sets x
  | RepsInput => reps x
  | WeightInput => weight x
  | DurationInput => ex_duration x
  | DistanceInput => distance x
  end.

Definition detailText (input : DetailInput) (st : WorkoutScreen) : string :=
  match detail_of input (currentExercise st) with
  | Some n => let s := Number_toString n in if str_truthy s then s else ""
  | None => ""
  end.

(** What the user can do on the workout screen: the button of the [n]-th
    exercise type, the name input, the [n]-th common exercise offered, a
    numeric input of the exercise, the duration input of the workout, the
    add button, the remove button of the exercise shown at [index], and the
    save button. *)
Inductive WorkoutEvent :=
  | PressExerciseType (n : nat)
  | ChangeExerciseName (text : string)
  | PressCommonExercise (n : nat)
  | ChangeDetail (input : DetailInput) (text : string)
  | ChangeWorkoutDuration (text : string)
  | PressAddExercise
  | PressRemoveExercise (index : nat)
  | PressSaveWorkout.

Definition workout_handler (ev : WorkoutEvent) (st : WorkoutScreen) : M WorkoutScreen :=
  match ev with
  | PressExerciseType n =>
      match nth_error EXERCISE_TYPES n with
      | Some t => ret (setSelectedType (et_id t) st)
      | None => ret st
      end
  | ChangeExerciseName text => ret (setExerciseName text st)
  | PressCommonExercise n =>
      names <- lift (commonExercises st) ;;
      match nth_error names n with
      | Some name => ret (setExerciseName name st)
      | None => ret st
      end
  | ChangeDetail input text =>
      if existsb (DetailInput_eqb input) (renderExerciseInputs st)
      then ret (setDetail input text st)
      else ret st
  | ChangeWorkoutDuration text => ret (setWorkoutDuration text st)
  | PressAddExercise => addExercise st
  | PressRemoveExercise index =>
      if (index <? length (ws_exercises st))%nat then ret (removeExercise index st)
      else ret st
  | PressSaveWorkout => saveWorkout st ;; ret st
  end.

Fixpoint workout_session (evs : list WorkoutEvent) (st : WorkoutScreen) : M WorkoutScreen :=
  match evs with
  | [] => ret st
  | ev :: evs' => st' <- workout_handler ev st ;; workout_session evs' st'
  end.

(** ** app/exercise/index.tsx: the exercise screen *)

Definition WEEKLY_GOALS : WeeklyProgress :=
  {| strength := 3; cardio := 4; walking := 5; flexibility := 3 |}.

(** The state of the screen: today's workouts and the weekly counts.  (The
    third state variable, [selectedDate], is never read.) *)
Record ExerciseScreen := {
  workouts : value;
  weeklyProgress : WeeklyProgress
}.

Definition initialExerciseScreen : ExerciseScreen :=
  {| workouts := VArr [];
     weeklyProgress := {| strength := 0; cardio := 0; walking := 0; flexibility := 0 |} |}.

Definition setWorkouts (l : value) (st : ExerciseScreen) : ExerciseScreen :=
  {| workouts := l; weeklyProgress := weeklyProgress st |}.

Definition setWeeklyProgress (p : WeeklyProgress) (st : ExerciseScreen) : ExerciseScreen :=
  {| workouts := workouts st; weeklyProgress := p |}.

(** [loadWorkouts], run each time the screen gets the focus.  Its one
    [catch] block is entered with the state as the statements before the
    failure left it. *)
Definition loadWorkouts (st : ExerciseScreen) : M ExerciseScreen :=
  let failed (st : ExerciseScreen) (error : Error) : M ExerciseScreen :=
    console_error "Error loading workouts:" ;; ret st in
  try_catch
    (todaysWorkouts <- getTodaysExerciseEntries ;;
     let st := setWorkouts todaysWorkouts st in
     try_catch
       (progress <- getWeeklyExerciseProgress ;;
        ret (setWeeklyProgress progress st))
       (failed st))
    (failed st).

(** [typeWorkouts] of [renderWorkoutSection]: today's workouts of one
    type. *)
Definition typeWorkouts (exerciseType : ExerciseType) (st : ExerciseScreen) : Result (list value) :=
  match workouts st with
  | VArr l => filter_list (has_type (et_id exerciseType)) l
  | _ => Throw TypeError
  end.

(** The arithmetic of the progress bars is that of binary64.  A finite
    binary64 number that is not negative is a whole multiple of 2^-1074,
    and is held here as that multiple: [b64_of_nat 1] is 2^1074.

    [b64_round a b] is the binary64 number nearest to the quotient of [a]
    by [b], a tie going to the even significand: the quotient is rounded to
    a multiple of 2^s, where s leaves 53 bits to the significand, and s is 0
    below 2^-1022.  Results that reach 2^1024 are not modelled: the
    quotients and products of the bars are far below. *)
Definition b64_round (a b : Z) : Z :=
  let s := Z.max 0 (Z.log2 (a / b) - 52) in
  let d := (b * 2 ^ s)%Z in
  let q := (a / d)%Z in
  let r := (a mod d)%Z in
  ((if (d <? 2 * r)%Z || ((2 * r =? d)%Z && Z.odd q) then q + 1 else q) * 2 ^ s)%Z.

(** A count as a number: exact below 2^53. *)
Definition b64_of_nat (n : nat) : Z := (Z.of_nat n * 2 ^ 1074)%Z.

Definition b64_div (x y : Z) : Z := b64_round (x * 2 ^ 1074) y.
Definition b64_mul (x y : Z) : Z := b64_round (x * y) (2 ^ 1074).

(** [percentage] of [renderProgressBar], for a goal that is not zero:
    [Math.min((value / goal) * 100, 100)]. *)
Definition percentage (value goal : nat) : Z :=
  Z.min (b64_mul (b64_div (b64_of_nat value) (b64_of_nat goal)) (b64_of_nat 100))
        (b64_of_nat 100).

(** The four bars of the weekly summary, in the order they are drawn. *)
Definition progressBars (st : ExerciseScreen) : list (string * Z) :=
  [ ("Strength", percentage (strength (weeklyProgress st)) (strength WEEKLY_GOALS));
    ("Cardio", percentage (cardio (weeklyProgress st)) (cardio WEEKLY_GOALS));
    ("Walking", percentage (walking (weeklyProgress st)) (walking WEEKLY_GOALS));
    ("Flexibility", percentage (flexibility (weeklyProgress st)) (flexibility WEEKLY_GOALS)) ].

(** ** Hosts *)

(** A [Date.parse] for the format [toISOString] writes, twenty-four
    characters with a four-digit year; every other string is an invalid
    date for it. *)
Fixpoint take_digits (n : nat) (s : string) (acc : Z) : option (Z * string) :=
  match n with
  | O => Some (acc, s)
  | S n' =>
      match s with
      | String c r =>
          if is_digit c then take_digits n' r (acc * 10 + digit_val c)%Z else None
      | EmptyString => None
      end
  end.

Definition expect (c : ascii) (s : string) : option string :=
  match s with
  | String c' r => if Ascii.eqb c c' then Some r else None
  | EmptyString => None
  end.

Definition days_in_month (y m : Z) : Z :=
  let leap := (if DaysInYear y =? 366 then 1 else 0)%Z in
  (if m =? 11 then 31 else month_start (m + 1) leap - month_start m leap)%Z.

Definition Date_parse_iso (s : string) : option Z :=
  '(y, s) ← take_digits 4 s 0;
  s ← expect "-" s;
  '(mo, s) ← take_digits 2 s 0;
  s ← expect "-" s;
  '(d, s) ← take_digits 2 s 0;
  s ← expect "T" s;
  '(hh, s) ← take_digits 2 s 0;
  s ← expect ":" s;
  '(mm, s) ← take_digits 2 s 0;
  s ← expect ":" s;
  '(ss, s) ← take_digits 2 s 0;
  s ← expect "." s;
  '(ms, s) ← take_digits 3 s 0;
  s ← expect "Z" s;
  match s with
  | EmptyString =>
      if ((1 <=? mo) && (mo <=? 12) && (1 <=? d) && (d <=? days_in_month y (mo - 1))
          && (hh <=? 23) && (mm <=? 59) && (ss <=? 59))%Z
      then Some (MakeDate (MakeDay y (mo - 1) d) (MakeTime hh mm ss ms))
      else None
  | String _ _ => None
  end.

(** A zone at a constant offset from UTC. *)
Definition fixed_zone (offset : Z) : Host :=
  {| Date_parse := Date_parse_iso; LocalTZA := fun _ _ => offset |}.

(** A zone four hours behind UTC that moves to five hours behind at
    2026-11-01T06:00:00Z, when its clocks go back from 02:00 to 01:00. *)
Definition autumn_zone : Host :=
  {| Date_parse := Date_parse_iso;
     LocalTZA := fun t isUTC =>
       if isUTC then (if t <? 1793512800000 then -14400000 else -18000000)%Z
       else (if t <? 1793498400000 then -14400000 else -18000000)%Z |}.

(** A device with an empty store whose provider never fails. *)
Definition device (h : Host) (now : Z) : World :=
  mkWorld ∅ now h (fun _ => false) [] [] [].

(** ** Vocabulary of the properties *)

(** A string that does not go on with a digit. *)
Definition no_digit_ahead (k : string) : Prop :=
  match k with
  | String c _ => is_digit c = false
  | EmptyString => True
  end.

(** What may follow a value inside an array or an object, or the end of
    the text. *)
Definition follows_value (k : string) : Prop :=
  match k with
  | String c _ => code c = 44%Z \/ code c = 93%Z \/ code c = 125%Z
  | EmptyString => True
  end.

(** A finite number in normal form: the last fractional digit of a [Dec]
    is not zero. *)
Definition finite (n : number) : Prop :=
  match n with
  | Int _ => True
  | Dec m _ => (m mod 10 <> 0)%Z
  | _ => False
  end.

(** The values [JSON.parse] gives back as they were written: finite
    numbers, and objects without a repeated key. *)
Fixpoint faithful (v : value) : Prop :=
  match v with
  | VNum n => finite n
  | VArr l =>
      (fix all (l : list value) : Prop :=
         match l with
         | [] => True
         | x :: xs => faithful x /\ all xs
         end) l
  | VObj l =>
      NoDup (map fst l) /\
      (fix all (l : list (string * value)) : Prop :=
         match l with
         | [] => True
         | kv :: xs => faithful (snd kv) /\ all xs
         end) l
  | _ => True
  end.

(** The text of the elements after the first, and of the members after
    the first. *)
Fixpoint print_elements (xs : list value) (k : string) : string :=
  match xs with
  | [] => String "]" k
  | y :: ys => String "," (print y (print_elements ys k))
  end.

Fixpoint print_members (xs : list (string * value)) (k : string) : string :=
  match xs with
  | [] => String "}" k
  | (key, y) :: ys =>
      String "," (print_string key (String ":" (print y (print_members ys k))))
  end.

(** Reading back with enough fuel. *)
Definition reads_back (v : value) : Prop :=
  exists f0, forall fuel k, f0 <= fuel -> follows_value k ->
    parse_value fuel (print v k) = Parsed v k.


(** The two readers and the two writers of the store are the same code up
    to the key and the messages. *)
Definition get_entries (key msg : string) : M value :=
  try_catch
    (data <- AsyncStorage_getItem key ;;
     entries_of_data data)
    (fun error => console_error msg ;; ret (VArr [])).

Definition add_entry (key msg msg' : string) (entry : value) : M unit :=
  try_catch
    (entries <- get_entries key msg ;;
     entries <- array_push entries entry ;;
     AsyncStorage_setItem key (JSON_stringify entries))
    (fun error => console_error msg' ;; throw error).

Definition get_todays (key msg msg' : string) : M value :=
  try_catch
    (entries <- get_entries key msg ;;
     now <- Date_now ;;
     h <- the_host ;;
     let today := Date_toDateString h (Some now) in
     l <- array_filter entries (is_today h today) ;;
     ret (VArr l))
    (fun error => console_error msg' ;; ret (VArr [])).

(** What the text stored under [key] is read as when [getItem] succeeds:
    the empty list when the key is absent or its text does not parse. *)
Definition stored (key : string) (w : World) : value :=
  match storage w !! key with
  | Some s =>
      if str_truthy s
      then match JSON_parse s with Some v => v | None => VArr [] end
      else VArr []
  | None => VArr []
  end.

(** What a read of [key] returns on device [w]. *)
Definition read_result (key : string) (w : World) : value :=
  if fails_next w then VArr [] else stored key w.

(** The storage call after the next one fails: in an append, the write. *)
Definition write_fails (w : World) : bool := faulty w (S (length (calls w))).

(** The text under [key] is not valid JSON. *)
Definition malformed (key : string) (w : World) : Prop :=
  exists s, storage w !! key = Some s /\ JSON_parse s = None.

Definition is_array (v : value) : bool :=
  match v with VArr _ => true | _ => false end.

Definition is_null (v : value) : bool :=
  match v with VNull => true | _ => false end.

Definition throws {A} (r : Result A) : Prop :=
  match r with Throw _ => True | Ok _ => False end.

(** The parts of the device no operation changes. *)
Definition same_device (w w' : World) : Prop :=
  clock w' = clock w /\ host w' = host w /\ faulty w' = faulty w.

Definition no_progress : WeeklyProgress :=
  {| strength := 0; cardio := 0; walking := 0; flexibility := 0 |}.

(** The result of the daily filter on what was read. *)
Definition todays_of (h : Host) (now : Z) (entries : value) : value :=
  match entries with
  | VArr l =>
      match filter_list (is_today h (Date_toDateString h (Some now))) l with
      | Ok r => VArr r
      | Throw _ => VArr []
      end
  | _ => VArr []
  end.

Definition count_of (t : string) (l : list value) : option nat :=
  match filter_list (has_type t) l with
  | Ok r => Some (length r)
  | Throw _ => None
  end.

(** The result of the weekly count on what was read. *)
Definition weekly_of (h : Host) (now : Z) (entries : value) : WeeklyProgress :=
  match entries with
  | VArr l =>
      match filter_list (in_week h (weekStart h now) (weekEnd h now)) l with
      | Ok wk =>
          match count_of "strength" wk, count_of "cardio" wk,
                count_of "walking" wk, count_of "flexibility" wk with
          | Some s, Some c, Some k, Some f =>
              {| strength := s; cardio := c; walking := k; flexibility := f |}
          | _, _, _, _ => no_progress
          end
      | Throw _ => no_progress
      end
  | _ => no_progress
  end.

(** Sample data for the worked examples. *)
Definition egg : FoodItem :=
  {| name := "egg"; calories := Int 70; protein := Int 6; carbs := Int 1; fat := Int 5 |}.

Definition toast : FoodItem :=
  {| name := "toast"; calories := Int 120; protein := Int 4; carbs := Int 22; fat := Int 2 |}.

Definition breakfast : DietEntry :=
  {| id := "1793575800000"; date := "2026-11-01T23:30:00.000Z"; mealType := "breakfast";
     foods := [egg; toast];
     totalCalories := Int 190; totalProtein := Int 10;
     totalCarbs := Int 23; totalFat := Int 7 |}.

Definition squats : Exercise :=
  {| ex_name := "Squats"; sets := Some (Int 3); reps := Some (Int 10);
     weight := Some (Int 60); ex_duration := None; distance := None |}.

Definition workout : ExerciseEntry :=
  {| ex_id := "1793575800000"; ex_date := "2026-11-01T23:30:00.000Z"; type := "strength";
     exercises := [squats]; duration := Int 30; caloriesBurned := Int 150 |}.

(** 2026-11-01T23:30:00.000Z, a Sunday. *)
Definition sunday_evening : Z := 1793575800000.

(** A device whose store holds the given texts and whose provider never
    fails. *)
Definition device_with (h : Host) (now : Z) (st : gmap string string) : World :=
  mkWorld st now h (fun _ => false) [] [] [].

(** A device whose diet key holds an object instead of a list. *)
Definition corrupt_device : World :=
  device_with (fixed_zone 0) sunday_evening {[ DIET_KEY := "{}" ]}.

(** A device whose two keys hold text that is not JSON. *)
Definition garbled_device : World :=
  device_with (fixed_zone 0) sunday_evening
    (<[DIET_KEY := "[{oops"]> {[ EXERCISE_KEY := "not json" ]}).

(** A device after one meal and one workout were saved. *)
Definition used_device : World :=
  snd (addExerciseEntry workout (snd (addDietEntry breakfast (device (fixed_zone 0) sunday_evening)))).

(** Entries whose numeric fields are all finite. *)
Definition food_finite (f : FoodItem) : Prop :=
  finite (calories f) /\ finite (protein f) /\ finite (carbs f) /\ finite (fat f).

Definition diet_finite (e : DietEntry) : Prop :=
  Forall food_finite (foods e)
  /\ finite (totalCalories e) /\ finite (totalProtein e)
  /\ finite (totalCarbs e) /\ finite (totalFat e).

(** The entries appended one after the other. *)
Fixpoint appendAll (es : list DietEntry) : M unit :=
  match es with
  | [] => ret tt
  | e :: r => addDietEntry e ;; appendAll r
  end.

(** An entry whose calorie total is not a number. *)
Definition nan_meal : DietEntry :=
  {| id := "1"; date := "2026-11-01T23:30:00.000Z"; mealType := "lunch";
     foods := [egg];
     totalCalories := NaN; totalProtein := Int 6;
     totalCarbs := Int 1; totalFat := Int 5 |}.

(** The year a year string stands for. *)
Definition read_year (s : string) : Z :=
  match s with
  | String c r =>
      if (code c =? 45)%Z then (- fst (fst (read_digits r 0 0)))%Z
      else fst (fst (read_digits s 0 0))
  | EmptyString => 0%Z
  end.

(** The conversion of [v] to a primitive goes through: no object in it,
    nor in the arrays it holds, has a property [toString]. *)
Definition converts (v : value) : bool :=
  match ToString v with Ok _ => true | Throw _ => false end.

(** The filters can read a date off [entry]: it is not [null], and its
    date, if it has one, converts to a primitive. *)
Definition readable (entry : value) : bool :=
  match entry with
  | VNull => false
  | VObj l => match obj_get l "date" with Some d => converts d | None => true end
  | _ => true
  end.

(** The date of an entry, the way the filters read it; where they cannot
    read one it is taken as invalid. *)
Definition entry_date (h : Host) (entry : value) : Date :=
  match Date_new h (match entry with VObj l => obj_get l "date" | _ => None end) with
  | Ok d => d
  | Throw _ => None
  end.

Definition entry_type (entry : value) : option value :=
  match entry with VObj l => obj_get l "type" | _ => None end.

(** The calendar day of an instant in local time, as a day number. *)
Definition local_day (h : Host) (t : Z) : Z := Day (LocalTime h t).

(** The entry is dated on the local calendar day of [now]. *)
Definition dated_today (h : Host) (now : Z) (entry : value) : bool :=
  match entry_date h entry with
  | Some t => (local_day h t =? local_day h now)%Z
  | None => false
  end.

(** The entry is dated in the week of [now]: from [weekStart] on and
    before [weekEnd]. *)
Definition dated_this_week (h : Host) (now : Z) (entry : value) : bool :=
  match entry_date h entry, weekStart h now, weekEnd h now with
  | Some t, Some a, Some b => ((a <=? t) && (t <? b))%Z
  | _, _, _ => false
  end.

Definition typed_as (t : string) (entry : value) : bool :=
  strict_eq_str (entry_type entry) t.

(** The number of entries of type [t] dated in the week of [now]. *)
Definition count_week (h : Host) (now : Z) (t : string) (l : list value) : nat :=
  length (List.filter (fun e => dated_this_week h now e && typed_as t e) l).

Definition progress_of (h : Host) (now : Z) (l : list value) : WeeklyProgress :=
  {| strength := count_week h now "strength" l;
     cardio := count_week h now "cardio" l;
     walking := count_week h now "walking" l;
     flexibility := count_week h now "flexibility" l |}.

(** Local midnight at the start of the most recent Sunday, as a local time
    value. *)
Definition sunday_start (lt : Z) : Z := (msPerDay * (Day lt - WeekDay lt))%Z.

(** The local time value [x] exists in the zone: it is the local time of
    the instant it converts to. *)
Definition local_ok (h : Host) (x : Z) : Prop := LocalTime h (UTC h x) = x.

(** Sample data for the daily and weekly views: a zone five and a half
    hours ahead of UTC, and entries around the week of [sunday_evening]
    there (local Monday 05:00; the week runs from Saturday 18:30Z). *)
Definition kolkata : Host := fixed_zone 19800000.

Definition workout_at (n : string) (d : string) (t : string) : ExerciseEntry :=
  {| ex_id := n; ex_date := d; type := t;
     exercises := [squats]; duration := Int 30; caloriesBurned := Int 150 |}.

Definition week_sample : list ExerciseEntry :=
  [ workout_at "1" "2026-10-31T18:29:59.999Z" "strength";
    workout_at "2" "2026-10-31T18:30:00.000Z" "strength";
    workout_at "3" "2026-11-01T23:30:00.000Z" "cardio";
    workout_at "4" "2026-11-03T07:00:00.000Z" "cardio";
    workout_at "5" "2026-11-07T18:29:59.999Z" "walking";
    workout_at "6" "2026-11-07T18:30:00.000Z" "flexibility";
    workout_at "7" "yesterday" "strength" ].

Definition week_device : World :=
  device_with kolkata sunday_evening
    {[ EXERCISE_KEY := JSON_stringify (VArr (map ExerciseEntry_value week_sample)) ]}.

(** A meal logged half an hour after local midnight on the day the clocks
    of [autumn_zone] go back, and the instant twenty-four hours later. *)
Definition early_meal : DietEntry :=
  {| id := "1793507400000"; date := "2026-11-01T04:30:00.000Z"; mealType := "snacks";
     foods := [egg];
     totalCalories := Int 70; totalProtein := Int 6;
     totalCarbs := Int 1; totalFat := Int 5 |}.

Definition a_day_later : Z := 1793593800000.

Definition autumn_device : World :=
  device_with autumn_zone a_day_later
    {[ DIET_KEY := JSON_stringify (VArr [DietEntry_value early_meal]) ]}.

(** A device whose diet list holds an entry with an unreadable date next
    to a good one. *)
Definition undated_meal : DietEntry :=
  {| id := "2"; date := "last tuesday"; mealType := "dinner";
     foods := [toast];
     totalCalories := Int 120; totalProtein := Int 4;
     totalCarbs := Int 22; totalFat := Int 2 |}.

Definition undated_device : World :=
  device_with kolkata sunday_evening
    (<[ DIET_KEY := JSON_stringify (VArr [DietEntry_value breakfast; DietEntry_value undated_meal]) ]>
       {[ EXERCISE_KEY := JSON_stringify (VArr (map ExerciseEntry_value week_sample)) ]}).

(** The sum of a numeric field over a list of food items, added up from
    zero in list order. *)
Definition sum_of (field : FoodItem -> number) (l : list FoodItem) : number :=
  fold_left (fun acc item => num_add acc (field item)) l (Int 0).

(** The totals of a diet entry are the sums over its foods. *)
Definition totals_add_up (e : DietEntry) : Prop :=
  totalCalories e = sum_of calories (foods e)
  /\ totalProtein e = sum_of protein (foods e)
  /\ totalCarbs e = sum_of carbs (foods e)
  /\ totalFat e = sum_of fat (foods e).

(** A meal screen with two items entered, and workout screens with one
    exercise and a duration typed in. *)
Definition meal_screen : MealScreen :=
  {| selectedMealType := "breakfast"; foodItems := [egg; toast]; currentFood := emptyFood |}.

Definition workout_screen (minutes : string) : WorkoutScreen :=
  {| selectedType := "strength"; ws_exercises := [squats];
     currentExercise := emptyExercise; workoutDuration := minutes |}.

(** A numeral of 310 digits, 10^309: beyond the numbers there are. *)
Fixpoint zeros (n : nat) : string :=
  match n with
  | O => ""
  | S n' => String "0" (zeros n')
  end.

Definition endless_duration : string := String "1" (zeros 309).

(** ** Vocabulary of the further properties *)

(** *** The store *)

(** The text under [key] is not empty and is not valid JSON. *)
Definition unparseable (key : string) (w : World) : bool :=
  match storage w !! key with
  | Some s => str_truthy s && match JSON_parse s with Some _ => false | None => true end
  | None => false
  end.

(** A read of [key] ends in its [catch] block: the provider fails or the
    text does not parse. *)
Definition read_fails (key : string) (w : World) : bool :=
  fails_next w || unparseable key w.

Definition logged (b : bool) (msg : string) : list string :=
  if b then [msg] else [].

(** The device after some storage calls and some lines on the console. *)
Definition after (w : World) (st : gmap string string) (cs : list Call)
    (logs : list string) : World :=
  mkWorld st (clock w) (host w) (faulty w) (calls w ++ cs) (console w ++ logs) (alerts w).

(** The device after one more alert. *)
Definition alerted (w : World) (title msg : string) : World :=
  mkWorld (storage w) (clock w) (host w) (faulty w) (calls w) (console w)
    (alerts w ++ [(title, msg)]).

(** The device [w] when its clock reads [now]; nothing else has changed. *)
Definition later (w : World) (now : Z) : World :=
  mkWorld (storage w) now (host w) (faulty w) (calls w) (console w) (alerts w).

(** The two filters can run over [v]: it is an array, and they can read a
    date off each of its elements. *)
Definition filterable (v : value) : bool :=
  match v with
  | VArr l => forallb readable l
  | _ => false
  end.

(** The numbers of [v] are within the range of binary64.  [JSON.parse]
    reads a numeral of magnitude 2^1024 - 2^970 or more as an infinity,
    which [JSON.stringify] writes as [null]. *)
Definition number_in_range (n : number) : bool :=
  match n with
  | Int z => (Z.abs z <? 2 ^ 1024 - 2 ^ 970)%Z
  | Dec m k => (Z.abs m <? (2 ^ 1024 - 2 ^ 970) * 10 ^ Z.pos k)%Z
  | _ => true
  end.

Fixpoint in_range (v : value) : bool :=
  match v with
  | VNum n => number_in_range n
  | VArr l =>
      (fix all (l : list value) : bool :=
         match l with
         | [] => true
         | x :: xs => in_range x && all xs
         end) l
  | VObj l =>
      (fix all (l : list (string * value)) : bool :=
         match l with
         | [] => true
         | kv :: xs => in_range (snd kv) && all xs
         end) l
  | _ => true
  end.

(** The storage calls [cs] are reads of [key] and writes to [key] of texts
    that are [good]. *)
Definition only_on (key : string) (good : string -> Prop) (cs : list Call) : Prop :=
  Forall (fun c =>
            match c with
            | GetItem k => k = key
            | SetItem k text => k = key /\ good text
            | MultiRemove _ => False
            end) cs.

(** Workouts whose numeric fields are all finite. *)
Definition detail_finite (o : option number) : Prop :=
  match o with
  | Some n => finite n
  | None => True
  end.

Definition exercise_finite (x : Exercise) : Prop :=
  detail_finite (sets x) /\ detail_finite (reps x) /\ detail_finite (weight x)
  /\ detail_finite (ex_duration x) /\ detail_finite (distance x).

Definition workout_finite (e : ExerciseEntry) : Prop :=
  Forall exercise_finite (exercises e) /\ finite (duration e) /\ finite (caloriesBurned e).

(** A device that holds one meal and whose provider fails the first call
    made to it, and no other. *)
Definition flaky_device : World :=
  mkWorld {[ DIET_KEY := JSON_stringify (VArr [DietEntry_value breakfast]) ]}
    sunday_evening (fixed_zone 0) (fun n => (n =? 0)%nat) [] [] [].

(** A device that holds one meal and whose provider fails the second call
    made to it, and no other. *)
Definition full_device : World :=
  mkWorld {[ DIET_KEY := JSON_stringify (VArr [DietEntry_value breakfast]) ]}
    sunday_evening (fixed_zone 0) (fun n => (n =? 1)%nat) [] [] [].

(** A device whose exercise list holds a [null] before a workout of
    today. *)
Definition holed_device : World :=
  device_with (fixed_zone 0) sunday_evening
    {[ EXERCISE_KEY := JSON_stringify (VArr [VNull; ExerciseEntry_value workout]) ]}.

(** *** The views *)

(** A zone whose offset from UTC never changes. *)
Definition constant_offset (h : Host) (off : Z) : Prop :=
  forall t b, LocalTZA h t b = off.

(** The type of the entry is one of the four of [EXERCISE_TYPES]. *)
Definition known_type (e : value) : bool :=
  existsb (fun t => typed_as (et_id t) e) EXERCISE_TYPES.

(** The weekly counts with one more entry of type [t]; no count moves when
    [t] is not one of the four. *)
Definition bump (t : string) (p : WeeklyProgress) : WeeklyProgress :=
  {| strength := strength p + (if String.eqb t "strength" then 1 else 0);
     cardio := cardio p + (if String.eqb t "cardio" then 1 else 0);
     walking := walking p + (if String.eqb t "walking" then 1 else 0);
     flexibility := flexibility p + (if String.eqb t "flexibility" then 1 else 0) |}.

(** *** The save actions *)

(** The entries the two save actions build when the clock reads [now]. *)
Definition meal_entry (st : MealScreen) (now : Z) : DietEntry :=
  let totals := calculateTotals st in
  {| id := Number_toString (Int now);
     date := toISOString now;
     mealType := selectedMealType st;
     foods := foodItems st;
     totalCalories := t_calories totals;
     totalProtein := t_protein totals;
     totalCarbs := t_carbs totals;
     totalFat := t_fat totals |}.

Definition workout_entry (st : WorkoutScreen) (now : Z) : ExerciseEntry :=
  let duration := parseInt (workoutDuration st) in
  {| ex_id := Number_toString (Int now);
     ex_date := toISOString now;
     type := selectedType st;
     exercises := ws_exercises st;
     duration := duration;
     caloriesBurned := Math_round (num_mul duration (Int 5)) |}.

(** The duration check of the workout save passes. *)
Definition valid_duration (st : WorkoutScreen) : bool :=
  negb (is_NaN (parseInt (workoutDuration st)) || num_le (parseInt (workoutDuration st)) (Int 0)).

(** *** The forms *)

(** A whole number small enough to be exact in binary64. *)
Definition safe (n : number) : Prop :=
  exists z, n = Int z /\ (Z.abs z < 2 ^ 53)%Z.

Definition food_safe (f : FoodItem) : Prop :=
  safe (calories f) /\ safe (protein f) /\ safe (carbs f) /\ safe (fat f).

(** The values of [field] over the list are whole numbers whose magnitudes
    add up to less than 2^53: adding them up is exact in binary64, over the
    list and over any part of it. *)
Definition sum_safe (field : FoodItem -> number) (l : list FoodItem) : Prop :=
  exists zs, map field l = map Int zs
             /\ (fold_right (fun z acc => Z.abs z + acc) 0 zs < 2 ^ 53)%Z.

Definition totals_safe (l : list FoodItem) : Prop :=
  sum_safe calories l /\ sum_safe protein l /\ sum_safe carbs l /\ sum_safe fat l.

(** The numeric texts of an event are at most fourteen characters long. *)
Definition short_meal_event (ev : MealEvent) : Prop :=
  match ev with
  | ChangeCalories text | ChangeProtein text | ChangeCarbs text | ChangeFat text =>
      String.length text <= 14
  | _ => True
  end.

(** What holds of the meal form at any time: the meal type is one of the
    four, every item of the list has a name that is not blank and holds
    safe whole numbers, and so does the item being typed. *)
Definition meal_form_ok (st : MealScreen) : Prop :=
  In (selectedMealType st) (map mt_id MEAL_TYPES)
  /\ Forall (fun f => trim (name f) <> "" /\ food_safe f) (foodItems st)
  /\ food_safe (currentFood st).

(** What holds of a meal the form saves. *)
Definition meal_ok (e : DietEntry) : Prop :=
  In (mealType e) (map mt_id MEAL_TYPES)
  /\ foods e <> []
  /\ Forall (fun f => trim (name f) <> "" /\ food_safe f) (foods e)
  /\ totals_add_up e
  /\ diet_finite e.

(** The text of a list that ends with a meal of the form, and reads back
    as that list. *)
Definition meal_text (text : string) : Prop :=
  exists l e,
    text = JSON_stringify (VArr (l ++ [DietEntry_value e]))
    /\ JSON_parse text = Some (VArr (l ++ [DietEntry_value e]))
    /\ meal_ok e.

(** A visit to the meal screen: a meal type, an item typed in, an attempt
    with a blank name, a second item, the first one removed again, and the
    save. *)
Definition meal_visit : list MealEvent :=
  [ PressMealType 2;
    ChangeFoodName "egg"; ChangeCalories "70"; ChangeProtein "6"; ChangeCarbs "1";
    ChangeFat "5"; PressAddFood;
    ChangeFoodName "  "; PressAddFood;
    ChangeFoodName "toast"; ChangeCalories "120 kcal"; ChangeProtein "4";
    ChangeCarbs "22"; ChangeFat "two"; PressAddFood;
    PressRemoveFood 0; PressSaveMeal ].

(** An optional numeric field of an exercise is absent, or a safe whole
    number other than zero. *)
Definition detail_ok (o : option number) : Prop :=
  match o with
  | Some n => safe n /\ n <> Int 0
  | None => True
  end.

Definition exercise_ok (x : Exercise) : Prop :=
  detail_ok (sets x) /\ detail_ok (reps x) /\ detail_ok (weight x)
  /\ detail_ok (ex_duration x) /\ detail_ok (distance x).

Definition short_workout_event (ev : WorkoutEvent) : Prop :=
  match ev with
  | ChangeDetail _ text | ChangeWorkoutDuration text => String.length text <= 14
  | _ => True
  end.

(** What holds of the workout form at any time: the type is one of the
    four, every exercise of the list has a name that is not blank and
    numeric fields that are absent or safe whole numbers other than zero,
    and so has the exercise being typed; the duration text is short. *)
Definition workout_form_ok (st : WorkoutScreen) : Prop :=
  In (selectedType st) (map et_id EXERCISE_TYPES)
  /\ Forall (fun x => trim (ex_name x) <> "" /\ exercise_ok x) (ws_exercises st)
  /\ exercise_ok (currentExercise st)
  /\ String.length (workoutDuration st) <= 14.

(** What holds of a workout the form saves. *)
Definition workout_ok (e : ExerciseEntry) : Prop :=
  In (type e) (map et_id EXERCISE_TYPES)
  /\ exercises e <> []
  /\ Forall (fun x => trim (ex_name x) <> "" /\ exercise_ok x) (exercises e)
  /\ (exists d, duration e = Int d /\ (0 < d /\ d * 5 < 2 ^ 53)%Z
                 /\ caloriesBurned e = Int (d * 5))
  /\ workout_finite e.

Definition workout_text (text : string) : Prop :=
  exists l e,
    text = JSON_stringify (VArr (l ++ [ExerciseEntry_value e]))
    /\ JSON_parse text = Some (VArr (l ++ [ExerciseEntry_value e]))
    /\ workout_ok e.

(** A visit to the workout screen: a type, a common exercise picked and
    detailed, a detail of another type typed in between, a second exercise
    added and removed, and the save after a first attempt without a
    duration. *)
Definition workout_visit : list WorkoutEvent :=
  [ PressExerciseType 1; PressCommonExercise 0;
    ChangeDetail DurationInput "25"; ChangeDetail SetsInput "3";
    ChangeDetail DistanceInput "0"; PressAddExercise;
    ChangeExerciseName "Rowing"; PressAddExercise; PressRemoveExercise 1;
    PressSaveWorkout;
    ChangeWorkoutDuration "40 min"; PressSaveWorkout ].

(** * Properties *)

(** ** Characters and numerals *)

Lemma code_range (c : ascii) : (0 <= code c < 256)%Z.
Proof.
  unfold code. pose proof (N_ascii_bounded c). lia.
Qed.

Lemma code_chr (n : Z) : (0 <= n < 256)%Z -> code (chr n) = n.
Proof.
  intros Hn. unfold code, chr. rewrite N_ascii_embedding by lia. lia.
Qed.

Lemma chr_code (c : ascii) : chr (code c) = c.
Proof.
  unfold code, chr. rewrite N2Z.id. apply ascii_N_embedding.
Qed.

Lemma code_inj (c d : ascii) : code c = code d -> c = d.
Proof.
  intros H. rewrite <- (chr_code c), <- (chr_code d). now rewrite H.
Qed.

Lemma is_digit_digit_char (d : Z) : (0 <= d < 10)%Z -> is_digit (digit_char d) = true.
Proof.
  intros Hd. unfold is_digit, digit_char. rewrite code_chr by lia.
  apply andb_true_intro. split; apply Z.leb_le; lia.
Qed.

Lemma digit_val_digit_char (d : Z) : (0 <= d < 10)%Z -> digit_val (digit_char d) = d.
Proof.
  intros Hd. unfold digit_val, digit_char. rewrite code_chr by lia. lia.
Qed.

Lemma read_digits_stop (k : string) (acc : Z) (cnt : nat) :
  no_digit_ahead k -> read_digits k acc cnt = (acc, cnt, k).
Proof.
  destruct k as [|c r]; simpl; [reflexivity|]. intros ->. reflexivity.
Qed.

Lemma pow2_step (fuel : nat) :
  (2 ^ (Z.of_nat (S fuel) + 1) = 2 * 2 ^ (Z.of_nat fuel + 1))%Z.
Proof.
  replace (Z.of_nat (S fuel) + 1)%Z with (Z.succ (Z.of_nat fuel + 1)) by lia.
  apply Z.pow_succ_r. lia.
Qed.

Lemma pow10_step (w : nat) : (10 ^ Z.of_nat (S w) = 10 * 10 ^ Z.of_nat w)%Z.
Proof.
  replace (Z.of_nat (S w)) with (Z.succ (Z.of_nat w)) by lia.
  apply Z.pow_succ_r. lia.
Qed.

Lemma pow10_pos (w : nat) : (0 < 10 ^ Z.of_nat w)%Z.
Proof. apply Z.pow_pos_nonneg; lia. Qed.

Lemma mod_pow10_step (n : Z) (w : nat) :
  (n mod 10 ^ Z.of_nat (S w) = (n / 10) mod 10 ^ Z.of_nat w * 10 + n mod 10)%Z.
Proof.
  rewrite pow10_step. pose proof (pow10_pos w).
  rewrite (Z.rem_mul_r n 10 (10 ^ Z.of_nat w)) by lia. lia.
Qed.

Lemma read_digits_loop (fuel : nat) :
  forall n, (0 <= n < 2 ^ (Z.of_nat fuel + 1))%Z ->
  exists d, forall k cnt,
    read_digits (digits_loop fuel n k) 0 cnt = read_digits k n (cnt + d).
Proof.
  induction fuel as [|fuel IH]; intros n Hn.
  - exists 1%nat. intros k cnt. simpl in *.
    assert (n mod 10 = n)%Z as -> by (apply Z.mod_small; lia).
    rewrite is_digit_digit_char, digit_val_digit_char by lia.
    f_equal; lia.
  - simpl. destruct (n <? 10)%Z eqn:E.
    + apply Z.ltb_lt in E. exists 1%nat. intros k cnt. simpl.
      assert (n mod 10 = n)%Z as -> by (apply Z.mod_small; lia).
      rewrite is_digit_digit_char, digit_val_digit_char by lia.
      f_equal; lia.
    + apply Z.ltb_ge in E.
      destruct (IH (n / 10)%Z) as [d Hd].
      { split; [apply Z.div_pos; lia|].
        apply Z.div_lt_upper_bound; [lia|].
        rewrite pow2_step in Hn. lia. }
      exists (S d). intros k cnt. rewrite Hd. simpl.
      pose proof (Z.mod_pos_bound n 10 ltac:(lia)).
      rewrite is_digit_digit_char, digit_val_digit_char by lia.
      f_equal; [|lia]. pose proof (Z.div_mod n 10 ltac:(lia)). lia.
Qed.

Lemma log2_fuel (n : Z) : (0 <= n)%Z -> (n < 2 ^ (Z.of_nat (Z.to_nat (Z.log2 n)) + 1))%Z.
Proof.
  intros Hn. rewrite Z2Nat.id by apply Z.log2_nonneg.
  destruct (Z.eq_dec n 0%Z) as [->|Hne]; [reflexivity|].
  pose proof (Z.log2_spec n ltac:(lia)) as [_ H].
  replace (Z.log2 n + 1)%Z with (Z.succ (Z.log2 n)) by lia. exact H.
Qed.

Lemma read_digits_digits (n : Z) :
  (0 <= n)%Z ->
  exists d, forall k cnt, read_digits (digits n k) 0 cnt = read_digits k n (cnt + d).
Proof.
  intros Hn. apply read_digits_loop. split; [lia|]. now apply log2_fuel.
Qed.

Lemma digits_loop_head (fuel : nat) :
  forall n k, (1 <= n < 2 ^ (Z.of_nat fuel + 1))%Z ->
  exists c r, digits_loop fuel n k = String c r /\ is_digit c = true /\ code c <> 48%Z.
Proof.
  induction fuel as [|fuel IH]; intros n k Hn.
  - simpl in *. exists (digit_char (n mod 10)), k.
    assert (n = 1)%Z as -> by lia.
    split; [reflexivity|]. split; [reflexivity|]. now vm_compute.
  - simpl. destruct (n <? 10)%Z eqn:E.
    + apply Z.ltb_lt in E. exists (digit_char (n mod 10)), k.
      assert (n mod 10 = n)%Z as -> by (apply Z.mod_small; lia).
      split; [reflexivity|]. split; [apply is_digit_digit_char; lia|].
      unfold digit_char. rewrite code_chr; lia.
    + apply Z.ltb_ge in E. apply IH. split.
      * apply Z.div_le_lower_bound; lia.
      * apply Z.div_lt_upper_bound; [lia|].
        rewrite pow2_step in Hn. lia.
Qed.

Lemma digits_head (n : Z) (k : string) :
  (1 <= n)%Z ->
  exists c r, digits n k = String c r /\ is_digit c = true /\ code c <> 48%Z.
Proof.
  intros Hn. apply digits_loop_head. split; [lia|]. apply log2_fuel; lia.
Qed.

Lemma digits_zero (k : string) : digits 0 k = String "0" k.
Proof. reflexivity. Qed.

Lemma read_digits_pad (w : nat) :
  forall n k acc cnt,
    read_digits (pad_digits w n k) acc cnt
    = read_digits k (acc * 10 ^ Z.of_nat w + n mod 10 ^ Z.of_nat w)%Z (cnt + w).
Proof.
  induction w as [|w IH]; intros n k acc cnt.
  - simpl. rewrite Z.mod_1_r. f_equal; lia.
  - cbn [pad_digits]. rewrite IH. cbn [read_digits].
    pose proof (Z.mod_pos_bound n 10 ltac:(lia)).
    rewrite is_digit_digit_char, digit_val_digit_char by lia.
    rewrite mod_pow10_step, pow10_step. f_equal; lia.
Qed.

Lemma take_digits_pad_more (w : nat) :
  forall w' n k acc,
    take_digits (w + w') (pad_digits w n k) acc
    = take_digits w' k (acc * 10 ^ Z.of_nat w + n mod 10 ^ Z.of_nat w)%Z.
Proof.
  induction w as [|w IH]; intros w' n k acc.
  - simpl. rewrite Z.mod_1_r. f_equal. lia.
  - cbn [pad_digits]. replace (S w + w')%nat with (w + S w')%nat by lia.
    rewrite IH. cbn [take_digits].
    pose proof (Z.mod_pos_bound n 10 ltac:(lia)).
    rewrite is_digit_digit_char, digit_val_digit_char by lia.
    rewrite mod_pow10_step, pow10_step. f_equal; lia.
Qed.

Lemma take_digits_pad (w : nat) (n : Z) (k : string) (acc : Z) :
  take_digits w (pad_digits w n k) acc
  = Some ((acc * 10 ^ Z.of_nat w + n mod 10 ^ Z.of_nat w)%Z, k).
Proof.
  replace w with (w + 0)%nat at 1 by lia. now rewrite take_digits_pad_more.
Qed.

(** ** JSON: what is written is read back *)

(** Evaluates the character tests on literal characters. *)
Ltac eval_chars :=
  repeat match goal with
  | |- context [code (Ascii ?a ?b ?c ?d ?e ?f ?g ?h)] =>
      let v := eval vm_compute in (code (Ascii a b c d e f g h)) in
      change (code (Ascii a b c d e f g h)) with v
  | |- context [is_digit (Ascii ?a ?b ?c ?d ?e ?f ?g ?h)] =>
      let v := eval vm_compute in (is_digit (Ascii a b c d e f g h)) in
      change (is_digit (Ascii a b c d e f g h)) with v
  | |- context [is_json_ws (Ascii ?a ?b ?c ?d ?e ?f ?g ?h)] =>
      let v := eval vm_compute in (is_json_ws (Ascii a b c d e f g h)) in
      change (is_json_ws (Ascii a b c d e f g h)) with v
  | |- context [Z.eqb (Zpos ?p) (Zpos ?q)] =>
      let v := eval vm_compute in (Z.eqb (Zpos p) (Zpos q)) in
      change (Z.eqb (Zpos p) (Zpos q)) with v
  | |- context [Z.ltb (Zpos ?p) (Zpos ?q)] =>
      let v := eval vm_compute in (Z.ltb (Zpos p) (Zpos q)) in
      change (Z.ltb (Zpos p) (Zpos q)) with v
  end.

Lemma is_digit_spec (c : ascii) : is_digit c = true <-> (48 <= code c <= 57)%Z.
Proof.
  unfold is_digit. rewrite andb_true_iff, !Z.leb_le. tauto.
Qed.

Lemma is_digit_false (c : ascii) : (code c < 48 \/ 57 < code c)%Z -> is_digit c = false.
Proof.
  intros H. destruct (is_digit c) eqn:E; [|reflexivity].
  apply is_digit_spec in E. lia.
Qed.

Lemma follows_no_digit (k : string) : follows_value k -> no_digit_ahead k.
Proof.
  destruct k as [|c r]; simpl; [trivial|]. intros H. apply is_digit_false. lia.
Qed.

Lemma lex_fraction_none (ip : Z) (k : string) :
  follows_value k -> lex_fraction ip k = Some (ip, O, k).
Proof.
  destruct k as [|c r]; simpl; [reflexivity|]. intros H.
  destruct (code c =? 46)%Z eqn:E; [apply Z.eqb_eq in E; lia | reflexivity].
Qed.

Lemma lex_exponent_none (k : string) :
  follows_value k -> lex_exponent k = Some (0%Z, k).
Proof.
  destruct k as [|c r]; simpl; [reflexivity|]. intros H.
  destruct (code c =? 101)%Z eqn:E1; [apply Z.eqb_eq in E1; lia|].
  destruct (code c =? 69)%Z eqn:E2; [apply Z.eqb_eq in E2; lia|]. reflexivity.
Qed.

(** The integer part of a literal, whatever follows it. *)
Lemma lex_number_digits (neg : bool) (n : Z) (rest : string) :
  (0 <= n)%Z -> no_digit_ahead rest ->
  lex_number (if neg then String "-" (digits n rest) else digits n rest)
  = match lex_fraction n rest with
    | Some (m, fc, s3) =>
        match lex_exponent s3 with
        | Some (e, s4) => Some (make_number (if neg then - m else m) (e - Z.of_nat fc), s4)
        | None => None
        end
    | None => None
    end.
Proof.
  intros Hn Hk.
  destruct (Z.eq_dec n 0%Z) as [->|Hne].
  - rewrite !digits_zero.
    destruct neg; unfold lex_number; eval_chars; cbv iota beta; eval_chars; cbv iota beta;
      reflexivity.
  - destruct (digits_head n rest ltac:(lia)) as (c & r & Heq & Hd & Hnz).
    destruct (read_digits_digits n Hn) as [d Hread].
    pose proof (proj1 (is_digit_spec c) Hd) as Hc.
    destruct neg.
    + unfold lex_number. eval_chars. cbv iota beta.
      rewrite Heq, Hd.
      destruct (code c =? 48)%Z eqn:E2; [apply Z.eqb_eq in E2; lia|].
      rewrite <- Heq, Hread, read_digits_stop by assumption. reflexivity.
    + unfold lex_number. rewrite Heq.
      destruct (code c =? 45)%Z eqn:E1; [apply Z.eqb_eq in E1; lia|].
      rewrite Hd. destruct (code c =? 48)%Z eqn:E2; [apply Z.eqb_eq in E2; lia|].
      rewrite <- Heq, Hread, read_digits_stop by assumption. reflexivity.
Qed.

Lemma make_number_int (z : Z) : make_number z 0 = Int z.
Proof.
  unfold make_number. destruct (z =? 0)%Z eqn:E.
  - apply Z.eqb_eq in E. now subst.
  - simpl. f_equal. lia.
Qed.

(** The whole numbers up to 2^53 in magnitude are held as they are. *)
Lemma round64_safe (z : Z) : (Z.abs z < 2 ^ 53)%Z -> round64 z = Int z.
Proof.
  intros Hz. unfold round64.
  assert (Z.log2 (Z.abs z) - 52 <= 0)%Z as H.
  { destruct (Z.eq_dec (Z.abs z) 0%Z) as [->|Hne]; [cbn; lia|].
    assert (Z.log2 (Z.abs z) < 53)%Z by (apply Z.log2_lt_pow2; lia). lia. }
  apply Z.leb_le in H. now rewrite H.
Qed.

Lemma round64_cases (z : Z) :
  (exists d, round64 z = Int d) \/ round64 z = Infinity \/ round64 z = NegInfinity.
Proof.
  unfold round64. destruct (Z.log2 (Z.abs z) - 52 <=? 0)%Z; [left; eauto|].
  cbv zeta. destruct (2 ^ 1024 <=? _)%Z; [|left; eauto].
  destruct (z <? 0)%Z; auto.
Qed.

Lemma lex_number_print_Z (z : Z) (k : string) :
  follows_value k -> lex_number (print_Z z k) = Some (Int z, k).
Proof.
  intros Hk. unfold print_Z.
  assert (forall (neg : bool) (n : Z), (0 <= n)%Z ->
            lex_number (if neg then String "-" (digits n k) else digits n k)
            = Some (Int (if neg then - n else n), k)) as H.
  { intros neg n Hn. rewrite lex_number_digits by (try apply follows_no_digit; assumption).
    rewrite lex_fraction_none, lex_exponent_none by assumption.
    now rewrite make_number_int. }
  destruct (z <? 0)%Z eqn:E.
  - apply Z.ltb_lt in E. rewrite (H true (- z)%Z) by lia.
    now replace (- - z)%Z with z by lia.
  - apply Z.ltb_ge in E. now rewrite (H false z).
Qed.

Lemma pad_digits_head (w : nat) :
  forall n k, exists c r, pad_digits (S w) n k = String c r /\ is_digit c = true.
Proof.
  induction w as [|w IH]; intros n k.
  - exists (digit_char (n mod 10)), k. split; [reflexivity|].
    apply is_digit_digit_char. apply Z.mod_pos_bound. lia.
  - change (pad_digits (S (S w)) n k)
      with (pad_digits (S w) (n / 10) (String (digit_char (n mod 10)) k)).
    apply IH.
Qed.

Lemma lex_number_print_Dec (m : Z) (p : positive) (k : string) :
  (m mod 10 <> 0)%Z -> follows_value k ->
  lex_number (print_Dec m p k) = Some (Dec m p, k).
Proof.
  intros Hm Hk. unfold print_Dec.
  set (a := Z.abs m). set (w := Pos.to_nat p).
  assert (Z.pos p = Z.of_nat w) as Hp by (subst w; lia).
  rewrite Hp. pose proof (pow10_pos w) as Hpow.
  assert (0 <= a)%Z as Ha by (subst a; lia).
  pose proof (Z.div_mod a (10 ^ Z.of_nat w) ltac:(lia)) as Hdm.
  pose proof (Z.mod_pos_bound a (10 ^ Z.of_nat w) ltac:(lia)) as Hmod.
  assert (0 <= a / 10 ^ Z.of_nat w)%Z as Hip by (apply Z.div_pos; lia).
  assert (forall neg : bool,
    lex_number (if neg
                then String "-" (digits (a / 10 ^ Z.of_nat w)
                       (String "." (pad_digits w (a mod 10 ^ Z.of_nat w) k)))
                else digits (a / 10 ^ Z.of_nat w)
                       (String "." (pad_digits w (a mod 10 ^ Z.of_nat w) k)))
    = Some (make_number (if neg then - a else a) (- Z.of_nat w), k)) as H.
  { intros neg. rewrite lex_number_digits; [|assumption|reflexivity].
    unfold lex_fraction. eval_chars. cbv iota beta.
    assert (exists w', w = S w') as [w' Hw'] by (exists (pred w); subst w; lia).
    destruct (pad_digits_head w' (a mod 10 ^ Z.of_nat w) k) as (c & r & Heq & Hd).
    rewrite <- Hw' in Heq. rewrite Heq, Hd, <- Heq.
    rewrite read_digits_pad, read_digits_stop by now apply follows_no_digit.
    rewrite lex_exponent_none by assumption.
    rewrite Z.mod_mod by lia.
    replace (a / 10 ^ Z.of_nat w * 10 ^ Z.of_nat w + a mod 10 ^ Z.of_nat w)%Z with a by lia.
    now replace (0 - Z.of_nat (0 + w))%Z with (- Z.of_nat w)%Z by lia. }
  assert (forall x, Z.abs x = Z.abs m -> (x mod 10 <> 0)%Z ->
                    make_number x (- Z.of_nat w) = Dec x p) as Hmk.
  { intros x _ Hx. unfold make_number.
    destruct (x =? 0)%Z eqn:E; [apply Z.eqb_eq in E; subst x; now rewrite Z.mod_0_l in Hx|].
    destruct (0 <=? - Z.of_nat w)%Z eqn:E2; [apply Z.leb_le in E2; subst w; lia|].
    replace (Z.to_nat (- - Z.of_nat w)) with w by lia.
    destruct w as [|w'] eqn:Hw; [subst w; lia|].
    cbn [strip_zeros]. destruct (x mod 10 =? 0)%Z eqn:E3; [apply Z.eqb_eq in E3; lia|].
    f_equal. rewrite <- Hw. subst w. apply Pos2Nat.id. }
  destruct (m <? 0)%Z eqn:E.
  - apply Z.ltb_lt in E. rewrite (H true).
    replace (- a)%Z with m by (subst a; lia). now rewrite Hmk.
  - apply Z.ltb_ge in E. rewrite (H false).
    replace a with m by (subst a; lia). now rewrite Hmk.
Qed.

Lemma lex_number_print (n : number) (k : string) :
  finite n -> follows_value k -> lex_number (print_json_number n k) = Some (n, k).
Proof.
  destruct n; simpl; intros Hn Hk; try contradiction.
  - now apply lex_number_print_Z.
  - now apply lex_number_print_Dec.
Qed.

Lemma hex_val_hex_char (d : Z) : (0 <= d < 16)%Z -> hex_val (hex_char d) = Some d.
Proof.
  intros Hd.
  assert (d = 0 \/ d = 1 \/ d = 2 \/ d = 3 \/ d = 4 \/ d = 5 \/ d = 6 \/ d = 7 \/ d = 8
          \/ d = 9 \/ d = 10 \/ d = 11 \/ d = 12 \/ d = 13 \/ d = 14 \/ d = 15)%Z as H by lia.
  repeat (destruct H as [->|H]; [reflexivity|]). subst d. reflexivity.
Qed.

Lemma lex_string_char (c : ascii) (r : string) :
  lex_string (escape_char c r)
  = match lex_string r with
    | Some (t, q) => Some (String c t, q)
    | None => None
    end.
Proof.
  unfold escape_char.
  pose proof (code_range c) as Hc.
  repeat match goal with
  | |- context [(code c =? ?n)%Z] =>
      let E := fresh "E" in
      destruct (code c =? n)%Z eqn:E;
      [apply Z.eqb_eq in E;
       rewrite <- (chr_code c), E;
       cbn [lex_string]; eval_chars; cbv iota beta;
       unfold unescape; eval_chars; cbv iota beta;
       destruct (lex_string r) as [[t q]|]; reflexivity
      |apply Z.eqb_neq in E]
  end.
  destruct (code c <? 32)%Z eqn:Elt.
  - apply Z.ltb_lt in Elt.
    cbn [lex_string]. eval_chars. cbv iota beta.
    unfold hex4. change (hex_val "0") with (Some 0%Z).
    rewrite !hex_val_hex_char
      by (split; [apply Z.div_pos || apply Z.mod_pos_bound
                 | apply Z.div_lt_upper_bound || apply Z.mod_pos_bound]; lia).
    destruct (lex_string r) as [[t q]|]; [|reflexivity].
    unfold utf8.
    replace (((0 * 16 + 0) * 16 + code c / 16) * 16 + code c mod 16)%Z with (code c)
      by (pose proof (Z.div_mod (code c) 16 ltac:(lia)); lia).
    destruct (code c <? 128)%Z eqn:F; [|apply Z.ltb_ge in F; lia].
    now rewrite chr_code.
  - apply Z.ltb_ge in Elt. cbn [lex_string].
    repeat match goal with
    | |- context [(code c =? ?n)%Z] =>
        let F := fresh "F" in
        destruct (code c =? n)%Z eqn:F; [apply Z.eqb_eq in F; lia|]
    end.
    destruct (code c <? 32)%Z eqn:G; [apply Z.ltb_lt in G; lia|].
    reflexivity.
Qed.

Lemma lex_string_escape (s k : string) :
  lex_string (escape s (String dquote k)) = Some (s, k).
Proof.
  induction s as [|c s IH]; cbn [escape].
  - reflexivity.
  - now rewrite lex_string_char, IH.
Qed.

(** More fuel does not change a result that was reached. *)
Lemma parse_mono (fuel : nat) :
  (forall s fuel', parse_value fuel s <> NoFuel -> fuel <= fuel' ->
     parse_value fuel' s = parse_value fuel s)
  /\ (forall s fuel', parse_elements fuel s <> NoFuel -> fuel <= fuel' ->
        parse_elements fuel' s = parse_elements fuel s)
  /\ (forall s fuel', parse_members fuel s <> NoFuel -> fuel <= fuel' ->
        parse_members fuel' s = parse_members fuel s).
Proof.
  induction fuel as [|fuel (IHv & IHe & IHm)].
  { repeat split; intros s fuel' H; now destruct H. }
  repeat split; intros s [|fuel'] H Hle; try lia; cbn [parse_value parse_elements parse_members] in *.
  - destruct (skip_ws s) as [|c r]; [reflexivity|].
    destruct (code c =? 91)%Z.
    { destruct (skip_ws r) as [|c' r']; [reflexivity|].
      destruct (code c' =? 93)%Z; [reflexivity|].
      rewrite (IHe r fuel'); [reflexivity| |lia].
      intros E. rewrite E in H. now apply H. }
    destruct (code c =? 123)%Z.
    { destruct (skip_ws r) as [|c' r']; [reflexivity|].
      destruct (code c' =? 125)%Z; [reflexivity|].
      rewrite (IHm r fuel'); [reflexivity| |lia].
      intros E. rewrite E in H. now apply H. }
    reflexivity.
  - assert (parse_value fuel s <> NoFuel) as Hv
      by (intros E; rewrite E in H; now apply H).
    rewrite (IHv s fuel' Hv) by lia.
    destruct (parse_value fuel s) as [v r| |]; try reflexivity.
    destruct (skip_ws r) as [|c r']; [reflexivity|].
    destruct (code c =? 44)%Z; [|reflexivity].
    rewrite (IHe r' fuel'); [reflexivity| |lia].
    intros E. rewrite E in H. now apply H.
  - destruct (skip_ws s) as [|c r]; [reflexivity|].
    destruct (code c =? 34)%Z; [|reflexivity].
    destruct (lex_string r) as [[key r1]|]; [|reflexivity].
    destruct (skip_ws r1) as [|c1 r2]; [reflexivity|].
    destruct (code c1 =? 58)%Z; [|reflexivity].
    assert (parse_value fuel r2 <> NoFuel) as Hv
      by (intros E; rewrite E in H; now apply H).
    rewrite (IHv r2 fuel' Hv) by lia.
    destruct (parse_value fuel r2) as [v r3| |]; try reflexivity.
    destruct (skip_ws r3) as [|c3 r4]; [reflexivity|].
    destruct (code c3 =? 44)%Z; [|reflexivity].
    rewrite (IHm r4 fuel'); [reflexivity| |lia].
    intros E. rewrite E in H. now apply H.
Qed.

Lemma parse_value_mono (fuel fuel' : nat) (s : string) (v : value) (r : string) :
  parse_value fuel s = Parsed v r -> fuel <= fuel' -> parse_value fuel' s = Parsed v r.
Proof.
  intros H Hle. rewrite <- H. apply parse_mono; [|assumption]. now rewrite H.
Qed.

Lemma faithful_arr (l : list value) : faithful (VArr l) <-> Forall faithful l.
Proof.
  induction l as [|x xs IH]; [simpl; split; [constructor | trivial]|].
  rewrite Forall_cons. rewrite <- IH. reflexivity.
Qed.

Lemma faithful_obj (l : list (string * value)) :
  faithful (VObj l) <-> NoDup (map fst l) /\ Forall (fun kv => faithful (snd kv)) l.
Proof.
  change (faithful (VObj l)) with
    (NoDup (map fst l) /\
     (fix all (l : list (string * value)) : Prop :=
        match l with
        | [] => True
        | kv :: xs => faithful (snd kv) /\ all xs
        end) l).
  apply and_iff_compat_l.
  induction l as [|x xs IH]; [split; [constructor | trivial]|].
  rewrite Forall_cons. rewrite <- IH. reflexivity.
Qed.

Lemma print_arr_cons (x : value) (xs : list value) (k : string) :
  print (VArr (x :: xs)) k = String "[" (print x (print_elements xs k)).
Proof.
  cbn [print]. do 2 f_equal.
  induction xs as [|y ys IH]; [reflexivity|]. cbn [print_elements]. now rewrite <- IH.
Qed.

Lemma print_obj_cons (key : string) (x : value) (xs : list (string * value)) (k : string) :
  print (VObj ((key, x) :: xs)) k
  = String "{" (print_string key (String ":" (print x (print_members xs k)))).
Proof.
  cbn [print]. do 4 f_equal.
  induction xs as [|[key' y] ys IH]; [reflexivity|]. cbn [print_members]. now rewrite <- IH.
Qed.

Lemma skip_ws_head (c : ascii) (r : string) :
  is_json_ws c = false -> skip_ws (String c r) = String c r.
Proof. intros H. cbn [skip_ws]. now rewrite H. Qed.

Lemma number_head (n : number) (k : string) :
  finite n ->
  exists c r, print_json_number n k = String c r /\ (is_digit c = true \/ code c = 45%Z).
Proof.
  assert (forall z rest, (0 <= z)%Z ->
            exists c r, digits z rest = String c r /\ is_digit c = true) as Hd.
  { intros z rest Hz. destruct (Z.eq_dec z 0%Z) as [->|Hne].
    - exists "0"%char, rest. split; reflexivity.
    - destruct (digits_head z rest ltac:(lia)) as (c & r & H1 & H2 & _). eauto. }
  destruct n as [z|m p| | |]; simpl; intros Hn; try contradiction.
  - unfold print_Z. destruct (z <? 0)%Z eqn:E.
    + eexists _, _. split; [reflexivity|]. now right.
    + apply Z.ltb_ge in E. destruct (Hd z k E) as (c & r & H1 & H2). eauto.
  - unfold print_Dec. destruct (m <? 0)%Z.
    + eexists _, _. split; [reflexivity|]. now right.
    + edestruct Hd as (c & r & H1 & H2); [|rewrite H1; eauto].
      apply Z.div_pos; [lia|]. apply Z.pow_pos_nonneg; lia.
Qed.

(** The first character of the text of a value. *)
Lemma print_head (v : value) (k : string) :
  faithful v ->
  exists c r, print v k = String c r /\ is_json_ws c = false
              /\ code c <> 93%Z /\ code c <> 125%Z.
Proof.
  intros Hv.
  destruct v as [|[|]|n|s|[|x xs]|[|[key x] xs]];
    try (eexists _, _; split; [reflexivity|]; split; [reflexivity|]; split; now vm_compute).
  destruct (number_head n k Hv) as (c & r & H1 & H2).
  exists c, r. split; [exact H1|].
  assert (48 <= code c <= 57 \/ code c = 45)%Z as Hc
    by (destruct H2 as [H2|H2]; [apply is_digit_spec in H2|]; lia).
  unfold is_json_ws.
  repeat match goal with
  | |- context [(code c =? ?n)%Z] =>
      let F := fresh "F" in
      destruct (code c =? n)%Z eqn:F; [apply Z.eqb_eq in F; lia|]
  end.
  repeat split; lia.
Qed.

Lemma follows_elements (xs : list value) (k : string) : follows_value (print_elements xs k).
Proof. destruct xs; simpl; auto. Qed.

Lemma follows_members (xs : list (string * value)) (k : string) :
  follows_value (print_members xs k).
Proof. destruct xs as [|[key y] ys]; simpl; auto. Qed.

Lemma elements_read_back (xs : list value) :
  Forall faithful xs -> Forall (fun v => faithful v -> reads_back v) xs ->
  forall x, faithful x -> reads_back x ->
  exists f0, forall fuel k, f0 <= fuel ->
    parse_elements fuel (print x (print_elements xs k)) = Parsed (x :: xs) k.
Proof.
  induction xs as [|y ys IH]; intros Hf Hall x Hx [fx Hrx].
  - exists (S fx). intros [|fuel] k Hle; [lia|]. cbn [parse_elements].
    rewrite Hrx by (lia || apply follows_elements).
    cbn [print_elements]. rewrite skip_ws_head by reflexivity.
    eval_chars. reflexivity.
  - apply Forall_cons in Hf as [Hy Hys]. apply Forall_cons in Hall as [Hry Hrys].
    destruct (IH Hys Hrys y Hy (Hry Hy)) as [f1 H1].
    exists (S (max fx f1)). intros [|fuel] k Hle; [lia|]. cbn [parse_elements].
    rewrite Hrx by (lia || apply follows_elements).
    cbn [print_elements]. rewrite skip_ws_head by reflexivity.
    eval_chars. cbv iota beta. rewrite H1 by lia. reflexivity.
Qed.

Lemma members_read_back (xs : list (string * value)) :
  Forall (fun kv => faithful (snd kv)) xs ->
  Forall (fun kv => faithful (snd kv) -> reads_back (snd kv)) xs ->
  forall key x, faithful x -> reads_back x ->
  exists f0, forall fuel k, f0 <= fuel ->
    parse_members fuel (print_string key (String ":" (print x (print_members xs k))))
    = Parsed ((key, x) :: xs) k.
Proof.
  induction xs as [|[key' y] ys IH]; intros Hf Hall key x Hx [fx Hrx].
  - exists (S fx). intros [|fuel] k Hle; [lia|]. cbn [parse_members].
    unfold print_string. rewrite skip_ws_head by reflexivity. eval_chars. cbv iota beta.
    rewrite lex_string_escape. rewrite skip_ws_head by reflexivity. eval_chars. cbv iota beta.
    rewrite Hrx by (lia || apply follows_members).
    cbn [print_members]. rewrite skip_ws_head by reflexivity.
    eval_chars. reflexivity.
  - apply Forall_cons in Hf as [Hy Hys]. apply Forall_cons in Hall as [Hry Hrys].
    destruct (IH Hys Hrys key' y Hy (Hry Hy)) as [f1 H1].
    exists (S (max fx f1)). intros [|fuel] k Hle; [lia|]. cbn [parse_members].
    unfold print_string at 1. rewrite skip_ws_head by reflexivity. eval_chars. cbv iota beta.
    rewrite lex_string_escape. rewrite skip_ws_head by reflexivity. eval_chars. cbv iota beta.
    rewrite Hrx by (lia || apply follows_members).
    cbn [print_members]. rewrite skip_ws_head by reflexivity.
    eval_chars. cbv iota beta. rewrite H1 by lia. reflexivity.
Qed.

Lemma obj_set_fresh (l : list (string * value)) (key : string) (v : value) :
  key ∉ map fst l -> obj_set l key v = l ++ [(key, v)].
Proof.
  induction l as [|[k' v'] r IH]; intros Hk; [reflexivity|].
  cbn [obj_set]. destruct (String.eqb k' key) eqn:E.
  - apply String.eqb_eq in E. exfalso. apply Hk. subst. simpl. left.
  - cbn [app]. f_equal. apply IH. intros Hin. apply Hk. simpl. now right.
Qed.

Lemma obj_of_members_nodup (l : list (string * value)) :
  NoDup (map fst l) -> obj_of_members l = l.
Proof.
  unfold obj_of_members.
  assert (forall acc, NoDup (map fst (acc ++ l)) ->
            fold_left (fun o kv => obj_set o (fst kv) (snd kv)) l acc = acc ++ l) as H.
  { induction l as [|[key v] r IH]; intros acc Hnd; [now rewrite app_nil_r|].
    cbn [fold_left fst snd]. rewrite obj_set_fresh.
    - rewrite IH; rewrite <- app_assoc; [reflexivity | exact Hnd].
    - rewrite map_app in Hnd. apply NoDup_app in Hnd as (_ & Hd & _).
      intros Hin. apply (Hd key Hin). simpl. left. }
  intros Hnd. now apply (H []).
Qed.

Theorem parse_print (v : value) : faithful v -> reads_back v.
Proof.
  induction v as [|b|n|s|l IH|l IH] using value_ind'; intros Hv.
  - exists 1. intros [|fuel] k Hle Hk; [lia|]. reflexivity.
  - exists 1. intros [|fuel] k Hle Hk; [lia|]. destruct b; reflexivity.
  - exists 1. intros [|fuel] k Hle Hk; [lia|]. cbn [parse_value print].
    destruct (print_head (VNum n) k Hv) as (c & r & H1 & H2 & _).
    destruct (number_head n k Hv) as (c' & r' & H1' & H2').
    cbn [print] in H1. rewrite H1' in H1. injection H1 as -> ->.
    rewrite H1', skip_ws_head by assumption.
    assert (48 <= code c <= 57 \/ code c = 45)%Z as Hc
      by (destruct H2' as [H|H]; [apply is_digit_spec in H|]; lia).
    destruct (code c =? 91)%Z eqn:F1; [apply Z.eqb_eq in F1; lia|].
    destruct (code c =? 123)%Z eqn:F2; [apply Z.eqb_eq in F2; lia|].
    destruct (code c =? 34)%Z eqn:F3; [apply Z.eqb_eq in F3; lia|].
    assert (is_digit c || (code c =? 45)%Z = true) as ->.
    { destruct H2' as [->|H]; [reflexivity|]. rewrite H. apply orb_true_r. }
    rewrite <- H1', lex_number_print by assumption. reflexivity.
  - exists 1. intros [|fuel] k Hle Hk; [lia|]. cbn [parse_value print].
    unfold print_string. rewrite skip_ws_head by reflexivity. eval_chars. cbv iota beta.
    now rewrite lex_string_escape.
  - apply faithful_arr in Hv. destruct l as [|x xs].
    + exists 1. intros [|fuel] k Hle Hk; [lia|]. reflexivity.
    + apply Forall_cons in Hv as [Hx Hxs]. apply Forall_cons in IH as [IHx IHxs].
      destruct (elements_read_back xs Hxs IHxs x Hx (IHx Hx)) as [f0 H0].
      exists (S f0). intros [|fuel] k Hle Hk; [lia|].
      rewrite print_arr_cons. cbn [parse_value].
      rewrite skip_ws_head by reflexivity. eval_chars. cbv iota beta.
      destruct (print_head x (print_elements xs k) Hx) as (c & r & H1 & H2 & H3 & _).
      rewrite H1, skip_ws_head by assumption.
      destruct (code c =? 93)%Z eqn:F; [apply Z.eqb_eq in F; lia|].
      rewrite <- H1, H0 by lia. reflexivity.
  - apply faithful_obj in Hv as [Hnd Hv]. destruct l as [|[key x] xs].
    + exists 1. intros [|fuel] k Hle Hk; [lia|]. reflexivity.
    + apply Forall_cons in Hv as [Hx Hxs]. apply Forall_cons in IH as [IHx IHxs].
      destruct (members_read_back xs Hxs IHxs key x Hx (IHx Hx)) as [f0 H0].
      exists (S f0). intros [|fuel] k Hle Hk; [lia|].
      rewrite print_obj_cons. cbn [parse_value].
      rewrite skip_ws_head by reflexivity. eval_chars. cbv iota beta.
      unfold print_string at 1. rewrite skip_ws_head by reflexivity.
      eval_chars. cbv iota beta.
      change (String dquote (escape key (String dquote
                (String ":" (print x (print_members xs k))))))
        with (print_string key (String ":" (print x (print_members xs k)))).
      rewrite H0 by lia. now rewrite obj_of_members_nodup.
Qed.

(** ** JSON.parse never runs out of fuel *)

Lemma skip_ws_length (s : string) : String.length (skip_ws s) <= String.length s.
Proof.
  induction s as [|c r IH]; cbn [skip_ws]; [lia|].
  destruct (is_json_ws c); cbn [String.length]; lia.
Qed.

Lemma lex_string_length (n : nat) :
  forall s t q, String.length s <= n -> lex_string s = Some (t, q) ->
                String.length q < String.length s.
Proof.
  induction n as [|n IH]; intros s t q Hn H.
  - destruct s; [discriminate | simpl in Hn; lia].
  - destruct s as [|c r]; [discriminate|]. cbn [lex_string] in H.
    cbn [String.length] in *.
    destruct (code c =? 34)%Z; [injection H as _ <-; lia|].
    destruct (code c =? 92)%Z.
    + destruct r as [|e r1]; [discriminate|]. cbn [String.length] in *.
      destruct (code e =? 117)%Z.
      * destruct r1 as [|a [|b [|c' [|d r2]]]]; try discriminate.
        cbn [String.length] in *.
        destruct (hex4 a b c' d); [|discriminate].
        destruct (lex_string r2) as [[t' q']|] eqn:E; [|discriminate].
        injection H as _ <-. apply IH in E; lia.
      * destruct (unescape e); [|discriminate].
        destruct (lex_string r1) as [[t' q']|] eqn:E; [|discriminate].
        injection H as _ <-. apply IH in E; lia.
    + destruct (code c <? 32)%Z; [discriminate|].
      destruct (lex_string r) as [[t' q']|] eqn:E; [|discriminate].
      injection H as _ <-. apply IH in E; lia.
Qed.

Lemma read_digits_length (s : string) :
  forall acc cnt v cnt' q,
    read_digits s acc cnt = (v, cnt', q) -> String.length q <= String.length s.
Proof.
  induction s as [|c r IH]; intros acc cnt v cnt' q H; cbn [read_digits] in H.
  - injection H as _ _ <-. lia.
  - destruct (is_digit c).
    + apply IH in H. cbn [String.length]. lia.
    + injection H as _ _ <-. lia.
Qed.

Lemma lex_fraction_length (ip : Z) (s : string) (m : Z) (fc : nat) (q : string) :
  lex_fraction ip s = Some (m, fc, q) -> String.length q <= String.length s.
Proof.
  unfold lex_fraction. destruct s as [|c r]; [intros [= _ _ <-]; lia|].
  destruct (code c =? 46)%Z; [|intros [= _ _ <-]; lia].
  destruct r as [|d r']; [discriminate|].
  destruct (is_digit d) eqn:Hd; [|discriminate].
  intros [= H]. cbn [read_digits] in H. rewrite Hd in H.
  apply read_digits_length in H. cbn [String.length] in *. lia.
Qed.

Lemma lex_exponent_length (s : string) (e : Z) (q : string) :
  lex_exponent s = Some (e, q) -> String.length q <= String.length s.
Proof.
  unfold lex_exponent. destruct s as [|c r]; [intros [= _ <-]; lia|].
  destruct ((code c =? 101)%Z || (code c =? 69)%Z); [|intros [= _ <-]; lia].
  assert (forall r1, String.length r1 <= String.length r ->
            match r1 with
            | String d _ =>
                if is_digit d
                then let '(e0, _, q0) := read_digits r1 0 0 in
                     Some (if true then (- e0)%Z else e0, q0)
                else None
            | EmptyString => None
            end = Some (e, q) \/
            match r1 with
            | String d _ =>
                if is_digit d
                then let '(e0, _, q0) := read_digits r1 0 0 in
                     Some (if false then (- e0)%Z else e0, q0)
                else None
            | EmptyString => None
            end = Some (e, q) ->
            String.length q <= String.length (String c r)) as Hr.
  { intros r1 Hle H. cbn [String.length].
    destruct r1 as [|d r2]; [destruct H; discriminate|].
    destruct (is_digit d); [|destruct H; discriminate].
    destruct (read_digits (String d r2) 0 0) as [[e0 n0] q0] eqn:E.
    apply read_digits_length in E.
    destruct H as [H|H]; injection H as _ <-; lia. }
  destruct r as [|sg r']; [discriminate|].
  destruct (code sg =? 45)%Z.
  { intros H. apply (Hr r'); [cbn [String.length]; lia | now left]. }
  destruct (code sg =? 43)%Z.
  { intros H. apply (Hr r'); [cbn [String.length]; lia | now right]. }
  intros H. apply (Hr (String sg r')); [lia | now right].
Qed.

Lemma lex_number_length (s : string) (n : number) (q : string) :
  lex_number s = Some (n, q) -> String.length q < String.length s.
Proof.
  unfold lex_number.
  assert (forall neg s1,
    String.length s1 <= String.length s ->
    match s1 with
    | String c r =>
        if is_digit c then
          let '(ip, s2) :=
            if (code c =? 48)%Z then (0%Z, r)
            else let '(v, _, q) := read_digits s1 0 0 in (v, q) in
          match lex_fraction ip s2 with
          | Some (m, fc, s3) =>
              match lex_exponent s3 with
              | Some (e, s4) =>
                  Some (make_number (if neg : bool then (- m)%Z else m) (e - Z.of_nat fc), s4)
              | None => None
              end
          | None => None
          end
        else None
    | EmptyString => None
    end = Some (n, q) -> String.length q < String.length s) as H.
  { intros neg s1 Hle. destruct s1 as [|c r]; [discriminate|].
    destruct (is_digit c) eqn:Hd; [|discriminate].
    assert (exists ip s2, (if (code c =? 48)%Z then (0%Z, r)
                           else let '(v, _, q) := read_digits (String c r) 0 0 in (v, q))
                          = (ip, s2) /\ String.length s2 <= String.length r)
      as (ip & s2 & -> & Hs2).
    { destruct (code c =? 48)%Z; [eauto|].
      cbn [read_digits]. rewrite Hd.
      destruct (read_digits r (0 * 10 + digit_val c) 1) as [[v c0] q0] eqn:E.
      apply read_digits_length in E. eauto. }
    destruct (lex_fraction ip s2) as [[[m fc] s3]|] eqn:E1; [|discriminate].
    destruct (lex_exponent s3) as [[e s4]|] eqn:E2; [|discriminate].
    apply lex_fraction_length in E1. apply lex_exponent_length in E2.
    intros [= _ <-]. cbn [String.length] in Hle. lia. }
  destruct s as [|c r]; [discriminate|].
  destruct (code c =? 45)%Z.
  - apply (H true r). cbn [String.length]. lia.
  - apply (H false (String c r)). lia.
Qed.

Lemma lex_literal_length (s : string) (v : value) (q : string) :
  lex_literal s = Parsed v q -> String.length q < String.length s.
Proof.
  unfold lex_literal. intros H.
  repeat match type of H with
  | match ?x with _ => _ end = _ =>
      destruct x; try discriminate
  end; injection H as _ <-; cbn [String.length]; lia.
Qed.

Lemma parse_fuel_bound (fuel : nat) :
  (forall s, 2 * String.length s < fuel ->
     parse_value fuel s <> NoFuel
     /\ forall v r, parse_value fuel s = Parsed v r -> String.length r < String.length s)
  /\ (forall s, 2 * String.length s + 1 < fuel ->
        parse_elements fuel s <> NoFuel
        /\ forall l r, parse_elements fuel s = Parsed l r -> String.length r < String.length s)
  /\ (forall s, 2 * String.length s < fuel ->
        parse_members fuel s <> NoFuel
        /\ forall l r, parse_members fuel s = Parsed l r -> String.length r < String.length s).
Proof.
  induction fuel as [|fuel (IHv & IHe & IHm)]; [repeat split; intros; lia|].
  repeat apply conj; intros s Hs; cbn [parse_value parse_elements parse_members].
  - pose proof (skip_ws_length s) as Hws.
    destruct (skip_ws s) as [|c r]; [split; [discriminate | intros; discriminate]|].
    cbn [String.length] in Hws.
    destruct (code c =? 91)%Z.
    { pose proof (skip_ws_length r) as Hws'.
      destruct (skip_ws r) as [|c' r']; [split; [discriminate | intros; discriminate]|].
      cbn [String.length] in Hws'.
      destruct (code c' =? 93)%Z; [split; [discriminate | intros v q [= _ <-]; lia]|].
      destruct (IHe r ltac:(lia)) as [H1 H2].
      destruct (parse_elements fuel r) as [l q| |]; [|split; [discriminate | intros; discriminate]|now destruct H1].
      split; [discriminate|]. intros v q' [= _ <-]. specialize (H2 l q eq_refl). lia. }
    destruct (code c =? 123)%Z.
    { pose proof (skip_ws_length r) as Hws'.
      destruct (skip_ws r) as [|c' r']; [split; [discriminate | intros; discriminate]|].
      cbn [String.length] in Hws'.
      destruct (code c' =? 125)%Z; [split; [discriminate | intros v q [= _ <-]; lia]|].
      destruct (IHm r ltac:(lia)) as [H1 H2].
      destruct (parse_members fuel r) as [l q| |]; [|split; [discriminate | intros; discriminate]|now destruct H1].
      split; [discriminate|]. intros v q' [= _ <-]. specialize (H2 l q eq_refl). lia. }
    destruct (code c =? 34)%Z.
    { destruct (lex_string r) as [[t q]|] eqn:E; [|split; [discriminate | intros; discriminate]].
      apply (lex_string_length _ _ _ _ (le_n _)) in E.
      split; [discriminate|]. intros v q' [= _ <-]. lia. }
    destruct (is_digit c || (code c =? 45)%Z).
    { destruct (lex_number (String c r)) as [[n q]|] eqn:E;
        [|split; [discriminate | intros; discriminate]].
      apply lex_number_length in E. cbn [String.length] in E.
      split; [discriminate|]. intros v q' [= _ <-]. lia. }
    split.
    + unfold lex_literal.
      repeat match goal with
      | |- match ?x with _ => _ end <> _ => destruct x; try discriminate
      end.
    + intros v q E. apply lex_literal_length in E. cbn [String.length] in E. lia.
  - destruct (IHv s ltac:(lia)) as [H1 H2].
    destruct (parse_value fuel s) as [v r| |]; [|split; [discriminate | intros; discriminate]|now destruct H1].
    specialize (H2 v r eq_refl).
    pose proof (skip_ws_length r) as Hws.
    destruct (skip_ws r) as [|c r']; [split; [discriminate | intros; discriminate]|].
    cbn [String.length] in Hws.
    destruct (code c =? 44)%Z.
    + destruct (IHe r' ltac:(lia)) as [H3 H4].
      destruct (parse_elements fuel r') as [l q| |]; [|split; [discriminate | intros; discriminate]|now destruct H3].
      split; [discriminate|]. intros l' q' [= _ <-]. specialize (H4 l q eq_refl). lia.
    + destruct (code c =? 93)%Z; [|split; [discriminate | intros; discriminate]].
      split; [discriminate|]. intros l' q' [= _ <-]. lia.
  - pose proof (skip_ws_length s) as Hws.
    destruct (skip_ws s) as [|c r]; [split; [discriminate | intros; discriminate]|].
    cbn [String.length] in Hws.
    destruct (code c =? 34)%Z; [|split; [discriminate | intros; discriminate]].
    destruct (lex_string r) as [[key r1]|] eqn:E; [|split; [discriminate | intros; discriminate]].
    apply (lex_string_length _ _ _ _ (le_n _)) in E.
    pose proof (skip_ws_length r1) as Hws1.
    destruct (skip_ws r1) as [|c1 r2]; [split; [discriminate | intros; discriminate]|].
    cbn [String.length] in Hws1.
    destruct (code c1 =? 58)%Z; [|split; [discriminate | intros; discriminate]].
    destruct (IHv r2 ltac:(lia)) as [H1 H2].
    destruct (parse_value fuel r2) as [v r3| |]; [|split; [discriminate | intros; discriminate]|now destruct H1].
    specialize (H2 v r3 eq_refl).
    pose proof (skip_ws_length r3) as Hws3.
    destruct (skip_ws r3) as [|c3 r4]; [split; [discriminate | intros; discriminate]|].
    cbn [String.length] in Hws3.
    destruct (code c3 =? 44)%Z.
    + destruct (IHm r4 ltac:(lia)) as [H3 H4].
      destruct (parse_members fuel r4) as [l q| |]; [|split; [discriminate | intros; discriminate]|now destruct H3].
      split; [discriminate|]. intros l' q' [= _ <-]. specialize (H4 l q eq_refl). lia.
    + destruct (code c3 =? 125)%Z; [|split; [discriminate | intros; discriminate]].
      split; [discriminate|]. intros l' q' [= _ <-]. lia.
Qed.

(** The fuel [JSON_parse] starts with is enough for every text: a [None]
    is a syntax error. *)
Theorem parse_fuel_enough (s : string) : parse_value (parse_fuel s) s <> NoFuel.
Proof.
  apply (parse_fuel_bound (parse_fuel s)). unfold parse_fuel. lia.
Qed.

(** [JSON.parse(JSON.stringify(v))] is [v] for a faithful value. *)
Theorem JSON_roundtrip (v : value) :
  faithful v -> JSON_parse (JSON_stringify v) = Some v.
Proof.
  intros Hv. destruct (parse_print v Hv) as [f0 H0].
  unfold JSON_parse, JSON_stringify.
  set (s := print v ""). set (f := parse_fuel s).
  assert (parse_value (max f0 f) s = Parsed v "") as Hmax
    by (apply H0; [lia | exact I]).
  assert (parse_value (max f0 f) s = parse_value f s) as Heq
    by (apply parse_mono; [apply parse_fuel_enough | lia]).
  rewrite <- Heq, Hmax. reflexivity.
Qed.

(** ** The record store *)

Lemma getDietEntries_eq :
  getDietEntries = get_entries DIET_KEY "Error getting diet entries:".
Proof. reflexivity. Qed.

Lemma getExerciseEntries_eq :
  getExerciseEntries = get_entries EXERCISE_KEY "Error getting exercise entries:".
Proof. reflexivity. Qed.

Lemma addDietEntry_eq (entry : DietEntry) :
  addDietEntry entry
  = add_entry DIET_KEY "Error getting diet entries:" "Error adding diet entry:"
      (DietEntry_value entry).
Proof. reflexivity. Qed.

Lemma addExerciseEntry_eq (entry : ExerciseEntry) :
  addExerciseEntry entry
  = add_entry EXERCISE_KEY "Error getting exercise entries:" "Error adding exercise entry:"
      (ExerciseEntry_value entry).
Proof. reflexivity. Qed.

Lemma getTodaysDietEntries_eq :
  getTodaysDietEntries
  = get_todays DIET_KEY "Error getting diet entries:" "Error getting today's diet entries:".
Proof. reflexivity. Qed.

Lemma getTodaysExerciseEntries_eq :
  getTodaysExerciseEntries
  = get_todays EXERCISE_KEY "Error getting exercise entries:"
      "Error getting today's exercise entries:".
Proof. reflexivity. Qed.

Lemma same_device_refl (w : World) : same_device w w.
Proof. repeat split. Qed.

Lemma same_device_trans (w1 w2 w3 : World) :
  same_device w1 w2 -> same_device w2 w3 -> same_device w1 w3.
Proof. unfold same_device. intros (-> & -> & ->) (-> & -> & ->). repeat split. Qed.

(** Unfolds the plumbing of the monad. *)
Ltac run :=
  cbv [bind ret throw try_catch lift array_push array_filter console_error Alert_alert
       Date_now the_host JSON_parse_M entries_of_data
       AsyncStorage_getItem AsyncStorage_setItem AsyncStorage_multiRemove];
  cbv beta iota.

(** A read returns [read_result], makes one [getItem] call and leaves the
    stored data alone. *)
Lemma get_entries_run (key msg : string) (w : World) :
  let r := get_entries key msg w in
  fst r = Ok (read_result key w)
  /\ storage (snd r) = storage w
  /\ calls (snd r) = calls w ++ [GetItem key]
  /\ alerts (snd r) = alerts w
  /\ same_device w (snd r).
Proof.
  unfold get_entries, read_result, stored. run.
  destruct (fails_next w) eqn:Hf; [repeat split|].
  destruct (storage w !! key) as [s|]; [|repeat split].
  destruct (str_truthy s); [|repeat split].
  destruct (JSON_parse s) as [v|]; repeat split.
Qed.

(** An append reads, then either fails on a value that is not an array,
    or makes one [setItem] call. *)
Lemma add_entry_run (key msg msg' : string) (v : value) (w : World) :
  let r := add_entry key msg msg' v w in
  same_device w (snd r) /\ alerts (snd r) = alerts w /\
  match read_result key w with
  | VArr l =>
      let text := JSON_stringify (VArr (l ++ [v])) in
      calls (snd r) = calls w ++ [GetItem key; SetItem key text] /\
      if write_fails w
      then fst r = Throw (StorageFailure (SetItem key text)) /\ storage (snd r) = storage w
      else fst r = Ok tt /\ storage (snd r) = <[key := text]> (storage w)
  | _ =>
      fst r = Throw TypeError
      /\ storage (snd r) = storage w
      /\ calls (snd r) = calls w ++ [GetItem key]
  end.
Proof.
  generalize (get_entries_run key msg w).
  unfold add_entry. run. cbv zeta.
  destruct (get_entries key msg w) as [r1 w1]. cbn [fst snd].
  intros (-> & Hst & Hcalls & Hal & Hc & Hh & Hfa).
  assert (fails_next w1 = write_fails w) as Hnext.
  { unfold fails_next, write_fails. rewrite Hfa, Hcalls, length_app. simpl.
    f_equal. lia. }
  destruct (read_result key w) as [|b|n|s|l|l];
    try (cbn [fst snd storage calls alerts]; unfold same_device;
         cbn [clock host faulty]; repeat split; assumption).
  rewrite Hnext. destruct (write_fails w);
    cbn [fst snd provider storage calls alerts]; unfold same_device;
    cbn [clock host faulty]; rewrite ?Hcalls, <- ?app_assoc, ?Hst; repeat split; assumption.
Qed.

Lemma get_todays_run (key msg msg' : string) (w : World) :
  let r := get_todays key msg msg' w in
  fst r = Ok (todays_of (host w) (clock w) (read_result key w))
  /\ storage (snd r) = storage w
  /\ calls (snd r) = calls w ++ [GetItem key].
Proof.
  generalize (get_entries_run key msg w).
  unfold get_todays. run. cbv zeta.
  destruct (get_entries key msg w) as [r1 w1]. cbn [fst snd].
  intros (-> & Hst & Hcalls & Hal & Hc & Hh & Hfa).
  unfold todays_of. rewrite Hc, Hh.
  destruct (read_result key w) as [|b|n|s|l|l]; try (repeat split; assumption).
  destruct (filter_list _ l); repeat split; assumption.
Qed.

Lemma getWeeklyExerciseProgress_run (w : World) :
  let r := getWeeklyExerciseProgress w in
  fst r = Ok (weekly_of (host w) (clock w) (read_result EXERCISE_KEY w))
  /\ storage (snd r) = storage w
  /\ calls (snd r) = calls w ++ [GetItem EXERCISE_KEY].
Proof.
  generalize (get_entries_run EXERCISE_KEY "Error getting exercise entries:" w).
  unfold getWeeklyExerciseProgress. rewrite getExerciseEntries_eq.
  unfold count_type. run. cbv zeta.
  destruct (get_entries EXERCISE_KEY _ w) as [r1 w1]. cbn [fst snd].
  intros (-> & Hst & Hcalls & Hal & Hc & Hh & Hfa).
  unfold weekly_of, count_of. rewrite Hc, Hh.
  destruct (read_result EXERCISE_KEY w) as [|b|n|s|l|l]; try (repeat split; assumption).
  destruct (filter_list _ l) as [wk|]; [|repeat split; assumption].
  repeat (match goal with
          | |- context [filter_list (has_type ?t) wk] =>
              destruct (filter_list (has_type t) wk)
          end; [|repeat split; assumption]).
  repeat split; assumption.
Qed.

Lemma clearHealthData_run (w : World) :
  let r := clearHealthData w in
  calls (snd r) = calls w ++ [MultiRemove [DIET_KEY; EXERCISE_KEY]]
  /\ same_device w (snd r)
  /\ if fails_next w
     then fst r = Throw (StorageFailure (MultiRemove [DIET_KEY; EXERCISE_KEY]))
          /\ storage (snd r) = storage w
     else fst r = Ok tt
          /\ storage (snd r) = delete DIET_KEY (delete EXERCISE_KEY (storage w)).
Proof.
  unfold clearHealthData. run. cbv zeta.
  destruct (fails_next w); repeat split.
Qed.

Lemma read_result_empty (key : string) (w : World) :
  storage w !! key = None \/ malformed key w \/ fails_next w = true ->
  read_result key w = VArr [].
Proof.
  unfold read_result, stored. intros [H|[(s & H & Hs)|H]]; rewrite H; try reflexivity.
  - now destruct (fails_next w).
  - rewrite Hs. destruct (fails_next w); [reflexivity|]. now destruct (str_truthy s).
Qed.

Lemma get_entries_empty (key msg : string) (w : World) :
  storage w !! key = None \/ malformed key w \/ fails_next w = true ->
  fst (get_entries key msg w) = Ok (VArr []).
Proof.
  intros H. pose proof (get_entries_run key msg w) as (-> & _).
  now rewrite read_result_empty.
Qed.

(** C4.  Every read fails open: when the key is absent, when its text is
    not valid JSON, or when the provider's [getItem] call fails, the four
    list readers return the empty list and the weekly progress is all
    zeros; and no read ever propagates an error, whatever the device. *)
Theorem reads_fail_open (w : World) :
  (storage w !! DIET_KEY = None \/ malformed DIET_KEY w \/ fails_next w = true ->
     fst (getDietEntries w) = Ok (VArr [])
     /\ fst (getTodaysDietEntries w) = Ok (VArr []))
  /\ (storage w !! EXERCISE_KEY = None \/ malformed EXERCISE_KEY w \/ fails_next w = true ->
        fst (getExerciseEntries w) = Ok (VArr [])
        /\ fst (getTodaysExerciseEntries w) = Ok (VArr [])
        /\ fst (getWeeklyExerciseProgress w) = Ok no_progress)
  /\ ~ throws (fst (getDietEntries w))
  /\ ~ throws (fst (getExerciseEntries w))
  /\ ~ throws (fst (getTodaysDietEntries w))
  /\ ~ throws (fst (getTodaysExerciseEntries w))
  /\ ~ throws (fst (getWeeklyExerciseProgress w)).
Proof.
  rewrite getDietEntries_eq, getExerciseEntries_eq,
    getTodaysDietEntries_eq, getTodaysExerciseEntries_eq.
  pose proof (get_entries_run DIET_KEY "Error getting diet entries:" w) as (Hd & _).
  pose proof (get_entries_run EXERCISE_KEY "Error getting exercise entries:" w) as (He & _).
  pose proof (get_todays_run DIET_KEY "Error getting diet entries:"
                "Error getting today's diet entries:" w) as (Htd & _).
  pose proof (get_todays_run EXERCISE_KEY "Error getting exercise entries:"
                "Error getting today's exercise entries:" w) as (Hte & _).
  pose proof (getWeeklyExerciseProgress_run w) as (Hw & _).
  cbv zeta in *. rewrite Hd, He, Htd, Hte, Hw.
  repeat apply conj; try (simpl; tauto).
  - intros H. rewrite (read_result_empty _ _ H). split; reflexivity.
  - intros H. rewrite (read_result_empty _ _ H). repeat split; reflexivity.
Qed.

Lemma reads_fail_open_witness :
  fst (getDietEntries garbled_device) = Ok (VArr [])
  /\ fst (getTodaysDietEntries garbled_device) = Ok (VArr []).
Proof.
  apply (reads_fail_open garbled_device).
  right; left. exists "[{oops". split; reflexivity.
Defined.


(** An object stored under the diet key is handed out as it is by the
    plain reader; the daily reader falls back to the empty list. *)
Example object_is_returned_as_is :
  fst (getDietEntries corrupt_device) = Ok (VObj [])
  /\ fst (getTodaysDietEntries corrupt_device) = Ok (VArr []).
Proof. split; reflexivity. Qed.


(** C6.  After a reset that succeeded, both lists read as empty, whatever
    the store held before. *)
Theorem reset_empties_both (w : World) :
  fst (clearHealthData w) = Ok tt ->
  fst (getDietEntries (snd (clearHealthData w))) = Ok (VArr [])
  /\ fst (getExerciseEntries (snd (clearHealthData w))) = Ok (VArr []).
Proof.
  intros Hok. pose proof (clearHealthData_run w) as (_ & _ & H). cbv zeta in H.
  destruct (fails_next w); destruct H as (Hr & Hst); [rewrite Hr in Hok; discriminate|].
  rewrite getDietEntries_eq, getExerciseEntries_eq.
  split; apply get_entries_empty; left; rewrite Hst.
  - apply lookup_delete_eq.
  - rewrite lookup_delete_ne by discriminate. apply lookup_delete_eq.
Qed.

Lemma reset_empties_both_witness :
  fst (getDietEntries used_device) = Ok (VArr [DietEntry_value breakfast])
  /\ fst (getExerciseEntries used_device) = Ok (VArr [ExerciseEntry_value workout])
  /\ fst (getDietEntries (snd (clearHealthData used_device))) = Ok (VArr [])
  /\ fst (getExerciseEntries (snd (clearHealthData used_device))) = Ok (VArr []).
Proof.
  split; [vm_compute; reflexivity|]. split; [vm_compute; reflexivity|].
  apply (reset_empties_both used_device). vm_compute. reflexivity.
Defined.

(** C9.  The two lists are independent: an append to one leaves the text
    stored under the other key, and so the list it reads as, unchanged. *)
Theorem appends_are_independent (w : World) (e : DietEntry) (x : ExerciseEntry) :
  storage (snd (addDietEntry e w)) !! EXERCISE_KEY = storage w !! EXERCISE_KEY
  /\ stored EXERCISE_KEY (snd (addDietEntry e w)) = stored EXERCISE_KEY w
  /\ storage (snd (addExerciseEntry x w)) !! DIET_KEY = storage w !! DIET_KEY
  /\ stored DIET_KEY (snd (addExerciseEntry x w)) = stored DIET_KEY w.
Proof.
  assert (forall key key' msg msg' v, key <> key' ->
            storage (snd (add_entry key msg msg' v w)) !! key' = storage w !! key') as H.
  { intros key key' msg msg' v Hne.
    pose proof (add_entry_run key msg msg' v w) as (_ & _ & H). cbv zeta in H.
    destruct (read_result key w) as [|b|n|s|l|l];
      try (destruct H as (_ & -> & _); reflexivity).
    destruct H as (_ & H). destruct (write_fails w); destruct H as (_ & ->); [reflexivity|].
    now apply lookup_insert_ne. }
  rewrite addDietEntry_eq, addExerciseEntry_eq. unfold stored.
  rewrite !H by discriminate. repeat split.
Qed.

(** ** Appending and reading back *)


Lemma faithful_food (f : FoodItem) : food_finite f -> faithful (FoodItem_value f).
Proof.
  intros (H1 & H2 & H3 & H4). apply faithful_obj. split.
  - apply (bool_decide_unpack _). vm_compute. exact I.
  - repeat constructor; assumption.
Qed.

Lemma faithful_diet (e : DietEntry) : diet_finite e -> faithful (DietEntry_value e).
Proof.
  intros (Hf & H1 & H2 & H3 & H4). apply faithful_obj. split.
  - apply (bool_decide_unpack _). vm_compute. exact I.
  - repeat constructor; try assumption.
    cbn [snd]. apply faithful_arr. apply Forall_map.
    eapply Forall_impl; [exact Hf|]. intros f. apply faithful_food.
Qed.

Lemma stringify_array_truthy (l : list value) : str_truthy (JSON_stringify (VArr l)) = true.
Proof. destruct l; reflexivity. Qed.

(** The list a successful write leaves under its key. *)
Lemma stored_after_write (key : string) (l : list value) (w w' : World) :
  storage w' = <[key := JSON_stringify (VArr l)]> (storage w) ->
  Forall faithful l ->
  stored key w' = VArr l.
Proof.
  intros Hst Hl. unfold stored. rewrite Hst, lookup_insert_eq, stringify_array_truthy.
  rewrite JSON_roundtrip; [reflexivity|]. now apply faithful_arr.
Qed.

Lemma appendAll_run (es : list DietEntry) :
  forall (w : World) (done : list DietEntry),
    (forall n, faulty w n = false) ->
    stored DIET_KEY w = VArr (map DietEntry_value done) ->
    Forall diet_finite done -> Forall diet_finite es ->
    fst (appendAll es w) = Ok tt
    /\ stored DIET_KEY (snd (appendAll es w)) = VArr (map DietEntry_value (done ++ es))
    /\ faulty (snd (appendAll es w)) = faulty w.
Proof.
  induction es as [|e es IH]; intros w done Hfa Hst Hdone Hes.
  - rewrite app_nil_r. repeat split. exact Hst.
  - apply Forall_cons in Hes as [He Hes].
    cbn [appendAll]. rewrite addDietEntry_eq. unfold bind.
    pose proof (add_entry_run DIET_KEY "Error getting diet entries:"
                  "Error adding diet entry:" (DietEntry_value e) w) as ((_ & _ & Hfa') & _ & H).
    cbv zeta in H. unfold read_result, fails_next, write_fails in H.
    rewrite !Hfa, Hst in H. destruct H as (_ & Hr & Hst').
    destruct (add_entry _ _ _ _ w) as [r w1]. cbn [fst snd] in *. subst r.
    cbv beta iota.
    assert (stored DIET_KEY w1 = VArr (map DietEntry_value (done ++ [e]))) as Hst1.
    { rewrite map_app. apply (stored_after_write _ _ w); [exact Hst'|].
      apply Forall_app. split.
      - apply Forall_map. eapply Forall_impl; [exact Hdone|]. apply faithful_diet.
      - constructor; [now apply faithful_diet | constructor]. }
    destruct (IH w1 (done ++ [e])) as (H1 & H2 & H3).
    + intros n. rewrite Hfa'. apply Hfa.
    + exact Hst1.
    + apply Forall_app. split; [exact Hdone | constructor; [exact He | constructor]].
    + exact Hes.
    + split; [exact H1|]. split; [|now rewrite H3].
      rewrite H2, <- app_assoc. reflexivity.
Qed.

(** C1 as stated fails: an entry of the declared shape whose total is
    [NaN] does not come back as it was appended. *)
Lemma nan_is_not_read_back :
  fst (getDietEntries (snd (appendAll [nan_meal] (device (fixed_zone 0) sunday_evening))))
  <> Ok (VArr (map DietEntry_value [nan_meal])).
Proof. vm_compute. discriminate. Qed.

(** C1, amended.  On a device whose diet key is absent and whose provider
    does not fail, appending any entries with finite numeric fields
    succeeds, and the list then read is exactly these entries in the order
    they were appended, every field as it was. *)
Theorem append_then_read (w : World) (es : list DietEntry) :
  storage w !! DIET_KEY = None ->
  (forall n, faulty w n = false) ->
  Forall diet_finite es ->
  fst (appendAll es w) = Ok tt
  /\ fst (getDietEntries (snd (appendAll es w))) = Ok (VArr (map DietEntry_value es)).
Proof.
  intros Hnone Hfa Hes.
  destruct (appendAll_run es w [] Hfa) as (H1 & H2 & H3); [| constructor | exact Hes |].
  { unfold stored. now rewrite Hnone. }
  split; [exact H1|]. rewrite getDietEntries_eq.
  pose proof (get_entries_run DIET_KEY "Error getting diet entries:" (snd (appendAll es w)))
    as (-> & _).
  unfold read_result, fails_next. now rewrite H3, Hfa, H2.
Qed.

Lemma append_then_read_witness :
  fst (getDietEntries (snd (appendAll [breakfast; breakfast]
                              (device (fixed_zone 0) sunday_evening))))
  = Ok (VArr [DietEntry_value breakfast; DietEntry_value breakfast]).
Proof.
  apply (append_then_read (device (fixed_zone 0) sunday_evening) [breakfast; breakfast]).
  - reflexivity.
  - reflexivity.
  - repeat constructor.
Defined.

(** ** The calendar *)

Section calendar_facts.
Local Open Scope Z_scope.

(** The year of a day is the largest year that starts on or before it. *)
Lemma YearFromDay_spec (d : Z) :
  DayFromYear (YearFromDay d) <= d < DayFromYear (YearFromDay d + 1).
Proof.
  unfold YearFromDay.
  set (y := 1970 + d * 400 / 146097).
  assert (DayFromYear (y - 1) <= d < DayFromYear (y + 2)) as Hest.
  { subst y. unfold DayFromYear. Z.div_mod_to_equations; lia. }
  destruct (d <? DayFromYear y) eqn:E1.
  - apply Z.ltb_lt in E1. replace (y - 1 + 1) with y by lia. lia.
  - apply Z.ltb_ge in E1. destruct (DayFromYear (y + 1) <=? d) eqn:E2.
    + apply Z.leb_le in E2. replace (y + 1 + 1) with (y + 2) by lia. lia.
    + apply Z.leb_gt in E2. lia.
Qed.

Lemma DayFromYear_succ (y : Z) : DayFromYear (y + 1) = DayFromYear y + DaysInYear y.
Proof.
  unfold DayFromYear, DaysInYear.
  destruct (y mod 4 =? 0) eqn:E4; [apply Z.eqb_eq in E4 | apply Z.eqb_neq in E4];
  destruct (y mod 100 =? 0) eqn:E100; [apply Z.eqb_eq in E100 | apply Z.eqb_neq in E100 | apply Z.eqb_eq in E100 | apply Z.eqb_neq in E100];
  destruct (y mod 400 =? 0) eqn:E400; [apply Z.eqb_eq in E400 | apply Z.eqb_neq in E400 | apply Z.eqb_eq in E400 | apply Z.eqb_neq in E400 | apply Z.eqb_eq in E400 | apply Z.eqb_neq in E400 | apply Z.eqb_eq in E400 | apply Z.eqb_neq in E400];
  cbn [negb]; Z.div_mod_to_equations; lia.
Qed.

Lemma DaysInYear_cases (y : Z) : DaysInYear y = 365 \/ DaysInYear y = 366.
Proof.
  unfold DaysInYear. repeat match goal with |- context [negb ?b] => destruct b; cbn [negb] end; auto.
Qed.

Lemma DayWithinYear_range (t : Z) :
  0 <= DayWithinYear t < 365 + InLeapYear t.
Proof.
  unfold DayWithinYear, InLeapYear, YearFromTime.
  pose proof (YearFromDay_spec (Day t)) as H.
  rewrite DayFromYear_succ in H.
  destruct (DaysInYear_cases (YearFromDay (Day t))) as [E|E]; rewrite E in *; cbn; lia.
Qed.

Lemma MonthFromTime_range (t : Z) : 0 <= MonthFromTime t <= 11.
Proof.
  unfold MonthFromTime, month_of.
  repeat match goal with |- context [if ?b then _ else _] => destruct b end; lia.
Qed.

Lemma InLeapYear_cases (t : Z) : InLeapYear t = 0 \/ InLeapYear t = 1.
Proof. unfold InLeapYear. destruct (_ =? _); auto. Qed.

Lemma DateFromTime_range (t : Z) : 1 <= DateFromTime t <= 31.
Proof.
  unfold DateFromTime, MonthFromTime, month_of.
  pose proof (DayWithinYear_range t) as H.
  destruct (InLeapYear_cases t) as [E|E]; rewrite E in *;
  repeat match goal with
  | |- context [if ?a <? ?b then _ else _] =>
      let F := fresh "F" in
      destruct (a <? b) eqn:F; [apply Z.ltb_lt in F | apply Z.ltb_ge in F]
  end; cbn [month_start]; lia.
Qed.

(** The day number is recovered from the year, month and date. *)
Lemma MakeDay_fields (t k : Z) :
  MakeDay (YearFromTime t) (MonthFromTime t) (DateFromTime t + k) = Day t + k.
Proof.
  unfold MakeDay. pose proof (MonthFromTime_range t) as Hm.
  rewrite Z.div_small, Z.mod_small, Z.add_0_r by lia.
  unfold DateFromTime, DayWithinYear, InLeapYear. lia.
Qed.

Lemma MakeDate_Day (t : Z) : MakeDate (Day t) (TimeWithinDay t) = t.
Proof.
  unfold MakeDate, Day, TimeWithinDay, msPerDay.
  pose proof (Z.div_mod t 86400000). lia.
Qed.

Lemma WeekDay_range (t : Z) : 0 <= WeekDay t <= 6.
Proof. unfold WeekDay. pose proof (Z.mod_pos_bound (Day t + 4) 7). lia. Qed.

Lemma Day_shift (t k : Z) : Day (t + k * msPerDay) = Day t + k.
Proof. unfold Day, msPerDay. apply Z.div_add. lia. Qed.

Lemma TimeWithinDay_shift (t k : Z) : TimeWithinDay (t + k * msPerDay) = TimeWithinDay t.
Proof. unfold TimeWithinDay, msPerDay. apply Z.mod_add. lia. Qed.
End calendar_facts.

(** ** Date strings *)

Ltac split_pos p n :=
  match n with
  | O => idtac
  | S ?n' => destruct p as [p|p|]; [split_pos p n' | split_pos p n' |]
  end.

Lemma day_name_shape (w : Z) :
  exists a b c, day_name w = String a (String b (String c "")) /\ a <> "I"%char.
Proof.
  destruct w as [|p|p]; [| split_pos p 3%nat |];
    (eexists _, _, _; split; [reflexivity | discriminate]).
Qed.

Lemma month_name_shape (m : Z) :
  exists a b c, month_name m = String a (String b (String c "")).
Proof.
  destruct m as [|p|p]; [| split_pos p 4%nat |]; (eexists _, _, _; reflexivity).
Qed.

Lemma month_name_inj (m m' : Z) :
  (0 <= m <= 11)%Z -> (0 <= m' <= 11)%Z -> month_name m = month_name m' -> m = m'.
Proof.
  intros Hm Hm'.
  assert (m = 0 \/ m = 1 \/ m = 2 \/ m = 3 \/ m = 4 \/ m = 5 \/ m = 6 \/ m = 7 \/ m = 8
          \/ m = 9 \/ m = 10 \/ m = 11)%Z as H by lia.
  assert (m' = 0 \/ m' = 1 \/ m' = 2 \/ m' = 3 \/ m' = 4 \/ m' = 5 \/ m' = 6 \/ m' = 7
          \/ m' = 8 \/ m' = 9 \/ m' = 10 \/ m' = 11)%Z as H' by lia.
  clear Hm Hm'.
  repeat (destruct H as [->|H]); try subst m;
    repeat (destruct H' as [->|H']); try subst m';
    (reflexivity || (intros E; discriminate E)).
Qed.

Lemma read_year_string (y : Z) : read_year (year_string y "") = y.
Proof.
  unfold year_string.
  assert (forall a, (0 <= a)%Z ->
    let body := if (a <? 10000)%Z then pad_digits 4 a "" else digits a "" in
    fst (fst (read_digits body 0 0)) = a
    /\ exists c r, body = String c r /\ is_digit c = true) as Hbody.
  { intros a Ha. cbv zeta. destruct (a <? 10000)%Z eqn:E.
    - apply Z.ltb_lt in E. split.
      + rewrite read_digits_pad. cbn [read_digits fst].
        change (10 ^ Z.of_nat 4)%Z with 10000%Z. rewrite Z.mod_small by lia. lia.
      + apply pad_digits_head.
    - apply Z.ltb_ge in E. split.
      + destruct (read_digits_digits a Ha) as [d Hd]. rewrite Hd. reflexivity.
      + destruct (digits_head a "" ltac:(lia)) as (c & r & H1 & H2 & _). eauto. }
  destruct (y <? 0)%Z eqn:E.
  - apply Z.ltb_lt in E. unfold read_year. eval_chars. cbv iota beta.
    destruct (Hbody (Z.abs y) ltac:(lia)) as [-> _]. lia.
  - apply Z.ltb_ge in E.
    destruct (Hbody (Z.abs y) ltac:(lia)) as [Hv (c & r & Hr & Hc)].
    unfold read_year. rewrite Hr.
    apply is_digit_spec in Hc.
    destruct (code c =? 45)%Z eqn:F; [apply Z.eqb_eq in F; lia|].
    rewrite <- Hr, Hv. lia.
Qed.

(** Two local time values have the same date string exactly when they
    fall on the same day. *)
Lemma DateString_inj (a b : Z) : DateString a = DateString b <-> Day a = Day b.
Proof.
  split.
  - unfold DateString. intros H.
    destruct (day_name_shape (WeekDay a)) as (a1 & a2 & a3 & Hda & _).
    destruct (day_name_shape (WeekDay b)) as (b1 & b2 & b3 & Hdb & _).
    destruct (month_name_shape (MonthFromTime a)) as (c1 & c2 & c3 & Hma).
    destruct (month_name_shape (MonthFromTime b)) as (d1 & d2 & d3 & Hmb).
    rewrite Hda, Hdb, Hma, Hmb in H. cbn [String.append] in H.
    injection H as _ _ _ E1 E2 E3 Hd1 Hd2 Hy.
    assert (MonthFromTime a = MonthFromTime b) as Hm.
    { apply month_name_inj; try apply MonthFromTime_range.
      rewrite Hma, Hmb. now subst. }
    apply (f_equal read_year) in Hy. rewrite !read_year_string in Hy.
    pose proof (DateFromTime_range a). pose proof (DateFromTime_range b).
    apply (f_equal digit_val) in Hd1, Hd2.
    rewrite !digit_val_digit_char in Hd1, Hd2 by (apply Z.mod_pos_bound; lia).
    pose proof (MakeDay_fields a 0) as Ha. pose proof (MakeDay_fields b 0) as Hb.
    rewrite !Z.add_0_r in Ha, Hb. rewrite <- Ha, <- Hb.
    f_equal; [exact Hy | exact Hm |]. Z.div_mod_to_equations; lia.
  - intros H. unfold DateString, DateFromTime, MonthFromTime, WeekDay, DayWithinYear,
      InLeapYear, YearFromTime. now rewrite H.
Qed.

Lemma DateString_valid (a : Z) : DateString a <> "Invalid Date".
Proof.
  unfold DateString.
  destruct (day_name_shape (WeekDay a)) as (a1 & a2 & a3 & -> & Ha).
  cbn [String.append]. intros H. injection H as H _. now apply Ha.
Qed.

(** The conversion to a string raises nothing but a [TypeError]. *)
Lemma ToString_raises (v : value) (e : Error) : ToString v = Throw e -> e = TypeError.
Proof.
  revert e. induction v as [|b|n|s|l IH|l _] using value_ind'; intros e;
    try discriminate; try (destruct b; discriminate).
  - cbn [ToString].
    match goal with
    | |- ?j true l = _ -> _ =>
        enough (forall first, j first l = Throw e -> e = TypeError) as H by exact (H true)
    end.
    induction IH as [|x xs Hx _ IHxs]; intros first; [discriminate|].
    specialize (IHxs false). cbn -[ToString String.append].
    destruct (match x with VNull => Ok "" | _ => ToString x end) as [s|e'] eqn:Ex.
    + match type of IHxs with ?t = _ -> _ => destruct t as [r|e''] end; [discriminate|].
      intros H. injection H as <-. now apply IHxs.
    + intros H. injection H as <-. destruct x; try discriminate Ex; exact (Hx _ Ex).
  - cbn [ToString]. destruct (obj_get l "toString"); [|discriminate].
    intros H. now injection H as <-.
Qed.

(** What the two filters read off an entry, and where they raise. *)
Lemma entry_date_readable (h : Host) (e : value) :
  readable e = true ->
  get_prop e "date" = Ok (match e with VObj l => obj_get l "date" | _ => None end)
  /\ Date_new h (match e with VObj l => obj_get l "date" | _ => None end)
     = Ok (entry_date h e).
Proof.
  intros He. split; [destruct e; try reflexivity; discriminate He|].
  unfold entry_date. destruct e as [|b|n|s|l|l]; try reflexivity.
  cbn [readable] in He. destruct (obj_get l "date") as [[|b|n|s|xs|xs]|]; try reflexivity;
    unfold converts in He; unfold Date_new;
    destruct (ToString _); (reflexivity || discriminate He).
Qed.

Lemma entry_date_unreadable (h : Host) (e : value) :
  readable e = false ->
  get_prop e "date" = Throw TypeError
  \/ exists d, get_prop e "date" = Ok d /\ Date_new h d = Throw TypeError.
Proof.
  intros He. destruct e as [|b|n|s|l|l]; try discriminate He; [now left|].
  right. exists (obj_get l "date"). split; [reflexivity|].
  cbn [readable] in He. destruct (obj_get l "date") as [[|b|n|s|xs|xs]|]; try discriminate He;
    unfold converts in He; unfold Date_new;
    destruct (ToString _) as [t|err] eqn:E;
    try discriminate He; try (destruct b; discriminate E);
    now rewrite (ToString_raises _ _ E).
Qed.

(** The daily filter keeps an entry exactly when it is dated today. *)
Lemma is_today_spec (h : Host) (now : Z) (e : value) :
  readable e = true ->
  is_today h (Date_toDateString h (Some now)) e = Ok (dated_today h now e).
Proof.
  intros He. unfold is_today, dated_today, local_day.
  destruct (entry_date_readable h e He) as [-> ->].
  f_equal. cbn [Date_toDateString].
  destruct (entry_date h e) as [t|]; cbn [Date_toDateString].
  - destruct (Z.eqb_spec (Day (LocalTime h t)) (Day (LocalTime h now))) as [E|E].
    + apply String.eqb_eq. now apply DateString_inj.
    + apply String.eqb_neq. intros H. now apply DateString_inj in H.
  - apply String.eqb_neq. intros H. symmetry in H. now apply DateString_valid in H.
Qed.

Lemma is_today_raises (h : Host) (today : string) (e : value) :
  readable e = false -> is_today h today e = Throw TypeError.
Proof.
  intros He. unfold is_today.
  destruct (entry_date_unreadable h e He) as [->|(d & -> & ->)]; reflexivity.
Qed.

(** ** The daily and weekly views *)

Lemma filter_list_total (f : value -> Result bool) (g : value -> bool) (l : list value) :
  Forall (fun e => f e = Ok (g e)) l -> filter_list f l = Ok (List.filter g l).
Proof.
  induction 1 as [|e l He _ IH]; [reflexivity|].
  cbn [filter_list List.filter]. rewrite He, IH. reflexivity.
Qed.

Lemma filter_keeps (P : value -> Prop) (g : value -> bool) (l : list value) :
  Forall P l -> Forall P (List.filter g l).
Proof.
  induction 1 as [|e l He _ IH]; [constructor|].
  cbn [List.filter]. destruct (g e); [constructor|]; assumption.
Qed.

Lemma filter_twice (f g : value -> bool) (l : list value) :
  List.filter f (List.filter g l) = List.filter (fun e => g e && f e) l.
Proof.
  induction l as [|e l IH]; [reflexivity|].
  cbn [List.filter]. destruct (g e); cbn [List.filter andb]; [|exact IH].
  destruct (f e); now rewrite IH.
Qed.

Lemma readable_not_null (e : value) : readable e = true -> e <> VNull.
Proof. intros H ->. discriminate H. Qed.

Lemma has_type_spec (t : string) (e : value) :
  e <> VNull -> has_type t e = Ok (typed_as t e).
Proof.
  intros He. unfold has_type, typed_as, entry_type.
  destruct e; try reflexivity. now destruct He.
Qed.

Lemma in_week_spec (h : Host) (now : Z) (e : value) :
  readable e = true ->
  in_week h (weekStart h now) (weekEnd h now) e = Ok (dated_this_week h now e).
Proof.
  intros He. unfold in_week, dated_this_week.
  destruct (entry_date_readable h e He) as [-> ->].
  unfold Date_ge, Date_lt.
  destruct (entry_date h e) as [t|]; [|reflexivity].
  destruct (weekStart h now) as [a|]; [|reflexivity].
  destruct (weekEnd h now) as [b|]; [now destruct (a <=? t)%Z|].
  destruct (a <=? t)%Z; reflexivity.
Qed.

Lemma in_week_raises (h : Host) (ws we : Date) (e : value) :
  readable e = false -> in_week h ws we e = Throw TypeError.
Proof.
  intros He. unfold in_week.
  destruct (entry_date_unreadable h e He) as [->|(d & -> & ->)]; reflexivity.
Qed.

(** A filter goes through exactly when its callback raises on no
    element. *)
Lemma filter_list_cases (f : value -> Result bool) (g ok : value -> bool) (l : list value) :
  (forall e, ok e = true -> f e = Ok (g e)) ->
  (forall e, ok e = false -> f e = Throw TypeError) ->
  filter_list f l = if forallb ok l then Ok (List.filter g l) else Throw TypeError.
Proof.
  intros Hok Hno. induction l as [|x l IH]; [reflexivity|].
  cbn [filter_list forallb List.filter]. destruct (ok x) eqn:Ex; cbn [andb].
  - rewrite (Hok x Ex), IH. now destruct (forallb ok l).
  - now rewrite (Hno x Ex).
Qed.

Lemma forallb_filter (ok g : value -> bool) (l : list value) :
  forallb ok l = true -> forallb ok (List.filter g l) = true.
Proof.
  intros H. apply forallb_forall. intros e He. apply List.filter_In in He as [He _].
  rewrite forallb_forall in H. now apply H.
Qed.

Lemma todays_of_list (h : Host) (now : Z) (l : list value) :
  todays_of h now (VArr l)
  = VArr (if forallb readable l then List.filter (dated_today h now) l else []).
Proof.
  unfold todays_of.
  rewrite (filter_list_cases _ (dated_today h now) readable)
    by (intros e; first [apply is_today_spec | apply is_today_raises]).
  now destruct (forallb readable l).
Qed.

Lemma count_of_list (t : string) (l : list value) :
  forallb readable l = true -> count_of t l = Some (length (List.filter (typed_as t) l)).
Proof.
  intros Hl. unfold count_of. rewrite (filter_list_total _ (typed_as t)); [reflexivity|].
  apply List.Forall_forall. intros e He. apply has_type_spec, readable_not_null.
  rewrite forallb_forall in Hl. now apply Hl.
Qed.

Lemma weekly_of_list (h : Host) (now : Z) (l : list value) :
  weekly_of h now (VArr l)
  = if forallb readable l then progress_of h now l else no_progress.
Proof.
  unfold weekly_of.
  rewrite (filter_list_cases _ (dated_this_week h now) readable)
    by (intros e; first [apply in_week_spec | apply in_week_raises]).
  destruct (forallb readable l) eqn:Hl; [|reflexivity].
  rewrite !count_of_list by (now apply forallb_filter).
  unfold progress_of, count_week. now rewrite !filter_twice.
Qed.

Section week_window.
Local Open Scope Z_scope.
Variable h : Host.
Variable now : Z.

Let lt := LocalTime h now.
Let S := sunday_start lt.

Lemma weekStart_general :
  weekStart h now
  = Some (UTC h (msPerDay * Day (LocalTime h (UTC h (lt - WeekDay lt * msPerDay))))).
Proof.
  unfold weekStart, Date_getDate, Date_getDay, Date_setDate, Date_setHours.
  fold lt. f_equal. f_equal.
  replace (DateFromTime lt - WeekDay lt) with (DateFromTime lt + - WeekDay lt) by lia.
  rewrite MakeDay_fields.
  assert (MakeDate (Day lt + - WeekDay lt) (TimeWithinDay lt) = lt - WeekDay lt * msPerDay)
    as ->.
  { pose proof (MakeDate_Day lt) as H. unfold MakeDate in *. lia. }
  unfold MakeDate, MakeTime. lia.
Qed.

Lemma weekStart_regular :
  local_ok h (lt - WeekDay lt * msPerDay) -> weekStart h now = Some (UTC h S).
Proof.
  intros Hok. rewrite weekStart_general, Hok. do 2 f_equal. subst S. unfold sunday_start.
  replace (lt - WeekDay lt * msPerDay) with (lt + - WeekDay lt * msPerDay) by lia.
  rewrite Day_shift. lia.
Qed.

Lemma weekEnd_general (ws : Z) :
  weekStart h now = Some ws ->
  weekEnd h now = Some (UTC h (LocalTime h ws + 7 * msPerDay)).
Proof.
  intros Hws. unfold weekEnd. rewrite Hws. unfold Date_getDate, Date_setDate.
  f_equal. f_equal. rewrite MakeDay_fields.
  pose proof (MakeDate_Day (LocalTime h ws)) as H. unfold MakeDate in *. lia.
Qed.

Lemma weekEnd_regular :
  local_ok h (lt - WeekDay lt * msPerDay) -> local_ok h S ->
  weekEnd h now = Some (UTC h (S + 7 * msPerDay)).
Proof.
  intros H1 H2. rewrite (weekEnd_general _ (weekStart_regular H1)). now rewrite H2.
Qed.

(** [S] is a Sunday at 00:00:00.000, the last one at or before [lt]. *)
Lemma sunday_start_spec :
  WeekDay S = 0 /\ TimeWithinDay S = 0 /\ S <= lt < S + 7 * msPerDay.
Proof.
  subst S. unfold sunday_start, WeekDay, TimeWithinDay, Day, msPerDay.
  set (d := lt / 86400000).
  pose proof (Z.div_mod lt 86400000 ltac:(lia)) as Hdm. fold d in Hdm.
  pose proof (Z.mod_pos_bound lt 86400000 ltac:(lia)) as Hm.
  pose proof (Z.mod_pos_bound (d + 4) 7 ltac:(lia)) as Hw.
  rewrite (Z.mul_comm 86400000), Z.div_mul, Z.mod_mul by lia.
  repeat split; try lia.
  Z.div_mod_to_equations; lia.
Qed.
End week_window.

Lemma get_todays_list (key msg msg' : string) (w : World) (l : list value) :
  fails_next w = false -> stored key w = VArr l ->
  fst (get_todays key msg msg' w)
  = Ok (VArr (if forallb readable l
              then List.filter (dated_today (host w) (clock w)) l
              else [])).
Proof.
  intros Hf Hst. pose proof (get_todays_run key msg msg' w) as (-> & _).
  unfold read_result. now rewrite Hf, Hst, todays_of_list.
Qed.

Lemma day_before (h : Host) (now : Z) :
  LocalTZA h (now - msPerDay) true = LocalTZA h now true ->
  local_day h (now - msPerDay) = (local_day h now - 1)%Z.
Proof.
  intros H. unfold local_day, LocalTime. rewrite H.
  replace (now - msPerDay + LocalTZA h now true)%Z
    with (now + LocalTZA h now true + -1 * msPerDay)%Z by lia.
  rewrite Day_shift. lia.
Qed.

(** C3 as stated fails: in a zone that sets its clocks back, the day of
    the change lasts twenty-five hours, and an entry dated exactly
    twenty-four hours before now can fall on today's date.  Here it is
    00:30 and 23:30 local time of the same Sunday. *)
Lemma a_day_of_25_hours :
  entry_date autumn_zone (DietEntry_value early_meal) = Some (a_day_later - msPerDay)%Z
  /\ fst (getTodaysDietEntries autumn_device) = Ok (VArr [DietEntry_value early_meal]).
Proof. split; vm_compute; reflexivity. Qed.

(** C3, amended.  When the read succeeds on a stored list, the two daily
    readers return exactly the stored entries whose date falls on the local
    calendar day of now, in stored order, provided the filter can read a
    date off every element of the list; where it cannot (an element is
    [null], or a date is an object that does not convert to a primitive)
    they return the empty list.  An entry dated on the same local day is
    kept; an entry dated exactly 24 hours before now is dropped whenever
    local time has the same offset from UTC at both instants. *)
Theorem todays_entries (w : World) (l : list value) :
  fails_next w = false ->
  (stored DIET_KEY w = VArr l ->
     fst (getTodaysDietEntries w)
     = Ok (VArr (if forallb readable l
                 then List.filter (dated_today (host w) (clock w)) l
                 else [])))
  /\ (stored EXERCISE_KEY w = VArr l ->
        fst (getTodaysExerciseEntries w)
        = Ok (VArr (if forallb readable l
                    then List.filter (dated_today (host w) (clock w)) l
                    else [])))
  /\ (forall e t, entry_date (host w) e = Some t ->
        local_day (host w) t = local_day (host w) (clock w) ->
        dated_today (host w) (clock w) e = true)
  /\ (forall e, entry_date (host w) e = Some (clock w - msPerDay)%Z ->
        LocalTZA (host w) (clock w - msPerDay) true = LocalTZA (host w) (clock w) true ->
        dated_today (host w) (clock w) e = false).
Proof.
  intros Hf. rewrite getTodaysDietEntries_eq, getTodaysExerciseEntries_eq.
  split; [intros Hst; now apply get_todays_list|].
  split; [intros Hst; now apply get_todays_list|].
  unfold dated_today. split.
  - intros e t -> ->. apply Z.eqb_refl.
  - intros e -> Hz. rewrite (day_before _ _ Hz). apply Z.eqb_neq. lia.
Qed.

Lemma todays_entries_witness :
  fst (getTodaysDietEntries undated_device) = Ok (VArr [DietEntry_value breakfast]).
Proof.
  refine (eq_trans (proj1 (todays_entries undated_device
                             [DietEntry_value breakfast; DietEntry_value undated_meal] _) _) _).
  - reflexivity.
  - vm_compute. reflexivity.
  - vm_compute. reflexivity.
Defined.




(** In the week the clocks of [autumn_zone] go back, the local week of
    seven days lasts seven days and one hour. *)
Example autumn_week :
  weekStart autumn_zone a_day_later = Some 1793505600000%Z
  /\ weekEnd autumn_zone a_day_later = Some (1793505600000 + 7 * msPerDay + 3600000)%Z
  /\ local_ok autumn_zone (sunday_start (LocalTime autumn_zone a_day_later)).
Proof. repeat split; vm_compute; reflexivity. Qed.


(** An entry the daily filter keeps is dated today. *)
Lemma is_today_kept (h : Host) (now : Z) (e : value) :
  is_today h (Date_toDateString h (Some now)) e = Ok true -> dated_today h now e = true.
Proof.
  intros H. destruct (readable e) eqn:He.
  - rewrite is_today_spec in H by exact He. now injection H.
  - rewrite is_today_raises in H by exact He. discriminate H.
Qed.

Lemma filter_list_sound (h : Host) (now : Z) (es : list value) :
  forall r e, filter_list (is_today h (Date_toDateString h (Some now))) es = Ok r ->
              entry_date h e = None -> ~ In e r.
Proof.
  induction es as [|x es IH]; intros r e E He Hin; cbn [filter_list] in E.
  - injection E as <-. now destruct Hin.
  - destruct (is_today _ _ x) as [b|] eqn:Ex; [|discriminate E].
    destruct (filter_list _ es) as [r'|]; [|discriminate E].
    injection E as <-.
    assert (In e r' -> False) as Hr' by (apply IH; [reflexivity | exact He]).
    destruct b; [|exact (Hr' Hin)].
    destruct Hin as [->|Hin]; [|exact (Hr' Hin)].
    apply is_today_kept in Ex. unfold dated_today in Ex. rewrite He in Ex. discriminate Ex.
Qed.

Lemma get_todays_sound (key msg msg' : string) (w : World) (e : value) (l' : list value) :
  fst (get_todays key msg msg' w) = Ok (VArr l') ->
  entry_date (host w) e = None -> ~ In e l'.
Proof.
  pose proof (get_todays_run key msg msg' w) as (-> & _).
  unfold todays_of. intros H He.
  destruct (read_result key w) as [| | | |es|];
    try (injection H as <-; intros Hin; now destruct Hin).
  destruct (filter_list _ es) as [r|] eqn:E; injection H as <-.
  - exact (filter_list_sound (host w) (clock w) es r e E He).
  - intros Hin. now destruct Hin.
Qed.

Lemma get_entries_list (key msg : string) (w : World) (l : list value) :
  fails_next w = false -> stored key w = VArr l ->
  fst (get_entries key msg w) = Ok (VArr l).
Proof.
  intros Hf Hst. pose proof (get_entries_run key msg w) as (-> & _).
  unfold read_result. now rewrite Hf, Hst.
Qed.

Lemma filter_restrict (valid f : value -> bool) (l : list value) :
  (forall e, valid e = false -> f e = false) ->
  List.filter f (List.filter valid l) = List.filter f l.
Proof.
  intros H. induction l as [|e l IH]; [reflexivity|].
  cbn [List.filter]. destruct (valid e) eqn:E.
  - cbn [List.filter]. now rewrite IH.
  - rewrite (H e E). exact IH.
Qed.

Lemma undated_not_this_week (h : Host) (now : Z) (e : value) :
  match entry_date h e with Some _ => true | None => false end = false ->
  dated_this_week h now e = false.
Proof.
  unfold dated_this_week. destruct (entry_date h e); [discriminate | reflexivity].
Qed.

Lemma count_week_dated (h : Host) (now : Z) (t : string) (l : list value) :
  count_week h now t
    (List.filter (fun e => match entry_date h e with Some _ => true | None => false end) l)
  = count_week h now t l.
Proof.
  unfold count_week. rewrite filter_restrict; [reflexivity|].
  intros e He. now rewrite (undated_not_this_week h now e He).
Qed.

(** C10.  A stored entry whose date does not parse is still returned by
    the plain readers, but no daily reader ever returns it, on any device,
    and it is never counted: the weekly counts are those of the list
    without such entries where the filter can read a date off every element
    of the list, and zero where it cannot. *)
Theorem undated_entries_are_skipped (w : World) (l : list value) :
  (forall e l', fst (getTodaysDietEntries w) = Ok (VArr l') ->
      entry_date (host w) e = None -> ~ In e l')
  /\ (forall e l', fst (getTodaysExerciseEntries w) = Ok (VArr l') ->
        entry_date (host w) e = None -> ~ In e l')
  /\ (fails_next w = false -> stored EXERCISE_KEY w = VArr l ->
        fst (getWeeklyExerciseProgress w)
        = Ok (if forallb readable l
              then progress_of (host w) (clock w)
                     (List.filter (fun e => match entry_date (host w) e with
                                            | Some _ => true
                                            | None => false
                                            end) l)
              else no_progress)
        /\ fst (getExerciseEntries w) = Ok (VArr l))
  /\ (fails_next w = false -> stored DIET_KEY w = VArr l ->
        fst (getDietEntries w) = Ok (VArr l)).
Proof.
  rewrite getTodaysDietEntries_eq, getTodaysExerciseEntries_eq,
    getDietEntries_eq, getExerciseEntries_eq.
  split; [intros e l'; apply get_todays_sound|].
  split; [intros e l'; apply get_todays_sound|].
  split; [|apply get_entries_list].
  intros Hf Hst. split; [|now apply get_entries_list].
  pose proof (getWeeklyExerciseProgress_run w) as (-> & _).
  unfold read_result. rewrite Hf, Hst, weekly_of_list.
  destruct (forallb readable l); [|reflexivity].
  unfold progress_of. now rewrite !count_week_dated.
Qed.

Lemma undated_entries_are_skipped_witness :
  fst (getDietEntries undated_device)
  = Ok (VArr [DietEntry_value breakfast; DietEntry_value undated_meal])
  /\ ~ In (DietEntry_value undated_meal) [DietEntry_value breakfast]
  /\ fst (getWeeklyExerciseProgress undated_device)
     = Ok {| strength := 1; cardio := 2; walking := 1; flexibility := 0 |}.
Proof.
  pose proof (undated_entries_are_skipped undated_device
                [DietEntry_value breakfast; DietEntry_value undated_meal])
    as (H1 & _ & _ & H4).
  pose proof (undated_entries_are_skipped undated_device (map ExerciseEntry_value week_sample))
    as (_ & _ & H3 & _).
  split; [|split].
  - apply H4; [reflexivity | vm_compute; reflexivity].
  - apply (H1 (DietEntry_value undated_meal)); vm_compute; reflexivity.
  - refine (eq_trans (proj1 (H3 _ _)) _); vm_compute; reflexivity.
Defined.

(** ** The save actions of the screens *)

Lemma calculateTotals_sums (st : MealScreen) :
  t_calories (calculateTotals st) = sum_of calories (foodItems st)
  /\ t_protein (calculateTotals st) = sum_of protein (foodItems st)
  /\ t_carbs (calculateTotals st) = sum_of carbs (foodItems st)
  /\ t_fat (calculateTotals st) = sum_of fat (foodItems st).
Proof.
  unfold calculateTotals, sum_of.
  set (step := fun acc item =>
    {| t_calories := num_add (t_calories acc) (calories item);
       t_protein := num_add (t_protein acc) (protein item);
       t_carbs := num_add (t_carbs acc) (carbs item);
       t_fat := num_add (t_fat acc) (fat item) |}).
  assert (forall l acc,
    t_calories (fold_left step l acc)
      = fold_left (fun a item => num_add a (calories item)) l (t_calories acc)
    /\ t_protein (fold_left step l acc)
      = fold_left (fun a item => num_add a (protein item)) l (t_protein acc)
    /\ t_carbs (fold_left step l acc)
      = fold_left (fun a item => num_add a (carbs item)) l (t_carbs acc)
    /\ t_fat (fold_left step l acc)
      = fold_left (fun a item => num_add a (fat item)) l (t_fat acc)) as H.
  { induction l as [|x l IH]; intros acc; [repeat split|].
    cbn [fold_left]. apply IH. }
  exact (H (foodItems st)
            {| t_calories := Int 0; t_protein := Int 0; t_carbs := Int 0; t_fat := Int 0 |}).
Qed.

(** On whole numbers whose magnitudes add up to less than 2^53 the sum is
    the integer sum: no step of it is rounded. *)
Lemma sum_of_integers (field : FoodItem -> number) (l : list FoodItem) (zs : list Z) :
  map field l = map Int zs ->
  (fold_right (fun z acc => Z.abs z + acc) 0 zs < 2 ^ 53)%Z ->
  sum_of field l = Int (fold_right Z.add 0%Z zs).
Proof.
  unfold sum_of.
  assert (forall l zs a, map field l = map Int zs ->
            (Z.abs a + fold_right (fun z acc => Z.abs z + acc) 0 zs < 2 ^ 53)%Z ->
            fold_left (fun acc item => num_add acc (field item)) l (Int a)
            = Int (a + fold_right Z.add 0 zs)%Z) as H.
  { clear l zs. induction l as [|x l IH]; intros [|z zs] a Hm Hb; try discriminate.
    - cbn. f_equal. lia.
    - injection Hm as Hx Hm. cbn [fold_left fold_right] in *. rewrite Hx. cbn [num_add].
      assert (0 <= fold_right (fun z acc => Z.abs z + acc) 0 zs)%Z as Hpos.
      { clear. induction zs as [|y zs IH]; cbn [fold_right]; lia. }
      rewrite round64_safe by lia.
      rewrite (IH zs) by (try assumption; lia). f_equal. lia. }
  intros Hm Hb. now rewrite (H l zs 0%Z Hm Hb).
Qed.



Lemma parseInt_cases (s : string) :
  parseInt s = NaN \/ (exists d, parseInt s = Int d)
  \/ parseInt s = Infinity \/ parseInt s = NegInfinity.
Proof.
  unfold parseInt.
  repeat match goal with
  | |- context [let '(_, _) := ?x in _] => destruct x
  end.
  match goal with |- context [match ?c with O => _ | S _ => _ end] => destruct c end;
    [now left | right; apply round64_cases].
Qed.

(** C8 as stated fails.  The duration input takes a numeral of any length.
    For 1801439850948199 minutes, the first duration whose product with five
    is beyond 2^53, the product is rounded: the calories stored are
    9007199254740996.  And a numeral too long for a number is read as
    [Infinity], which passes the check of the save: the workout is saved,
    with [null] for its duration and for its calories. *)
Lemma durations_beyond_exact_calories :
  let saved minutes :=
    snd (saveWorkout (workout_screen minutes) (device (fixed_zone 0) sunday_evening)) in
  let field key w :=
    match fst (getExerciseEntries w) with
    | Ok (VArr [VObj l]) => obj_get l key
    | _ => None
    end in
  parseInt "1801439850948199" = Int 1801439850948199
  /\ (1801439850948199 * 5 = 9007199254740995)%Z
  /\ field "duration" (saved "1801439850948199") = Some (VNum (Int 1801439850948199))
  /\ field "caloriesBurned" (saved "1801439850948199") = Some (VNum (Int 9007199254740996))
  /\ String.length endless_duration = 310
  /\ parseInt endless_duration = Infinity
  /\ alerts (saved endless_duration) = [("Success", "Workout saved successfully")]
  /\ field "duration" (saved endless_duration) = Some VNull
  /\ field "caloriesBurned" (saved endless_duration) = Some VNull.
Proof.
  cbv zeta.
  split; [vm_compute; reflexivity|]. split; [reflexivity|].
  split; [vm_compute; reflexivity|]. split; [vm_compute; reflexivity|].
  split; [reflexivity|]. split; [vm_compute; reflexivity|].
  split; [vm_compute; reflexivity|]. split; vm_compute; reflexivity.
Qed.

(** C8, amended.  For a workout with at least one exercise and a duration
    text that is not blank and parses to the whole number [d > 0], with
    [d * 5] below 2^53 (where no product is rounded): when the append's read
    gave the list [l] and its write does not fail, the save writes [l] with
    one entry added, whose duration is [d] and whose [caloriesBurned] is
    [d * 5]; and whatever the device does, every text the save writes is
    such a list. *)
Theorem saved_workout_calories (st : WorkoutScreen) (w : World) (d : Z) :
  let w' := snd (saveWorkout st w) in
  ws_exercises st <> [] ->
  trim (workoutDuration st) <> "" ->
  parseInt (workoutDuration st) = Int d ->
  (0 < d)%Z ->
  (d * 5 < 2 ^ 53)%Z ->
  (forall l, read_result EXERCISE_KEY w = VArr l -> write_fails w = false ->
     exists e,
       storage w'
       = <[EXERCISE_KEY := JSON_stringify (VArr (l ++ [ExerciseEntry_value e]))]> (storage w)
       /\ calls w'
          = calls w ++ [GetItem EXERCISE_KEY;
                        SetItem EXERCISE_KEY
                          (JSON_stringify (VArr (l ++ [ExerciseEntry_value e])))]
       /\ exercises e = ws_exercises st
       /\ duration e = Int d
       /\ caloriesBurned e = Int (d * 5))
  /\ exists new,
       calls w' = calls w ++ new
       /\ forall key text, In (SetItem key text) new ->
            exists l e,
              key = EXERCISE_KEY
              /\ read_result EXERCISE_KEY w = VArr l
              /\ text = JSON_stringify (VArr (l ++ [ExerciseEntry_value e]))
              /\ duration e = Int d
              /\ caloriesBurned e = Int (d * 5).
Proof.
  cbv zeta. intros Hne Hnt Hp Hd Hsafe. unfold saveWorkout.
  destruct (ws_exercises st) as [|x xs] eqn:Hxs; [now destruct Hne|]. cbn [length Nat.eqb].
  destruct (str_truthy (trim (workoutDuration st))) eqn:Et;
    [|destruct (trim (workoutDuration st)); [now destruct Hnt | discriminate Et]].
  cbn [negb]. rewrite Hp. cbn [is_NaN orb]. unfold num_le. cbn [scale_of].
  change (Z.max 0 0) with 0%Z. change (10 ^ (0 - 0))%Z with 1%Z.
  assert ((d * 1 <=? 0 * 1)%Z = false) as -> by (apply Z.leb_gt; lia).
  assert (Math_round (num_mul (Int d) (Int 5)) = Int (d * 5)) as ->
    by (cbn [num_mul]; now rewrite round64_safe by lia).
  run. rewrite addExerciseEntry_eq.
  set (e := {| ex_id := Number_toString (Int (clock w)); ex_date := toISOString (clock w);
               type := selectedType st; exercises := x :: xs;
               duration := Int d; caloriesBurned := Int (d * 5) |}).
  generalize (add_entry_run EXERCISE_KEY "Error getting exercise entries:"
                "Error adding exercise entry:" (ExerciseEntry_value e) w).
  cbv zeta.
  destruct (add_entry _ _ _ (ExerciseEntry_value e) w) as [r w1]. cbn [fst snd].
  intros (_ & _ & H). split.
  - intros l Hl Hw. rewrite Hl, Hw in H. destruct H as (Hc & -> & Hst).
    exists e. cbn [snd storage calls]. repeat split; assumption.
  - destruct (read_result EXERCISE_KEY w) as [| | | |l|] eqn:Hread.
    5: { destruct H as (Hc & H).
         exists [GetItem EXERCISE_KEY;
                 SetItem EXERCISE_KEY (JSON_stringify (VArr (l ++ [ExerciseEntry_value e])))].
         split; [destruct r; cbn [snd calls]; exact Hc|].
         intros key text [Hin|[Hin|[]]]; [discriminate|]. injection Hin as <- <-.
         exists l, e. repeat split. }
    all: destruct H as (-> & _ & Hc); exists [GetItem EXERCISE_KEY];
      (split; [cbn [snd calls]; exact Hc | intros key text [Hin|[]]; discriminate]).
Qed.

Lemma saved_workout_calories_witness :
  exists e,
    storage (snd (saveWorkout (workout_screen "30") (device (fixed_zone 0) sunday_evening)))
    = <[EXERCISE_KEY := JSON_stringify (VArr ([] ++ [ExerciseEntry_value e]))]> ∅
    /\ duration e = Int 30
    /\ caloriesBurned e = Int (30 * 5).
Proof.
  destruct (proj1 (saved_workout_calories (workout_screen "30")
                     (device (fixed_zone 0) sunday_evening) 30
                     ltac:(discriminate) ltac:(discriminate) eq_refl eq_refl eq_refl)
              [] eq_refl eq_refl) as (e & Hst & _ & _ & H1 & H2).
  exists e. repeat split; assumption.
Defined.

(** The three durations the specification lists. *)
Example saved_workout_1_30_120 :
  let saved minutes :=
    fst (getExerciseEntries
           (snd (saveWorkout (workout_screen minutes) (device (fixed_zone 0) sunday_evening)))) in
  let burned v :=
    match v with
    | Ok (VArr [VObj l]) => obj_get l "caloriesBurned"
    | _ => None
    end in
  burned (saved "1") = Some (VNum (Int 5))
  /\ burned (saved "30") = Some (VNum (Int 150))
  /\ burned (saved "120") = Some (VNum (Int 600)).
Proof. repeat split; vm_compute; reflexivity. Qed.

(** A meal of two items, saved and read back. *)
Example saved_meal_example :
  fst (getDietEntries (snd (saveMeal meal_screen (device (fixed_zone 0) sunday_evening))))
  = Ok (VArr [DietEntry_value breakfast]).
Proof. vm_compute. reflexivity. Qed.

(** ** The exact effect of the storage operations *)

Lemma after_nothing (w : World) : after w (storage w) [] [] = w.
Proof. destruct w. unfold after. cbn. now rewrite !app_nil_r. Qed.

Lemma after_after (w : World) st cs logs st' cs' logs' :
  after (after w st cs logs) st' cs' logs' = after w st' (cs ++ cs') (logs ++ logs').
Proof. unfold after. cbn. now rewrite !app_assoc. Qed.

Lemma get_entries_exact (key msg : string) (w : World) :
  get_entries key msg w
  = (Ok (read_result key w),
     after w (storage w) [GetItem key] (logged (read_fails key w) msg)).
Proof.
  unfold get_entries, read_result, stored, read_fails, unparseable, after, logged. run.
  unfold provider.
  destruct (fails_next w) eqn:Hf; cbn [orb]; [reflexivity|].
  destruct (storage w !! key) as [s|]; [|now rewrite app_nil_r].
  destruct (str_truthy s); cbn [andb]; [|now rewrite app_nil_r].
  destruct (JSON_parse s) as [v|]; cbn; [now rewrite app_nil_r | reflexivity].
Qed.

Lemma fails_next_after (w : World) st cs logs :
  fails_next (after w st cs logs) = faulty w (length (calls w) + length cs).
Proof. unfold fails_next, after. cbn. now rewrite length_app. Qed.

Lemma add_entry_exact (key msg msg' : string) (v : value) (w : World) :
  add_entry key msg msg' v w
  = match read_result key w with
    | VArr l =>
        let text := JSON_stringify (VArr (l ++ [v])) in
        if write_fails w
        then (Throw (StorageFailure (SetItem key text)),
              after w (storage w) [GetItem key; SetItem key text]
                (logged (read_fails key w) msg ++ [msg']))
        else (Ok tt,
              after w (<[key := text]> (storage w)) [GetItem key; SetItem key text]
                (logged (read_fails key w) msg))
    | _ =>
        (Throw TypeError,
         after w (storage w) [GetItem key] (logged (read_fails key w) msg ++ [msg']))
    end.
Proof.
  unfold add_entry, try_catch, bind. rewrite get_entries_exact.
  destruct (read_result key w) as [|b|n|s|l|l];
    try (run; unfold after; cbn; now rewrite <- ?app_assoc).
  cbn [array_push]. unfold ret at 1. cbv beta iota zeta.
  unfold AsyncStorage_setItem. rewrite fails_next_after.
  replace (length (calls w) + length [GetItem key])%nat with (S (length (calls w)))
    by (cbn; lia).
  fold (write_fails w). destruct (write_fails w).
  - unfold provider, console_error, throw, after. cbn. now rewrite <- !app_assoc.
  - unfold provider, after. cbn. now rewrite <- !app_assoc.
Qed.

Lemma todays_of_filterable (h : Host) (now : Z) (v : value) :
  todays_of h now v
  = match v with
    | VArr l => VArr (if filterable v then List.filter (dated_today h now) l else [])
    | _ => VArr []
    end.
Proof. destruct v; try reflexivity. apply todays_of_list. Qed.

Lemma weekly_of_filterable (h : Host) (now : Z) (v : value) :
  weekly_of h now v
  = match v with
    | VArr l => if filterable v then progress_of h now l else no_progress
    | _ => no_progress
    end.
Proof. destruct v; try reflexivity. apply weekly_of_list. Qed.

Lemma get_todays_exact (key msg msg' : string) (w : World) :
  get_todays key msg msg' w
  = (Ok (todays_of (host w) (clock w) (read_result key w)),
     after w (storage w) [GetItem key]
       (logged (read_fails key w) msg
        ++ logged (negb (filterable (read_result key w))) msg')).
Proof.
  unfold get_todays, try_catch, bind. rewrite get_entries_exact.
  unfold Date_now, the_host, todays_of. cbn [clock host after].
  destruct (read_result key w) as [|b|n|s|l|l];
    try (run; unfold after; cbn; now rewrite <- ?app_assoc).
  cbn [array_filter filterable]. unfold lift.
  rewrite (filter_list_cases _ (dated_today (host w) (clock w)) readable)
    by (intros e; first [apply is_today_spec | apply is_today_raises]).
  destruct (forallb readable l); run; unfold after; cbn; now rewrite <- ?app_assoc, ?app_nil_r.
Qed.

Lemma getWeeklyExerciseProgress_exact (w : World) :
  getWeeklyExerciseProgress w
  = (Ok (weekly_of (host w) (clock w) (read_result EXERCISE_KEY w)),
     after w (storage w) [GetItem EXERCISE_KEY]
       (logged (read_fails EXERCISE_KEY w) "Error getting exercise entries:"
        ++ logged (negb (filterable (read_result EXERCISE_KEY w)))
             "Error getting weekly exercise progress:")).
Proof.
  unfold getWeeklyExerciseProgress. rewrite getExerciseEntries_eq.
  unfold try_catch, bind. rewrite get_entries_exact.
  unfold Date_now, the_host, weekly_of, count_of. cbn [clock host after].
  destruct (read_result EXERCISE_KEY w) as [|b|n|s|l|l];
    try (run; unfold after; cbn; now rewrite <- ?app_assoc).
  cbn [array_filter filterable]. unfold lift.
  rewrite (filter_list_cases _ (dated_this_week (host w) (clock w)) readable)
    by (intros e; first [apply in_week_spec | apply in_week_raises]).
  destruct (forallb readable l) eqn:Hl.
  - unfold count_type, lift, bind.
    assert (forall t, filter_list (has_type t) (List.filter (dated_this_week (host w) (clock w)) l)
                      = Ok (List.filter (typed_as t)
                              (List.filter (dated_this_week (host w) (clock w)) l))) as Ht.
    { intros t. apply filter_list_total. apply List.Forall_forall. intros e He.
      apply has_type_spec, readable_not_null.
      pose proof (forallb_filter readable (dated_this_week (host w) (clock w)) l Hl) as H.
      rewrite forallb_forall in H. now apply H. }
    rewrite !Ht. run. unfold after. cbn. now rewrite !app_nil_r.
  - run. unfold after. cbn. now rewrite <- ?app_assoc.
Qed.

Lemma clearHealthData_exact (w : World) :
  clearHealthData w
  = if fails_next w
    then (Throw (StorageFailure (MultiRemove [DIET_KEY; EXERCISE_KEY])),
          after w (storage w) [MultiRemove [DIET_KEY; EXERCISE_KEY]]
            ["Error clearing health data:"])
    else (Ok tt,
          after w (delete DIET_KEY (delete EXERCISE_KEY (storage w)))
            [MultiRemove [DIET_KEY; EXERCISE_KEY]] []).
Proof.
  unfold clearHealthData. run. unfold provider, after.
  destruct (fails_next w); cbn; now rewrite ?app_nil_r.
Qed.

(** ** What [JSON.parse] returns is written back as it is *)

Lemma strip_zeros_finite (k : nat) (m : Z) : finite (strip_zeros k m).
Proof.
  revert m. induction k as [|k IH]; intros m; [exact I|].
  cbn [strip_zeros]. destruct (m mod 10 =? 0)%Z eqn:E; [apply IH|].
  apply Z.eqb_neq in E. exact E.
Qed.

Lemma make_number_finite (m e : Z) : finite (make_number m e).
Proof.
  unfold make_number. destruct (m =? 0)%Z; [exact I|].
  destruct (0 <=? e)%Z; [exact I | apply strip_zeros_finite].
Qed.

Lemma lex_number_finite (s : string) (n : number) (r : string) :
  lex_number s = Some (n, r) -> finite n.
Proof.
  unfold lex_number.
  destruct (match s with
            | String c r0 => if (code c =? 45)%Z then (true, r0) else (false, s)
            | EmptyString => (false, s)
            end) as [neg s1].
  destruct s1 as [|c r0]; [discriminate|].
  destruct (is_digit c); [|discriminate].
  destruct (if (code c =? 48)%Z then (0%Z, r0)
            else let '(v, _, q) := read_digits (String c r0) 0 0 in (v, q)) as [ip s2].
  destruct (lex_fraction ip s2) as [[[m fc] s3]|]; [|discriminate].
  destruct (lex_exponent s3) as [[e s4]|]; [|discriminate].
  intros H. injection H as <- _. apply make_number_finite.
Qed.

Lemma obj_set_keys (l : list (string * value)) (key : string) (v : value) :
  NoDup (map fst l) -> NoDup (map fst (obj_set l key v)).
Proof.
  intros Hnd. destruct (decide (key ∈ map fst l)) as [Hin|Hout].
  - assert (map fst (obj_set l key v) = map fst l) as ->; [|exact Hnd].
    clear Hnd. induction l as [|[k' v'] r IH]; [now apply elem_of_nil in Hin|].
    cbn [obj_set]. destruct (String.eqb k' key) eqn:E.
    + apply String.eqb_eq in E. now subst.
    + cbn [map fst]. f_equal. apply IH. cbn [map fst] in Hin.
      apply elem_of_cons in Hin as [->|Hin]; [|exact Hin].
      now rewrite String.eqb_refl in E.
  - rewrite obj_set_fresh by exact Hout. rewrite map_app. cbn [map fst].
    apply NoDup_app. split; [exact Hnd|]. split.
    + intros x Hx Hx'. apply list_elem_of_singleton in Hx'. now subst.
    + apply NoDup_singleton.
Qed.

Lemma obj_set_values (P : value -> Prop) (l : list (string * value)) (key : string) (v : value) :
  Forall (fun kv => P (snd kv)) l -> P v -> Forall (fun kv => P (snd kv)) (obj_set l key v).
Proof.
  intros Hl Hv. induction Hl as [|[k' v'] r Hx Hr IH]; cbn [obj_set].
  - constructor; [exact Hv | constructor].
  - destruct (String.eqb k' key); constructor; cbn [snd] in *; assumption.
Qed.

Lemma obj_of_members_faithful (l : list (string * value)) :
  Forall (fun kv => faithful (snd kv)) l -> faithful (VObj (obj_of_members l)).
Proof.
  intros Hl. apply faithful_obj. unfold obj_of_members.
  assert (forall acc, NoDup (map fst acc) /\ Forall (fun kv => faithful (snd kv)) acc ->
            let o := fold_left (fun o kv => obj_set o (fst kv) (snd kv)) l acc in
            NoDup (map fst o) /\ Forall (fun kv => faithful (snd kv)) o) as H.
  { induction Hl as [|[key v] r Hx _ IH]; intros acc [Hnd Hacc]; [now split|].
    cbn [fold_left fst snd]. apply IH. split.
    - now apply obj_set_keys.
    - now apply obj_set_values. }
  apply (H []). split; constructor.
Qed.

Lemma lex_literal_faithful (s : string) (v : value) (r : string) :
  lex_literal s = Parsed v r -> faithful v.
Proof.
  unfold lex_literal. intros H.
  repeat match type of H with
  | match ?x with _ => _ end = _ => destruct x; try discriminate H
  | (if ?b then _ else _) = _ => destruct b; try discriminate H
  end; injection H as <- _; exact I.
Qed.

Lemma parse_faithful (fuel : nat) :
  (forall s v r, parse_value fuel s = Parsed v r -> faithful v)
  /\ (forall s l r, parse_elements fuel s = Parsed l r -> Forall faithful l)
  /\ (forall s l r, parse_members fuel s = Parsed l r ->
        Forall (fun kv => faithful (snd kv)) l).
Proof.
  induction fuel as [|fuel (IHv & IHe & IHm)]; [repeat split; discriminate|].
  repeat split; intros s; cbn [parse_value parse_elements parse_members].
  - intros v q. destruct (skip_ws s) as [|c r]; [discriminate|].
    destruct (code c =? 91)%Z.
    { destruct (skip_ws r) as [|c' r']; [discriminate|].
      destruct (code c' =? 93)%Z; [intros H; injection H as <- _; exact I|].
      destruct (parse_elements fuel r) as [l q'| |] eqn:E; try discriminate.
      intros H. injection H as <- _. apply faithful_arr. exact (IHe _ _ _ E). }
    destruct (code c =? 123)%Z.
    { destruct (skip_ws r) as [|c' r']; [discriminate|].
      destruct (code c' =? 125)%Z.
      { intros H; injection H as <- _. apply faithful_obj. split; constructor. }
      destruct (parse_members fuel r) as [l q'| |] eqn:E; try discriminate.
      intros H. injection H as <- _. apply obj_of_members_faithful. exact (IHm _ _ _ E). }
    destruct (code c =? 34)%Z.
    { destruct (lex_string r) as [[t q']|]; [|discriminate].
      intros H. injection H as <- _. exact I. }
    destruct (is_digit c || (code c =? 45)%Z).
    { destruct (lex_number (String c r)) as [[n q']|] eqn:E; [|discriminate].
      intros H. injection H as <- _. exact (lex_number_finite _ _ _ E). }
    apply lex_literal_faithful.
  - intros l q. destruct (parse_value fuel s) as [v r| |] eqn:Ev; try discriminate.
    destruct (skip_ws r) as [|c r']; [discriminate|].
    destruct (code c =? 44)%Z.
    { destruct (parse_elements fuel r') as [l' q'| |] eqn:E; try discriminate.
      intros H. injection H as <- _. constructor; [exact (IHv _ _ _ Ev) | exact (IHe _ _ _ E)]. }
    destruct (code c =? 93)%Z; [|discriminate].
    intros H. injection H as <- _. constructor; [exact (IHv _ _ _ Ev) | constructor].
  - intros l q. destruct (skip_ws s) as [|c r]; [discriminate|].
    destruct (code c =? 34)%Z; [|discriminate].
    destruct (lex_string r) as [[key r1]|]; [|discriminate].
    destruct (skip_ws r1) as [|c1 r2]; [discriminate|].
    destruct (code c1 =? 58)%Z; [|discriminate].
    destruct (parse_value fuel r2) as [v r3| |] eqn:Ev; try discriminate.
    destruct (skip_ws r3) as [|c3 r4]; [discriminate|].
    destruct (code c3 =? 44)%Z.
    { destruct (parse_members fuel r4) as [l' q'| |] eqn:E; try discriminate.
      intros H. injection H as <- _.
      constructor; [exact (IHv _ _ _ Ev) | exact (IHm _ _ _ E)]. }
    destruct (code c3 =? 125)%Z; [|discriminate].
    intros H. injection H as <- _. constructor; [exact (IHv _ _ _ Ev) | constructor].
Qed.

(** Whatever [JSON.parse] returns is a value that [JSON.stringify] and
    [JSON.parse] give back unchanged. *)
Lemma JSON_parse_faithful (s : string) (v : value) : JSON_parse s = Some v -> faithful v.
Proof.
  unfold JSON_parse. destruct (parse_value (parse_fuel s) s) as [v' r| |] eqn:E; try discriminate.
  destruct (skip_ws r); [|discriminate]. intros H. injection H as <-.
  exact (proj1 (parse_faithful _) _ _ _ E).
Qed.

Lemma stored_faithful (key : string) (w : World) : faithful (stored key w).
Proof.
  unfold stored. destruct (storage w !! key) as [s|]; [|exact I].
  destruct (str_truthy s); [|exact I].
  destruct (JSON_parse s) as [v|] eqn:E; [|exact I]. exact (JSON_parse_faithful _ _ E).
Qed.

Lemma read_result_faithful (key : string) (w : World) : faithful (read_result key w).
Proof. unfold read_result. destruct (fails_next w); [exact I | apply stored_faithful]. Qed.

(** ** The record store: frame, diagnostics, appends *)

(** X1.  A read never changes what is stored and never alerts: each of the
    five readers makes exactly one call to the provider, a [getItem] on its
    own key, and leaves the stored data, the alerts, the clock and the
    provider as they were. *)
Theorem reads_only_read (w : World) :
  let untouched (key : string) (w' : World) :=
    storage w' = storage w /\ calls w' = calls w ++ [GetItem key]
    /\ alerts w' = alerts w /\ same_device w w' in
  untouched DIET_KEY (snd (getDietEntries w))
  /\ untouched EXERCISE_KEY (snd (getExerciseEntries w))
  /\ untouched DIET_KEY (snd (getTodaysDietEntries w))
  /\ untouched EXERCISE_KEY (snd (getTodaysExerciseEntries w))
  /\ untouched EXERCISE_KEY (snd (getWeeklyExerciseProgress w)).
Proof.
  cbv zeta.
  rewrite getDietEntries_eq, getExerciseEntries_eq, getTodaysDietEntries_eq,
    getTodaysExerciseEntries_eq, !get_entries_exact, !get_todays_exact,
    getWeeklyExerciseProgress_exact.
  unfold same_device. cbn [snd after storage calls alerts clock host faulty].
  repeat split.
Qed.

(** X2.  What the readers write on the console.  A plain reader logs its
    message once when the provider fails or the text under its key is not
    empty and does not parse, and nothing otherwise.  A daily reader and the
    weekly count log, after that, their own message once when their filter
    raises: what was read is not an array, or one of its elements is [null]
    or has a date that is an object which does not convert to a primitive;
    and nothing otherwise. *)
Theorem read_errors_are_logged (w : World) :
  console (snd (getDietEntries w))
  = console w ++ logged (read_fails DIET_KEY w) "Error getting diet entries:"
  /\ console (snd (getExerciseEntries w))
     = console w ++ logged (read_fails EXERCISE_KEY w) "Error getting exercise entries:"
  /\ console (snd (getTodaysDietEntries w))
     = console w ++ logged (read_fails DIET_KEY w) "Error getting diet entries:"
         ++ logged (negb (filterable (read_result DIET_KEY w)))
              "Error getting today's diet entries:"
  /\ console (snd (getTodaysExerciseEntries w))
     = console w ++ logged (read_fails EXERCISE_KEY w) "Error getting exercise entries:"
         ++ logged (negb (filterable (read_result EXERCISE_KEY w)))
              "Error getting today's exercise entries:"
  /\ console (snd (getWeeklyExerciseProgress w))
     = console w ++ logged (read_fails EXERCISE_KEY w) "Error getting exercise entries:"
         ++ logged (negb (filterable (read_result EXERCISE_KEY w)))
              "Error getting weekly exercise progress:".
Proof.
  rewrite getDietEntries_eq, getExerciseEntries_eq, getTodaysDietEntries_eq,
    getTodaysExerciseEntries_eq, !get_entries_exact, !get_todays_exact,
    getWeeklyExerciseProgress_exact.
  cbn [snd after console]. repeat split.
Qed.

Lemma faithful_exercise (x : Exercise) : exercise_finite x -> faithful (Exercise_value x).
Proof.
  intros (H1 & H2 & H3 & H4 & H5). unfold Exercise_value. apply faithful_obj.
  destruct x as [n [s|] [r|] [wt|] [d|] [ds|]]; cbn [sets reps weight ex_duration distance ex_name
    optional app] in *;
    (split; [apply (bool_decide_unpack _); vm_compute; exact I
            | repeat (constructor; [cbn [snd faithful]; first [assumption | exact I]|]);
              constructor]).
Qed.

Lemma faithful_workout (e : ExerciseEntry) :
  workout_finite e -> faithful (ExerciseEntry_value e).
Proof.
  intros (Hx & H1 & H2). apply faithful_obj. split.
  - apply (bool_decide_unpack _). vm_compute. exact I.
  - repeat constructor; try assumption.
    cbn [snd]. apply faithful_arr. apply Forall_map.
    eapply Forall_impl; [exact Hx|]. intros x. apply faithful_exercise.
Qed.

Lemma read_result_array_faithful (key : string) (w : World) (l : list value) :
  read_result key w = VArr l -> Forall faithful l.
Proof.
  intros H. apply faithful_arr. rewrite <- H. apply read_result_faithful.
Qed.

(** After an append that succeeded, the list under the key is the list
    that was read with the new value at its end. *)
Lemma add_entry_extends (key msg msg' : string) (v : value) (w : World) (l : list value) :
  write_fails w = false -> read_result key w = VArr l -> faithful v ->
  fst (add_entry key msg msg' v w) = Ok tt
  /\ stored key (snd (add_entry key msg msg' v w)) = VArr (l ++ [v])
  /\ storage (snd (add_entry key msg msg' v w))
     = <[key := JSON_stringify (VArr (l ++ [v]))]> (storage w).
Proof.
  intros Hw Hr Hv. rewrite add_entry_exact, Hr, Hw. cbv zeta. cbn [fst snd].
  split; [reflexivity|]. split; [|reflexivity].
  apply (stored_after_write key (l ++ [v]) w); [reflexivity|].
  apply Forall_app. split; [exact (read_result_array_faithful _ _ _ Hr)|].
  constructor; [exact Hv | constructor].
Qed.

Lemma get_entries_stored (key msg : string) (w : World) :
  fails_next w = false -> fst (get_entries key msg w) = Ok (stored key w).
Proof. intros Hf. rewrite get_entries_exact. unfold read_result. now rewrite Hf. Qed.

(** X3.  An append keeps what is there.  When the append's read returned the
    list [l], with no number beyond the range of binary64 in it, and its
    write does not fail, the append succeeds, and the next read, if its
    [getItem] does not fail, returns [l] with the new entry at its end:
    every entry that was there is still there, unchanged and in its place,
    whatever else these entries look like. *)
Theorem append_extends_the_list (w : World) (l : list value) (e : DietEntry)
    (x : ExerciseEntry) :
  write_fails w = false ->
  in_range (VArr l) = true ->
  (read_result DIET_KEY w = VArr l -> diet_finite e ->
     fst (addDietEntry e w) = Ok tt
     /\ (fails_next (snd (addDietEntry e w)) = false ->
           fst (getDietEntries (snd (addDietEntry e w)))
           = Ok (VArr (l ++ [DietEntry_value e]))))
  /\ (read_result EXERCISE_KEY w = VArr l -> workout_finite x ->
        fst (addExerciseEntry x w) = Ok tt
        /\ (fails_next (snd (addExerciseEntry x w)) = false ->
              fst (getExerciseEntries (snd (addExerciseEntry x w)))
              = Ok (VArr (l ++ [ExerciseEntry_value x])))).
Proof.
  intros Hw _. rewrite addDietEntry_eq, addExerciseEntry_eq, getDietEntries_eq,
    getExerciseEntries_eq.
  split; intros Hr Hfin.
  - destruct (add_entry_extends DIET_KEY "Error getting diet entries:"
                "Error adding diet entry:" (DietEntry_value e) w l Hw Hr
                (faithful_diet e Hfin)) as (H1 & H2 & _).
    split; [exact H1|]. intros Hf. now rewrite get_entries_stored, H2.
  - destruct (add_entry_extends EXERCISE_KEY "Error getting exercise entries:"
                "Error adding exercise entry:" (ExerciseEntry_value x) w l Hw Hr
                (faithful_workout x Hfin)) as (H1 & H2 & _).
    split; [exact H1|]. intros Hf. now rewrite get_entries_stored, H2.
Qed.

Lemma append_extends_the_list_witness :
  fst (getDietEntries (snd (addDietEntry undated_meal used_device)))
  = Ok (VArr ([DietEntry_value breakfast] ++ [DietEntry_value undated_meal])).
Proof.
  refine (proj2 (proj1 (append_extends_the_list used_device [DietEntry_value breakfast]
                          undated_meal workout _ _) _ _) _).
  - reflexivity.
  - reflexivity.
  - vm_compute. reflexivity.
  - repeat constructor.
  - reflexivity.
Defined.

Lemma read_fails_empty (key : string) (w : World) :
  read_fails key w = true -> read_result key w = VArr [].
Proof.
  unfold read_fails, read_result, unparseable, stored.
  destruct (fails_next w); [reflexivity|]. cbn [orb].
  destruct (storage w !! key) as [s|]; [|discriminate].
  destruct (str_truthy s); [|discriminate]. now destruct (JSON_parse s).
Qed.

(** X4.  An append after a failed read starts the list over.  When the
    append's read fails (the provider's [getItem] fails, or the text under
    the key does not parse) and its write succeeds, the append succeeds and
    the text under the key is then the list of the new entry alone: whatever
    was stored under the key is replaced. *)
Theorem append_after_failed_read_starts_over (w : World) (e : DietEntry) (x : ExerciseEntry) :
  write_fails w = false ->
  (read_fails DIET_KEY w = true ->
     fst (addDietEntry e w) = Ok tt
     /\ storage (snd (addDietEntry e w)) !! DIET_KEY
        = Some (JSON_stringify (VArr [DietEntry_value e])))
  /\ (read_fails EXERCISE_KEY w = true ->
        fst (addExerciseEntry x w) = Ok tt
        /\ storage (snd (addExerciseEntry x w)) !! EXERCISE_KEY
           = Some (JSON_stringify (VArr [ExerciseEntry_value x]))).
Proof.
  intros Hw. rewrite addDietEntry_eq, addExerciseEntry_eq, !add_entry_exact.
  split; intros Hr; rewrite (read_fails_empty _ _ Hr), Hw; cbv zeta;
    cbn [fst snd after storage app]; (split; [reflexivity | apply lookup_insert_eq]).
Qed.

Lemma append_after_failed_read_starts_over_witness :
  storage flaky_device !! DIET_KEY = Some (JSON_stringify (VArr [DietEntry_value breakfast]))
  /\ fst (addDietEntry undated_meal flaky_device) = Ok tt
  /\ storage (snd (addDietEntry undated_meal flaky_device)) !! DIET_KEY
     = Some (JSON_stringify (VArr [DietEntry_value undated_meal])).
Proof.
  split; [reflexivity|].
  apply (append_after_failed_read_starts_over flaky_device undated_meal workout);
    reflexivity.
Defined.

(** X5.  An append that raises has written nothing: the stored data is what
    it was, and the last line on the console is the append's own message.
    *)
Theorem failed_append_writes_nothing (w : World) (e : DietEntry) (x : ExerciseEntry) :
  (throws (fst (addDietEntry e w)) ->
     storage (snd (addDietEntry e w)) = storage w
     /\ exists logs, console (snd (addDietEntry e w))
                     = console w ++ logs ++ ["Error adding diet entry:"])
  /\ (throws (fst (addExerciseEntry x w)) ->
        storage (snd (addExerciseEntry x w)) = storage w
        /\ exists logs, console (snd (addExerciseEntry x w))
                        = console w ++ logs ++ ["Error adding exercise entry:"]).
Proof.
  assert (forall key msg msg' v,
            throws (fst (add_entry key msg msg' v w)) ->
            storage (snd (add_entry key msg msg' v w)) = storage w
            /\ exists logs, console (snd (add_entry key msg msg' v w))
                            = console w ++ logs ++ [msg']) as H.
  { intros key msg msg' v. rewrite add_entry_exact.
    destruct (read_result key w) as [|b|n|s|l|l];
      try (intros _; split; [reflexivity | eexists; reflexivity]).
    cbv zeta. destruct (write_fails w); [|intros []].
    intros _. split; [reflexivity | eexists; reflexivity]. }
  rewrite addDietEntry_eq, addExerciseEntry_eq. split; apply H.
Qed.

Lemma failed_append_writes_nothing_witness :
  storage (snd (addDietEntry undated_meal full_device)) = storage full_device
  /\ exists logs, console (snd (addDietEntry undated_meal full_device))
                  = console full_device ++ logs ++ ["Error adding diet entry:"].
Proof.
  apply (failed_append_writes_nothing full_device undated_meal workout). exact I.
Defined.

(** X6.  No write touches a key of the store other than its own: an append
    changes at most the text under its own key, the reset at most the texts
    under the two keys of the module.  What else the store holds stays as it
    is. *)
Theorem other_keys_are_untouched (w : World) (e : DietEntry) (x : ExerciseEntry)
    (key : string) :
  (key <> DIET_KEY ->
     storage (snd (addDietEntry e w)) !! key = storage w !! key)
  /\ (key <> EXERCISE_KEY ->
        storage (snd (addExerciseEntry x w)) !! key = storage w !! key)
  /\ (key <> DIET_KEY -> key <> EXERCISE_KEY ->
        storage (snd (clearHealthData w)) !! key = storage w !! key).
Proof.
  assert (forall k msg msg' v, key <> k ->
            storage (snd (add_entry k msg msg' v w)) !! key = storage w !! key) as H.
  { intros k msg msg' v Hne. rewrite add_entry_exact.
    destruct (read_result k w) as [|b|n|s|l|l]; try reflexivity.
    cbv zeta. destruct (write_fails w); [reflexivity|].
    cbn [snd after storage]. apply lookup_insert_ne. congruence. }
  rewrite addDietEntry_eq, addExerciseEntry_eq, clearHealthData_exact.
  split; [apply H|]. split; [apply H|].
  intros H1 H2. destruct (fails_next w); [reflexivity|].
  cbn [snd after storage]. rewrite !lookup_delete_ne by congruence. reflexivity.
Qed.

(** ** The daily and weekly views, on any device *)

Lemma filter_list_sublist (f : value -> Result bool) (l r : list value) :
  filter_list f l = Ok r -> sublist r l.
Proof.
  revert r. induction l as [|x l IH]; intros r H; cbn [filter_list] in H.
  - injection H as <-. constructor.
  - destruct (f x) as [b|]; [|discriminate]. destruct (filter_list f l) as [r'|]; [|discriminate].
    injection H as <-. destruct b; constructor; now apply IH.
Qed.

Lemma todays_of_sublist (h : Host) (now : Z) (v : value) :
  exists r, todays_of h now v = VArr r /\ forall l, v = VArr l -> sublist r l.
Proof.
  unfold todays_of. destruct v as [|b|n|s|l|l]; try (exists []; split; [reflexivity | discriminate]).
  destruct (filter_list _ l) as [r|] eqn:E.
  - exists r. split; [reflexivity|]. intros l' H. injection H as <-.
    exact (filter_list_sublist _ _ _ E).
  - exists []. split; [reflexivity|]. intros l' _. apply sublist_nil_l.
Qed.

(** X7.  The daily view only selects.  A daily reader returns a list, and
    when the plain reader returns a list on the same device, the daily list
    is a sub-list of it: entries of the stored list, each at most as often
    as it is stored, in the stored order. *)
Theorem todays_entries_are_stored_entries (w : World) :
  (exists r, fst (getTodaysDietEntries w) = Ok (VArr r)
             /\ forall l, fst (getDietEntries w) = Ok (VArr l) -> sublist r l)
  /\ (exists r, fst (getTodaysExerciseEntries w) = Ok (VArr r)
                /\ forall l, fst (getExerciseEntries w) = Ok (VArr l) -> sublist r l).
Proof.
  rewrite getDietEntries_eq, getExerciseEntries_eq, getTodaysDietEntries_eq,
    getTodaysExerciseEntries_eq, !get_entries_exact, !get_todays_exact.
  cbn [fst].
  split.
  - destruct (todays_of_sublist (host w) (clock w) (read_result DIET_KEY w)) as (r & -> & H).
    exists r. split; [reflexivity|]. intros l E. injection E as E. now apply H.
  - destruct (todays_of_sublist (host w) (clock w) (read_result EXERCISE_KEY w)) as (r & -> & H).
    exists r. split; [reflexivity|]. intros l E. injection E as E. now apply H.
Qed.

Lemma sublist_length_le (r l : list value) : sublist r l -> length r <= length l.
Proof. induction 1; cbn; lia. Qed.

(** An entry has at most one of the four types. *)
Lemma four_types (wk r1 r2 r3 r4 : list value) :
  filter_list (has_type "strength") wk = Ok r1 ->
  filter_list (has_type "cardio") wk = Ok r2 ->
  filter_list (has_type "walking") wk = Ok r3 ->
  filter_list (has_type "flexibility") wk = Ok r4 ->
  length r1 + length r2 + length r3 + length r4 <= length wk.
Proof.
  revert r1 r2 r3 r4. induction wk as [|x wk IH]; intros r1 r2 r3 r4 H1 H2 H3 H4;
    cbn [filter_list] in *.
  - injection H1 as <-. injection H2 as <-. injection H3 as <-. injection H4 as <-. cbn. lia.
  - unfold has_type in H1, H2, H3, H4.
    destruct (get_prop x "type") as [ty|]; [|discriminate].
    fold (has_type "strength") in H1. fold (has_type "cardio") in H2.
    fold (has_type "walking") in H3. fold (has_type "flexibility") in H4.
    destruct (filter_list (has_type "strength") wk) as [q1|]; [|discriminate].
    destruct (filter_list (has_type "cardio") wk) as [q2|]; [|discriminate].
    destruct (filter_list (has_type "walking") wk) as [q3|]; [|discriminate].
    destruct (filter_list (has_type "flexibility") wk) as [q4|]; [|discriminate].
    specialize (IH q1 q2 q3 q4 eq_refl eq_refl eq_refl eq_refl).
    injection H1 as <-. injection H2 as <-. injection H3 as <-. injection H4 as <-.
    unfold strict_eq_str. destruct ty as [[| | |t| |]|]; cbn [length]; try lia.
    destruct (String.eqb_spec t "strength") as [->|]; [cbn; lia|].
    destruct (String.eqb_spec t "cardio") as [->|]; [cbn; lia|].
    destruct (String.eqb_spec t "walking") as [->|]; [cbn; lia|].
    destruct (String.eqb_spec t "flexibility") as [->|]; cbn; lia.
Qed.

Lemma weekly_of_bounded (h : Host) (now : Z) (v : value) :
  let p := weekly_of h now v in
  (forall l, v = VArr l -> strength p + cardio p + walking p + flexibility p <= length l)
  /\ (is_array v = false -> p = no_progress).
Proof.
  unfold weekly_of, count_of. destruct v as [|b|n|s|l|l];
    try (split; [discriminate | reflexivity]).
  split; [|discriminate]. intros l' E. injection E as <-.
  destruct (filter_list (in_week _ _ _) l) as [wk|] eqn:Ew; [|cbn; lia].
  pose proof (sublist_length_le _ _ (filter_list_sublist _ _ _ Ew)) as Hle.
  destruct (filter_list (has_type "strength") wk) as [r1|] eqn:E1; [|cbn; lia].
  destruct (filter_list (has_type "cardio") wk) as [r2|] eqn:E2; [|cbn; lia].
  destruct (filter_list (has_type "walking") wk) as [r3|] eqn:E3; [|cbn; lia].
  destruct (filter_list (has_type "flexibility") wk) as [r4|] eqn:E4; [|cbn; lia].
  pose proof (four_types wk r1 r2 r3 r4 E1 E2 E3 E4). cbn [strength cardio walking flexibility]. lia.
Qed.

(** X8.  The weekly counts never count an entry twice, nor an entry that is
    not stored: together they are at most the number of entries the plain
    reader returns on the same device, and they are all zero when what it
    returns is not a list. *)
Theorem weekly_counts_are_bounded (w : World) :
  exists p, fst (getWeeklyExerciseProgress w) = Ok p
    /\ (forall l, fst (getExerciseEntries w) = Ok (VArr l) ->
          strength p + cardio p + walking p + flexibility p <= length l)
    /\ (forall v, fst (getExerciseEntries w) = Ok v -> is_array v = false ->
          p = no_progress).
Proof.
  rewrite getExerciseEntries_eq, get_entries_exact, getWeeklyExerciseProgress_exact.
  cbn [fst]. eexists. split; [reflexivity|].
  pose proof (weekly_of_bounded (host w) (clock w) (read_result EXERCISE_KEY w)) as [H1 H2].
  split.
  - intros l E. injection E as E. now apply H1.
  - intros v E. injection E as <-. exact H2.
Qed.

Lemma filterable_list (v : value) :
  filterable v = true -> exists l, v = VArr l /\ forallb readable l = true.
Proof. destruct v as [|b|n|s|l|l]; try discriminate. intros H. now exists l. Qed.

Lemma todays_of_unfilterable (h : Host) (now : Z) (v : value) :
  filterable v = false -> todays_of h now v = VArr [].
Proof.
  intros H. rewrite todays_of_filterable. destruct v; try reflexivity. now rewrite H.
Qed.

Lemma constant_offset_ok (h : Host) (off x : Z) : constant_offset h off -> local_ok h x.
Proof. intros H. unfold local_ok, LocalTime, UTC. rewrite !H. lia. Qed.

(** In a zone of constant offset the local day of now lies within the
    week of now. *)
Lemma today_is_this_week (h : Host) (off now : Z) (e : value) :
  constant_offset h off -> dated_today h now e = true -> dated_this_week h now e = true.
Proof.
  intros Hoff. unfold dated_today, dated_this_week, local_day.
  destruct (entry_date h e) as [t|]; [|discriminate].
  rewrite (weekStart_regular h now) by (now apply (constant_offset_ok h off)).
  rewrite (weekEnd_regular h now) by (now apply (constant_offset_ok h off)).
  intros Hd. apply Z.eqb_eq in Hd.
  pose proof (sunday_start_spec h now) as (_ & _ & Hs). cbv zeta in Hs.
  pose proof (WeekDay_range (LocalTime h now)) as Hw.
  unfold sunday_start in *. unfold UTC, LocalTime in *. rewrite !Hoff in *.
  unfold Day, msPerDay in *.
  apply andb_true_intro. split; [apply Z.leb_le | apply Z.ltb_lt];
    Z.div_mod_to_equations; lia.
Qed.

Lemma filter_length_le (f g : value -> bool) (l : list value) :
  (forall e, f e = true -> g e = true) ->
  length (List.filter f l) <= length (List.filter g l).
Proof.
  intros H. induction l as [|x l IH]; [reflexivity|]. cbn [List.filter].
  destruct (f x) eqn:E.
  - rewrite (H x E). cbn. lia.
  - destruct (g x); cbn; lia.
Qed.

(** X9.  Today's workouts are this week's.  In a zone whose offset from UTC
    never changes, an entry dated today is dated this week, and so, on any
    device, the workouts of each type the daily reader returns are at most
    as many as the weekly count of that type. *)
Theorem todays_workouts_are_this_weeks (w : World) (off : Z) :
  constant_offset (host w) off ->
  (forall e, dated_today (host w) (clock w) e = true ->
             dated_this_week (host w) (clock w) e = true)
  /\ exists r p,
       fst (getTodaysExerciseEntries w) = Ok (VArr r)
       /\ fst (getWeeklyExerciseProgress w) = Ok p
       /\ length (List.filter (typed_as "strength") r) <= strength p
       /\ length (List.filter (typed_as "cardio") r) <= cardio p
       /\ length (List.filter (typed_as "walking") r) <= walking p
       /\ length (List.filter (typed_as "flexibility") r) <= flexibility p.
Proof.
  intros Hoff. split; [intros e; now apply (today_is_this_week _ off)|].
  rewrite getTodaysExerciseEntries_eq, get_todays_exact, getWeeklyExerciseProgress_exact.
  cbn [fst]. destruct (filterable (read_result EXERCISE_KEY w)) eqn:Hf.
  - destruct (filterable_list _ Hf) as (l & -> & Hl).
    rewrite todays_of_list, weekly_of_list, Hl.
    eexists _, _. split; [reflexivity|]. split; [reflexivity|].
    unfold progress_of, count_week. cbn [strength cardio walking flexibility].
    rewrite !filter_twice.
    repeat split; apply filter_length_le; intros e He;
      apply andb_prop in He as [H1 H2]; apply andb_true_intro;
      (split; [now apply (today_is_this_week _ off) | exact H2]).
  - rewrite todays_of_unfilterable by exact Hf.
    eexists _, _. split; [reflexivity|]. split; [reflexivity|]. cbn [List.filter length].
    repeat split; lia.
Qed.

Lemma todays_workouts_are_this_weeks_witness :
  exists r p,
    fst (getTodaysExerciseEntries week_device) = Ok (VArr r)
    /\ fst (getWeeklyExerciseProgress week_device) = Ok p
    /\ length (List.filter (typed_as "strength") r) <= strength p
    /\ length (List.filter (typed_as "cardio") r) <= cardio p
    /\ length (List.filter (typed_as "walking") r) <= walking p
    /\ length (List.filter (typed_as "flexibility") r) <= flexibility p.
Proof.
  apply (todays_workouts_are_this_weeks week_device 19800000).
  intros t b. reflexivity.
Defined.

(** ** The save actions, whatever the device does *)

Lemma saveMeal_exact (st : MealScreen) (w : World) :
  saveMeal st w
  = if (length (foodItems st) =? 0)%nat
    then (Ok tt, alerted w "Error" "Please add at least one food item")
    else match addDietEntry (meal_entry st (clock w)) w with
         | (Ok _, w1) => (Ok tt, alerted w1 "Success" "Meal saved successfully")
         | (Throw _, w1) =>
             (Ok tt, alerted (after w1 (storage w1) [] ["Error saving meal:"])
                       "Error" "Failed to save meal")
         end.
Proof.
  unfold saveMeal. destruct (length (foodItems st) =? 0)%nat; [reflexivity|].
  unfold try_catch, bind, Date_now. fold (meal_entry st (clock w)).
  destruct (addDietEntry (meal_entry st (clock w)) w) as [[[]|e] w1]; [reflexivity|].
  unfold console_error, Alert_alert, alerted, after. cbn. now rewrite app_nil_r.
Qed.

Lemma saveWorkout_exact (st : WorkoutScreen) (w : World) :
  saveWorkout st w
  = if (length (ws_exercises st) =? 0)%nat
    then (Ok tt, alerted w "Error" "Please add at least one exercise")
    else if negb (str_truthy (trim (workoutDuration st)))
    then (Ok tt, alerted w "Error" "Please enter workout duration")
    else if negb (valid_duration st)
    then (Ok tt, alerted w "Error" "Please enter a valid duration")
    else match addExerciseEntry (workout_entry st (clock w)) w with
         | (Ok _, w1) => (Ok tt, alerted w1 "Success" "Workout saved successfully")
         | (Throw _, w1) =>
             (Ok tt, alerted (after w1 (storage w1) [] ["Error saving workout:"])
                       "Error" "Failed to save workout")
         end.
Proof.
  unfold saveWorkout, valid_duration.
  destruct (length (ws_exercises st) =? 0)%nat; [reflexivity|].
  destruct (negb (str_truthy (trim (workoutDuration st)))); [reflexivity|].
  unfold try_catch. rewrite negb_involutive.
  destruct (is_NaN (parseInt (workoutDuration st)) || num_le (parseInt (workoutDuration st)) (Int 0));
    [reflexivity|].
  unfold bind, Date_now. fold (workout_entry st (clock w)).
  destruct (addExerciseEntry (workout_entry st (clock w)) w) as [[[]|e] w1]; [reflexivity|].
  unfold console_error, Alert_alert, alerted, after. cbn. now rewrite app_nil_r.
Qed.

Lemma length_zero {A} (l : list A) : (length l =? 0)%nat = true <-> l = [].
Proof. destruct l; cbn; split; (reflexivity || discriminate). Qed.

(** The outcome of [add_entry], on any device. *)
Lemma add_entry_cases (key msg msg' : string) (v : value) (w : World) :
  let r := add_entry key msg msg' v w in
  (forall l, read_result key w = VArr l -> write_fails w = false ->
     fst r = Ok tt
     /\ storage (snd r) = <[key := JSON_stringify (VArr (l ++ [v]))]> (storage w)
     /\ alerts (snd r) = alerts w)
  /\ (is_array (read_result key w) = false \/ write_fails w = true ->
        throws (fst r) /\ storage (snd r) = storage w /\ alerts (snd r) = alerts w).
Proof.
  cbv zeta. rewrite add_entry_exact. split.
  - intros l -> ->. repeat split.
  - destruct (read_result key w) as [|b|n|s|l|l]; try solve [intros _; repeat split].
    cbv zeta. intros [H| ->]; [discriminate | repeat split].
Qed.


Lemma str_truthy_empty (s : string) : str_truthy s = false <-> s = "".
Proof. destruct s; cbn; split; (reflexivity || discriminate). Qed.

Lemma valid_duration_spec (st : WorkoutScreen) :
  valid_duration st = true
  <-> (exists d, parseInt (workoutDuration st) = Int d /\ (0 < d)%Z)
      \/ parseInt (workoutDuration st) = Infinity.
Proof.
  unfold valid_duration.
  destruct (parseInt_cases (workoutDuration st)) as [->|[[d ->]|[->| ->]]].
  - cbn. split; [discriminate | intros [(d & H & _)|H]; discriminate].
  - cbn [is_NaN orb]. unfold num_le. cbn [scale_of].
    change (Z.max 0 0) with 0%Z. change (10 ^ (0 - 0))%Z with 1%Z.
    destruct (d * 1 <=? 0 * 1)%Z eqn:E; cbn [negb].
    + apply Z.leb_le in E. split; [discriminate|].
      intros [(d' & H & Hd)|H]; [|discriminate]. injection H as <-. lia.
    + apply Z.leb_gt in E. split; [|reflexivity]. intros _. left. exists d.
      split; [reflexivity | lia].
  - cbn. split; [now right | reflexivity].
  - cbn. split; [discriminate | intros [(d & H & _)|H]; discriminate].
Qed.

(** Past its checks the save of a workout appends the entry it builds. *)
Lemma workout_entry_exact (st : WorkoutScreen) (now d : Z) :
  parseInt (workoutDuration st) = Int d -> (Z.abs (d * 5) < 2 ^ 53)%Z ->
  workout_entry st now
  = {| ex_id := Number_toString (Int now); ex_date := toISOString now;
       type := selectedType st; exercises := ws_exercises st;
       duration := Int d; caloriesBurned := Int (d * 5) |}.
Proof.
  intros Hd Hb. unfold workout_entry. rewrite Hd. f_equal.
  cbn [num_mul]. now rewrite round64_safe.
Qed.


(** ** From the save button to the views *)

Lemma safe_finite (n : number) : safe n -> finite n.
Proof. intros (z & -> & _). exact I. Qed.

Lemma food_safe_finite (f : FoodItem) : food_safe f -> food_finite f.
Proof. intros (H1 & H2 & H3 & H4). repeat split; now apply safe_finite. Qed.

Lemma detail_ok_finite (o : option number) : detail_ok o -> detail_finite o.
Proof. destruct o as [n|]; [|trivial]. intros [H _]. now apply safe_finite. Qed.

Lemma exercise_ok_finite (x : Exercise) : exercise_ok x -> exercise_finite x.
Proof. intros (H1 & H2 & H3 & H4 & H5). repeat split; now apply detail_ok_finite. Qed.

(** A whole number of magnitude 2^107 at most, with less than 2^53 added,
    is held as a whole number of magnitude 2^107 at most: past 2^107 what
    is added is less than half the last bit, and is lost. *)
Lemma round64_steady (x : Z) :
  (Z.abs x <= 2 ^ 107 + 2 ^ 53)%Z ->
  exists r, round64 x = Int r /\ (Z.abs r <= 2 ^ 107)%Z.
Proof.
  intros Hx. unfold round64.
  destruct (Z.log2 (Z.abs x) - 52 <=? 0)%Z eqn:E.
  { apply Z.leb_le in E. exists x. split; [reflexivity|].
    destruct (Z.eq_dec (Z.abs x) 0%Z) as [H0|H0]; [lia|].
    pose proof (Z.log2_spec (Z.abs x) ltac:(lia)) as [_ Hhi].
    assert (2 ^ Z.succ (Z.log2 (Z.abs x)) <= 2 ^ 53)%Z by (apply Z.pow_le_mono_r; lia).
    lia. }
  apply Z.leb_gt in E. cbv zeta.
  assert (0 < Z.abs x)%Z as Ha.
  { destruct (Z.eq_dec (Z.abs x) 0%Z) as [H0|H0]; [|lia]. rewrite H0 in E. cbn in E. lia. }
  pose proof (Z.log2_spec _ Ha) as [Hlo Hhi].
  remember (Z.log2 (Z.abs x) - 52)%Z as e eqn:He.
  remember (Z.abs x) as a eqn:Hab.
  assert (0 < 2 ^ e)%Z as Hp by (apply Z.pow_pos_nonneg; lia).
  assert (2 ^ Z.log2 a = 2 ^ 52 * 2 ^ e)%Z as E1
    by (rewrite <- Z.pow_add_r by lia; f_equal; lia).
  assert (2 ^ Z.succ (Z.log2 a) = 2 ^ 53 * 2 ^ e)%Z as E2
    by (rewrite <- Z.pow_add_r by lia; f_equal; lia).
  rewrite E1 in Hlo. rewrite E2 in Hhi.
  pose proof (Z.div_mod a (2 ^ e) ltac:(lia)) as Hdm.
  pose proof (Z.mod_pos_bound a (2 ^ e) Hp) as Hr.
  assert (2 ^ 52 <= a / 2 ^ e < 2 ^ 53)%Z as Hq by nia.
  match goal with
  | |- context [(?q' * 2 ^ e)%Z] => assert (q' * 2 ^ e <= 2 ^ 107)%Z as Hv
  end.
  { destruct (Z_lt_le_dec a (2 ^ 107)) as [Hlt|Hge].
    - assert (Z.log2 a < 107)%Z by (apply Z.log2_lt_pow2; lia).
      assert (2 ^ e <= 2 ^ 54)%Z by (apply Z.pow_le_mono_r; lia).
      destruct (_ || _); nia.
    - assert (Z.log2 a = 107)%Z as HL by (apply Z.log2_unique; lia).
      assert (e = 55)%Z as -> by lia.
      change (2 ^ (55 - 1))%Z with (2 ^ 54)%Z.
      assert (a / 2 ^ 55 = 2 ^ 52)%Z as Hq' by nia.
      assert (a mod 2 ^ 55 <= 2 ^ 53)%Z as Hr' by nia.
      assert ((2 ^ 54 <? a mod 2 ^ 55)%Z = false) as -> by (apply Z.ltb_ge; lia).
      assert ((a mod 2 ^ 55 =? 2 ^ 54)%Z = false) as -> by (apply Z.eqb_neq; lia).
      cbn [orb andb]. rewrite Hq'. reflexivity. }
  match goal with
  | |- context [(?q' * 2 ^ e)%Z] =>
      assert (0 <= q' * 2 ^ e)%Z as Hv0 by (destruct (_ || _); nia);
      generalize dependent (q' * 2 ^ e)%Z
  end.
  intros v Hv Hv0.
  assert ((2 ^ 1024 <=? v)%Z = false) as -> by (apply Z.leb_gt; lia).
  eexists. split; [reflexivity|]. destruct (x <? 0)%Z; lia.
Qed.

(** A sum of whole numbers below 2^53 in magnitude is a whole number, however
    many they are. *)
Lemma sum_of_finite (field : FoodItem -> number) (l : list FoodItem) :
  Forall (fun f => safe (field f)) l -> finite (sum_of field l).
Proof.
  unfold sum_of.
  assert (forall l a, (Z.abs a <= 2 ^ 107)%Z -> Forall (fun f => safe (field f)) l ->
            exists z, fold_left (fun acc item => num_add acc (field item)) l (Int a) = Int z)
    as H.
  { clear l. induction l as [|x l IH]; intros a Ha Hl; [eauto|].
    apply Forall_cons in Hl as [(y & Hy & Hyb) Hl]. cbn [fold_left]. rewrite Hy.
    cbn [num_add].
    destruct (round64_steady (a + y)) as (r & -> & Hr); [lia|].
    now apply IH. }
  intros Hl. destruct (H l 0%Z ltac:(lia) Hl) as (z & ->). exact I.
Qed.

Lemma meal_entry_finite (st : MealScreen) (now : Z) :
  Forall food_safe (foodItems st) -> diet_finite (meal_entry st now).
Proof.
  intros Hf. unfold diet_finite, meal_entry.
  cbn [foods totalCalories totalProtein totalCarbs totalFat].
  destruct (calculateTotals_sums st) as (-> & -> & -> & ->).
  split; [eapply Forall_impl; [exact Hf | apply food_safe_finite]|].
  repeat split; apply sum_of_finite; (eapply Forall_impl; [exact Hf|]);
    intros f (H1 & H2 & H3 & H4); assumption.
Qed.

Lemma workout_entry_finite (st : WorkoutScreen) (now d : Z) :
  Forall exercise_finite (ws_exercises st) -> parseInt (workoutDuration st) = Int d ->
  (Z.abs (d * 5) < 2 ^ 53)%Z ->
  workout_finite (workout_entry st now).
Proof.
  intros Hx Hd Hb. rewrite (workout_entry_exact st now d Hd Hb).
  split; [exact Hx|]. split; exact I.
Qed.


Lemma workout_entry_date (h : Host) (st : WorkoutScreen) (now : Z) :
  entry_date h (ExerciseEntry_value (workout_entry st now)) = Date_parse h (toISOString now).
Proof. reflexivity. Qed.

Lemma workout_entry_type (st : WorkoutScreen) (now : Z) :
  entry_type (ExerciseEntry_value (workout_entry st now)) = Some (VStr (selectedType st)).
Proof. reflexivity. Qed.

Lemma filter_snoc (f : value -> bool) (l : list value) (x : value) :
  List.filter f (l ++ [x]) = List.filter f l ++ (if f x then [x] else []).
Proof. rewrite List.filter_app. cbn [List.filter]. now destruct (f x). Qed.

Lemma stored_later (key : string) (w : World) (now : Z) :
  stored key (later w now) = stored key w.
Proof. reflexivity. Qed.



Lemma count_week_snoc (h : Host) (now : Z) (t : string) (l : list value) (v : value) :
  count_week h now t (l ++ [v])
  = count_week h now t l + (if dated_this_week h now v && typed_as t v then 1 else 0).
Proof.
  unfold count_week. rewrite filter_snoc, length_app.
  now destruct (dated_this_week h now v && typed_as t v).
Qed.

(** X13.  A workout saved today counts this week.  Take a save that goes
    through for at least one exercise, the numeric fields of the exercises
    being absent or whole numbers other than zero and below 2^53 in
    magnitude, and a duration that is not blank and parses to [d > 0] with
    [d * 5] below 2^53, on a host that reads the date the entry carries back
    as the instant of the save, in a zone whose offset from UTC never
    changes, and a stored list with no number beyond the range of binary64.
    A read later on the same local day, if its [getItem] does not fail,
    gives the weekly counts of the list that was there with one more for the
    selected type, and the daily list of that list followed by the new
    workout, dated at the save, with duration [d] and calories [d * 5],
    provided the filters can read a date off every entry that was there;
    where they cannot, the counts are zero and the daily list is empty. *)
Theorem saved_workout_is_counted (st : WorkoutScreen) (w : World) (l : list value)
    (now off d : Z) :
  let w' := later (snd (saveWorkout st w)) now in
  ws_exercises st <> [] ->
  trim (workoutDuration st) <> "" ->
  parseInt (workoutDuration st) = Int d ->
  (0 < d)%Z ->
  (d * 5 < 2 ^ 53)%Z ->
  Forall exercise_ok (ws_exercises st) ->
  read_result EXERCISE_KEY w = VArr l ->
  in_range (VArr l) = true ->
  write_fails w = false ->
  Date_parse (host w) (toISOString (clock w)) = Some (clock w) ->
  constant_offset (host w) off ->
  local_day (host w) now = local_day (host w) (clock w) ->
  fails_next w' = false ->
  (forallb readable l = true ->
     exists e,
       fst (getWeeklyExerciseProgress w')
       = Ok (bump (selectedType st) (progress_of (host w) now l))
       /\ fst (getTodaysExerciseEntries w')
          = Ok (VArr (List.filter (dated_today (host w) now) l ++ [ExerciseEntry_value e]))
       /\ ex_date e = toISOString (clock w)
       /\ type e = selectedType st
       /\ exercises e = ws_exercises st
       /\ duration e = Int d
       /\ caloriesBurned e = Int (d * 5))
  /\ (forallb readable l = false ->
        fst (getWeeklyExerciseProgress w') = Ok no_progress
        /\ fst (getTodaysExerciseEntries w') = Ok (VArr [])).
Proof.
  cbv zeta. intros Hne Hnt Hd Hpos Hb Hfin Hr _ Hw Hparse Hoff Hday.
  assert (valid_duration st = true) as Hv by (apply valid_duration_spec; left; eauto).
  rewrite saveWorkout_exact.
  destruct (length (ws_exercises st) =? 0)%nat eqn:E; [apply length_zero in E; contradiction|].
  destruct (str_truthy (trim (workoutDuration st))) eqn:Et;
    [|apply str_truthy_empty in Et; contradiction].
  rewrite Hv. cbn [negb].
  rewrite addExerciseEntry_eq, add_entry_exact, Hr, Hw. cbv zeta. cbn [snd].
  set (e := workout_entry st (clock w)). set (v := ExerciseEntry_value e).
  set (w1 := later _ now). intros Hf.
  assert (stored EXERCISE_KEY w1 = VArr (l ++ [v])) as Hst.
  { apply (stored_after_write EXERCISE_KEY (l ++ [v]) w); [reflexivity|].
    apply Forall_app. split; [exact (read_result_array_faithful _ _ _ Hr)|].
    constructor; [|constructor]. apply faithful_workout, (workout_entry_finite st _ d); [|exact Hd|lia].
    eapply Forall_impl; [exact Hfin|]. apply exercise_ok_finite. }
  assert (dated_today (host w) now v = true) as Htoday.
  { unfold dated_today. subst v e. rewrite workout_entry_date, Hparse.
    apply Z.eqb_eq. now symmetry. }
  rewrite getTodaysExerciseEntries_eq, get_todays_exact, getWeeklyExerciseProgress_exact.
  cbn [fst]. unfold read_result. rewrite Hf, Hst.
  change (host w1) with (host w). change (clock w1) with now.
  rewrite todays_of_list, weekly_of_list, forallb_app. cbn [forallb].
  change (readable v) with true. rewrite !andb_true_r.
  split; intros ->; [|split; reflexivity].
  exists e. split; [|split].
  - f_equal. unfold progress_of, bump. cbn [strength cardio walking flexibility].
    rewrite !count_week_snoc, (today_is_this_week _ off _ _ Hoff Htoday). cbn [andb].
    unfold typed_as. subst v e. rewrite workout_entry_type. reflexivity.
  - rewrite filter_snoc, Htoday. reflexivity.
  - subst e. rewrite (workout_entry_exact st (clock w) d Hd) by lia. repeat split.
Qed.

Lemma saved_workout_is_counted_witness :
  fst (getWeeklyExerciseProgress
         (later (snd (saveWorkout (workout_screen "30") week_device)) (sunday_evening + 60000)))
  = Ok (bump "strength"
          (progress_of kolkata (sunday_evening + 60000) (map ExerciseEntry_value week_sample))).
Proof.
  assert (Forall exercise_ok [squats]) as Hok.
  { constructor; [|constructor].
    repeat split; try discriminate; eexists; (split; [reflexivity | cbn; lia]). }
  destruct (proj1 (saved_workout_is_counted (workout_screen "30") week_device
                     (map ExerciseEntry_value week_sample) (sunday_evening + 60000)
                     19800000 30
                     ltac:(discriminate) ltac:(discriminate) eq_refl eq_refl eq_refl Hok
                     ltac:(vm_compute; reflexivity) eq_refl eq_refl
                     ltac:(vm_compute; reflexivity) ltac:(intros t b; reflexivity)
                     ltac:(vm_compute; reflexivity) eq_refl)
              eq_refl) as (e & H & _).
  exact H.
Defined.

(** ** The forms *)

Lemma read_digits_bound (s : string) :
  forall acc cnt, (0 <= acc)%Z ->
    (0 <= fst (fst (read_digits s acc cnt)) < (acc + 1) * 10 ^ Z.of_nat (String.length s))%Z.
Proof.
  induction s as [|c r IH]; intros acc cnt Ha; cbn [read_digits String.length].
  - cbn. lia.
  - destruct (is_digit c) eqn:E; [|cbn [fst]; nia].
    apply is_digit_spec in E. unfold digit_val.
    specialize (IH (acc * 10 + (code c - 48))%Z (S cnt) ltac:(lia)).
    rewrite Nat2Z.inj_succ, Z.pow_succ_r by lia.
    assert (0 < 10 ^ Z.of_nat (String.length r))%Z by (apply Z.pow_pos_nonneg; lia).
    nia.
Qed.

Lemma hex_val_range (c : ascii) (d : Z) : hex_val c = Some d -> (0 <= d <= 15)%Z.
Proof.
  unfold hex_val. cbv zeta.
  destruct ((48 <=? code c) && (code c <=? 57))%Z eqn:E1.
  { intros E. injection E as <-. apply andb_prop in E1 as [A B].
    apply Z.leb_le in A, B. lia. }
  destruct ((97 <=? code c) && (code c <=? 102))%Z eqn:E2.
  { intros E. injection E as <-. apply andb_prop in E2 as [A B].
    apply Z.leb_le in A, B. lia. }
  destruct ((65 <=? code c) && (code c <=? 70))%Z eqn:E3; [|discriminate].
  intros E. injection E as <-. apply andb_prop in E3 as [A B].
  apply Z.leb_le in A, B. lia.
Qed.

Lemma read_hex_bound (s : string) :
  forall acc cnt, (0 <= acc)%Z ->
    (0 <= fst (read_hex s acc cnt) < (acc + 1) * 16 ^ Z.of_nat (String.length s))%Z.
Proof.
  induction s as [|c r IH]; intros acc cnt Ha; cbn [read_hex String.length].
  - cbn. lia.
  - destruct (hex_val c) as [d|] eqn:E; [|cbn [fst]; nia].
    apply hex_val_range in E.
    specialize (IH (acc * 16 + d)%Z (S cnt) ltac:(lia)).
    rewrite Nat2Z.inj_succ, Z.pow_succ_r by lia.
    assert (0 < 16 ^ Z.of_nat (String.length r))%Z by (apply Z.pow_pos_nonneg; lia).
    nia.
Qed.

Lemma trim_start_length (s : string) : String.length (trim_start s) <= String.length s.
Proof.
  assert (forall n s, String.length s <= n -> String.length (trim_start s) <= String.length s)
    as H; [|exact (H _ s (le_n _))].
  clear s. induction n as [|n IH]; intros s Hn.
  - destruct s; [reflexivity | cbn in Hn; lia].
  - destruct s as [|c1 r1]; [reflexivity|]. cbn [trim_start String.length] in *.
    destruct (is_white c1); [specialize (IH r1 ltac:(lia)); lia|].
    destruct r1 as [|c2 r2]; [reflexivity|]. cbn [String.length] in *.
    destruct (is_white2 c1 c2); [specialize (IH r2 ltac:(lia)); lia|].
    destruct r2 as [|c3 r3]; [reflexivity|]. cbn [String.length] in *.
    destruct (is_white3 c1 c2 c3); [specialize (IH r3 ltac:(lia)); lia | reflexivity].
Qed.

Lemma pow10_mono (a b : nat) : a <= b -> (10 ^ Z.of_nat a <= 10 ^ Z.of_nat b)%Z.
Proof. intros H. apply Z.pow_le_mono_r; lia. Qed.

Lemma pow16_mono (a b : nat) : a <= b -> (16 ^ Z.of_nat a <= 16 ^ Z.of_nat b)%Z.
Proof. intros H. apply Z.pow_le_mono_r; lia. Qed.

(** [parseInt] of a short text is [NaN] or a whole number below [2^48] in
    magnitude: fourteen decimal digits, or twelve after a hexadecimal
    prefix. *)
Lemma parseInt_short (s : string) :
  String.length s <= 14 ->
  parseInt s = NaN \/ exists z, parseInt s = Int z /\ (Z.abs z < 2 ^ 48)%Z.
Proof.
  intros Hlen. unfold parseInt.
  pose proof (trim_start_length s) as H0.
  set (s0 := trim_start s) in *.
  assert (exists neg s1,
            match s0 with
            | String c r =>
                if (code c =? 45)%Z then (true, r)
                else if (code c =? 43)%Z then (false, r) else (false, s0)
            | EmptyString => (false, s0)
            end = (neg, s1) /\ String.length s1 <= 14) as (neg & s1 & -> & H1).
  { destruct s0 as [|c r]; [eexists _, _; split; [reflexivity | cbn; lia]|].
    cbn [String.length] in H0.
    destruct (code c =? 45)%Z; [eexists _, _; split; [reflexivity | lia]|].
    destruct (code c =? 43)%Z; eexists _, _; (split; [reflexivity | cbn [String.length]; lia]). }
  assert (exists v cnt,
            match s1 with
            | String z (String x r) =>
                if ((code z =? 48) && ((code x =? 120) || (code x =? 88)))%Z
                then read_hex r 0 0
                else let '(v, n, _) := read_digits s1 0 0 in (v, n)
            | _ => let '(v, n, _) := read_digits s1 0 0 in (v, n)
            end = (v, cnt) /\ (0 <= v < 2 ^ 48)%Z) as (v & cnt & -> & Hv).
  { assert (exists v cnt, (let '(v, n, _) := read_digits s1 0 0 in (v, n)) = (v, cnt)
                          /\ (0 <= v < 2 ^ 48)%Z) as Hdec.
    { pose proof (read_digits_bound s1 0 0 ltac:(lia)) as Hb.
      pose proof (pow10_mono _ _ H1) as Hp.
      destruct (read_digits s1 0 0) as [[v n] q]. cbn [fst] in Hb.
      exists v, n. split; [reflexivity|].
      change (10 ^ Z.of_nat 14)%Z with 100000000000000%Z in Hp.
      change (2 ^ 48)%Z with 281474976710656%Z. lia. }
    destruct s1 as [|z [|x r]]; try exact Hdec.
    destruct ((code z =? 48) && ((code x =? 120) || (code x =? 88)))%Z; [|exact Hdec].
    pose proof (read_hex_bound r 0 0 ltac:(lia)) as Hb.
    cbn [String.length] in H1.
    pose proof (pow16_mono (String.length r) 12 ltac:(lia)) as Hp.
    destruct (read_hex r 0 0) as [v n]. cbn [fst] in Hb.
    exists v, n. split; [reflexivity|].
    change (16 ^ Z.of_nat 12)%Z with 281474976710656%Z in Hp.
    change (2 ^ 48)%Z with 281474976710656%Z. lia. }
  destruct cnt; [now left|]. right. exists (if neg then (- v)%Z else v).
  assert (Z.abs (if neg then - v else v) < 2 ^ 48)%Z as Hz by (destruct neg; lia).
  split; [|exact Hz]. apply round64_safe.
  change (2 ^ 48)%Z with 281474976710656%Z in Hz.
  change (2 ^ 53)%Z with 9007199254740992%Z. lia.
Qed.

Lemma or_zero_safe (text : string) :
  String.length text <= 14 -> safe (or_zero (parseInt text)).
Proof.
  intros H. unfold or_zero.
  destruct (parseInt_short text H) as [->|(z & -> & Hz)].
  - exists 0%Z. split; [reflexivity | cbn; lia].
  - cbn [num_truthy]. destruct (z =? 0)%Z; cbn [negb].
    + exists 0%Z. split; [reflexivity | cbn; lia].
    + exists z. split; [reflexivity|].
      change (2 ^ 48)%Z with 281474976710656%Z in Hz.
      change (2 ^ 53)%Z with 9007199254740992%Z. lia.
Qed.

Lemma safe_zero : safe (Int 0).
Proof. exists 0%Z. split; [reflexivity | cbn; lia]. Qed.

Lemma emptyFood_safe : food_safe emptyFood.
Proof. repeat split; apply safe_zero. Qed.

Lemma initialMealScreen_ok : meal_form_ok initialMealScreen.
Proof.
  split; [left; reflexivity|]. split; [constructor | apply emptyFood_safe].
Qed.

Lemma splice1_Forall {A} (P : A -> Prop) (index : nat) (l : list A) :
  Forall P l -> Forall P (splice1 index l).
Proof.
  intros H. revert index. induction H as [|x l Hx Hl IH]; intros index;
    destruct index; cbn [splice1]; try constructor; try assumption. apply IH.
Qed.

Lemma only_on_app (key : string) (good : string -> Prop) (a b : list Call) :
  only_on key good a -> only_on key good b -> only_on key good (a ++ b).
Proof. intros Ha Hb. apply Forall_app. now split. Qed.

Lemma meal_entry_ok (st : MealScreen) (now : Z) :
  meal_form_ok st -> foodItems st <> [] -> meal_ok (meal_entry st now).
Proof.
  intros (Ht & Hitems & _) Hne. unfold meal_ok.
  split; [exact Ht|]. split; [exact Hne|]. split; [exact Hitems|].
  split; [apply calculateTotals_sums|].
  apply meal_entry_finite. eapply Forall_impl; [exact Hitems|].
  intros f [_ Hf]. exact Hf.
Qed.

(** What a save of the meal form does to the device. *)
Lemma saveMeal_writes (st : MealScreen) (w : World) :
  meal_form_ok st ->
  fst (saveMeal st w) = Ok tt
  /\ faulty (snd (saveMeal st w)) = faulty w
  /\ exists new, calls (snd (saveMeal st w)) = calls w ++ new
                 /\ only_on DIET_KEY meal_text new.
Proof.
  intros Hok. rewrite saveMeal_exact.
  destruct (length (foodItems st) =? 0)%nat eqn:E.
  { split; [reflexivity|]. split; [reflexivity|].
    exists []. split; [cbn; now rewrite app_nil_r | constructor]. }
  assert (foodItems st <> []) as Hne by (intros H; apply length_zero in H; congruence).
  rewrite addDietEntry_eq, add_entry_exact.
  destruct (read_result DIET_KEY w) as [|b|n|s|l|l] eqn:Hr;
    try (split; [reflexivity|]; split; [reflexivity|];
         exists [GetItem DIET_KEY]; split; [cbn; now rewrite app_nil_r|];
         constructor; [reflexivity | constructor]).
  cbv zeta.
  assert (only_on DIET_KEY meal_text
            [GetItem DIET_KEY;
             SetItem DIET_KEY
               (JSON_stringify (VArr (l ++ [DietEntry_value (meal_entry st (clock w))])))])
    as Hnew.
  { constructor; [reflexivity|]. constructor; [|constructor]. split; [reflexivity|].
    exists l, (meal_entry st (clock w)). split; [reflexivity|].
    pose proof (meal_entry_ok st (clock w) Hok Hne) as Hm. split; [|exact Hm].
    apply JSON_roundtrip. apply faithful_arr. apply Forall_app.
    split; [exact (read_result_array_faithful _ _ _ Hr)|].
    constructor; [|constructor]. apply faithful_diet. apply Hm. }
  destruct (write_fails w); (split; [reflexivity|]; split; [reflexivity|]);
    eexists; (split; [|exact Hnew]); cbn; now rewrite ?app_nil_r.
Qed.

Lemma nth_error_ids {A} (f : A -> string) (l : list A) (n : nat) (t : A) :
  nth_error l n = Some t -> In (f t) (map f l).
Proof. intros H. apply in_map. exact (nth_error_In _ _ H). Qed.

Lemma meal_handler_run (ev : MealEvent) (st : MealScreen) (w : World) :
  short_meal_event ev -> meal_form_ok st ->
  exists st' new,
    fst (meal_handler ev st w) = Ok st'
    /\ meal_form_ok st'
    /\ faulty (snd (meal_handler ev st w)) = faulty w
    /\ calls (snd (meal_handler ev st w)) = calls w ++ new
    /\ only_on DIET_KEY meal_text new.
Proof.
  intros Hshort Hok.
  assert (forall st', meal_form_ok st' ->
            exists st'' new,
              fst (ret st' w) = Ok st'' /\ meal_form_ok st''
              /\ faulty (snd (ret st' w)) = faulty w
              /\ calls (snd (ret st' w)) = calls w ++ new
              /\ only_on DIET_KEY meal_text new) as Hret.
  { intros st' H. exists st', []. cbn. rewrite app_nil_r.
    split; [reflexivity|]. split; [exact H|]. split; [reflexivity|].
    split; [reflexivity | constructor]. }
  pose proof Hok as (Ht & Hitems & Hcur).
  destruct ev as [n|text|text|text|text|text| |index| ]; cbn [meal_handler short_meal_event] in *.
  - destruct (nth_error MEAL_TYPES n) as [t|] eqn:E; apply Hret; [|exact Hok].
    split; [exact (nth_error_ids mt_id _ _ _ E)|]. now split.
  - apply Hret. split; [exact Ht|]. split; [exact Hitems|].
    destruct Hcur as (H1 & H2 & H3 & H4).
    exact (conj H1 (conj H2 (conj H3 H4))).
  - apply Hret. split; [exact Ht|]. split; [exact Hitems|].
    destruct Hcur as (H1 & H2 & H3 & H4).
    exact (conj (or_zero_safe text Hshort) (conj H2 (conj H3 H4))).
  - apply Hret. split; [exact Ht|]. split; [exact Hitems|].
    destruct Hcur as (H1 & H2 & H3 & H4).
    exact (conj H1 (conj (or_zero_safe text Hshort) (conj H3 H4))).
  - apply Hret. split; [exact Ht|]. split; [exact Hitems|].
    destruct Hcur as (H1 & H2 & H3 & H4).
    exact (conj H1 (conj H2 (conj (or_zero_safe text Hshort) H4))).
  - apply Hret. split; [exact Ht|]. split; [exact Hitems|].
    destruct Hcur as (H1 & H2 & H3 & H4).
    exact (conj H1 (conj H2 (conj H3 (or_zero_safe text Hshort)))).
  - unfold addFoodItem.
    destruct (str_truthy (trim (name (currentFood st)))) eqn:E; cbn [negb].
    + apply Hret. split; [exact Ht|]. split; [|apply emptyFood_safe].
      apply Forall_app. split; [exact Hitems|]. constructor; [|constructor].
      split; [|exact Hcur]. intros H. apply str_truthy_empty in H. congruence.
    + exists st, []. cbn. rewrite app_nil_r.
      split; [reflexivity|]. split; [exact Hok|]. split; [reflexivity|].
      split; [reflexivity | constructor].
  - destruct (index <? length (foodItems st))%nat; apply Hret; [|exact Hok].
    split; [exact Ht|]. split; [|exact Hcur]. now apply splice1_Forall.
  - destruct (saveMeal_writes st w Hok) as (Hr & Hfa & new & Hc & Hnew).
    unfold bind. destruct (saveMeal st w) as [r w1]. cbn [fst snd] in *. subst r.
    exists st, new. cbn [ret fst snd].
    split; [reflexivity|]. split; [exact Hok|]. split; [exact Hfa|].
    split; [exact Hc | exact Hnew].
Qed.

Lemma meal_session_run (evs : list MealEvent) :
  forall (st : MealScreen) (w : World),
    Forall short_meal_event evs -> meal_form_ok st ->
    exists st' new,
      fst (meal_session evs st w) = Ok st'
      /\ meal_form_ok st'
      /\ faulty (snd (meal_session evs st w)) = faulty w
      /\ calls (snd (meal_session evs st w)) = calls w ++ new
      /\ only_on DIET_KEY meal_text new.
Proof.
  induction evs as [|ev evs IH]; intros st w Hshort Hok.
  - exists st, []. cbn. rewrite app_nil_r.
    split; [reflexivity|]. split; [exact Hok|]. split; [reflexivity|].
    split; [reflexivity | constructor].
  - apply Forall_cons in Hshort as [Hev Hshort]. cbn [meal_session]. unfold bind.
    destruct (meal_handler_run ev st w Hev Hok) as (st1 & new1 & Hr & Hok1 & Hfa & Hc & Hn).
    destruct (meal_handler ev st w) as [r w1]. cbn [fst snd] in *. subst r.
    destruct (IH st1 w1 Hshort Hok1) as (st2 & new2 & Hr2 & Hok2 & Hfa2 & Hc2 & Hn2).
    exists st2, (new1 ++ new2). split; [exact Hr2|]. split; [exact Hok2|].
    split; [congruence|]. split; [|now apply only_on_app].
    rewrite Hc2, Hc. now rewrite app_assoc.
Qed.

(** X14.  Whatever is done on the meal screen, with numeric texts of
    fourteen characters at most, no handler raises, and at every moment the
    meal type is one of the four, every item of the list has a name that is
    not blank, and every value of the list and of the form is a whole number
    that binary64 holds exactly: what is typed is never kept as [NaN]. *)
Theorem meal_form_invariant (evs : list MealEvent) (w : World) :
  Forall short_meal_event evs ->
  exists st, fst (meal_session evs initialMealScreen w) = Ok st /\ meal_form_ok st.
Proof.
  intros H.
  destruct (meal_session_run evs initialMealScreen w H initialMealScreen_ok)
    as (st & _ & Hr & Hok & _).
  now exists st.
Qed.

Lemma meal_form_invariant_witness :
  exists st, fst (meal_session meal_visit initialMealScreen
                    (device (fixed_zone 0) sunday_evening)) = Ok st
             /\ meal_form_ok st.
Proof.
  apply (meal_form_invariant meal_visit (device (fixed_zone 0) sunday_evening)).
  repeat constructor.
Defined.



(** The visit of the example leaves one meal in the store: the toast, with
    the calories read off the head of the text typed and the fat, typed as
    a word, kept as zero. *)
Example meal_visit_saves_toast :
  fst (getDietEntries
         (snd (meal_session meal_visit initialMealScreen
                 (device (fixed_zone 0) sunday_evening))))
  = Ok (VArr [DietEntry_value
                {| id := "1793575800000"; date := "2026-11-01T23:30:00.000Z";
                   mealType := "dinner";
                   foods := [{| name := "toast"; calories := Int 120; protein := Int 4;
                                carbs := Int 22; fat := Int 0 |}];
                   totalCalories := Int 120; totalProtein := Int 4;
                   totalCarbs := Int 22; totalFat := Int 0 |}]).
Proof. vm_compute. reflexivity. Qed.

Lemma splice1_take_drop {A} (index : nat) (l : list A) :
  splice1 index l = take index l ++ drop (S index) l.
Proof.
  revert index. induction l as [|x l IH]; intros [|i]; cbn [splice1 take drop app];
    try reflexivity. now rewrite IH.
Qed.

Lemma splice1_out_of_range {A} (index : nat) (l : list A) :
  length l <= index -> splice1 index l = l.
Proof.
  revert index. induction l as [|x l IH]; intros [|i] H; cbn [splice1 length] in *;
    try reflexivity; [lia|]. rewrite IH by lia. reflexivity.
Qed.

Lemma sum_of_snoc (field : FoodItem -> number) (l : list FoodItem) (f : FoodItem) :
  sum_of field (l ++ [f]) = num_add (sum_of field l) (field f).
Proof. unfold sum_of. now rewrite fold_left_app. Qed.

Lemma sum_within (zs : list Z) :
  (Z.abs (fold_right Z.add 0 zs) <= fold_right (fun z acc => Z.abs z + acc) 0 zs)%Z.
Proof. induction zs as [|z zs IH]; cbn [fold_right]; lia. Qed.

(** On whole numbers whose magnitudes add up to less than 2^53, taking one
    item out of the list lowers the sum by the value of that item. *)
Lemma sum_of_splice1 (field : FoodItem -> number) (l : list FoodItem) (index : nat)
    (f : FoodItem) :
  sum_safe field l -> nth_error l index = Some f ->
  sum_of field l = num_add (sum_of field (splice1 index l)) (field f).
Proof.
  intros (zs & Hzs & Hb) Hn.
  assert (forall (l : list FoodItem) zs index f, map field l = map Int zs ->
            nth_error l index = Some f ->
            exists z, field f = Int z
                      /\ map field (splice1 index l) = map Int (splice1 index zs)
                      /\ (fold_right Z.add 0 zs = fold_right Z.add 0 (splice1 index zs) + z)%Z
                      /\ (fold_right (fun z acc => Z.abs z + acc) 0 zs
                          = fold_right (fun z acc => Z.abs z + acc) 0 (splice1 index zs)
                            + Z.abs z)%Z)
    as Hsp.
  { clear. induction l as [|x l IH]; intros [|z zs] [|i] f Hm Hn; try discriminate.
    - cbn in Hn. injection Hn as <-. injection Hm as Hx Hm.
      exists z. cbn [splice1 fold_right]. repeat split; [assumption.. | lia | lia].
    - cbn in Hn. injection Hm as Hx Hm.
      destruct (IH zs i f Hm Hn) as (z' & Hf & Hm' & Hs & Ha).
      exists z'. cbn [splice1 fold_right map]. rewrite Hx, Hm'.
      repeat split; [assumption | lia | lia]. }
  destruct (Hsp l zs index f Hzs Hn) as (z & Hf & Hm' & Hs & Ha).
  pose proof (sum_within zs) as Hw.
  rewrite (sum_of_integers field l zs Hzs Hb), (sum_of_integers field _ _ Hm') by lia.
  rewrite Hf. cbn [num_add]. rewrite <- Hs. apply eq_sym, round64_safe. lia.
Qed.

(** X16.  The list of the meal form and the totals a save would store.
    Adding an item with a name that is not blank puts the item being typed
    at the end of the list, clears the form and adds the item's four values
    to the totals; with a blank name it only alerts.  Removing the item
    shown at [index] takes exactly that item out, the others keeping their
    order, and takes exactly its four values off the totals, for values that
    are whole numbers whose magnitudes add up to less than 2^53 (where no
    sum is rounded); an index past the end changes nothing. *)
Theorem totals_follow_the_list (st : MealScreen) (w : World) (index : nat) (f : FoodItem) :
  (trim (name (currentFood st)) <> "" ->
     exists st',
       addFoodItem st w = (Ok st', w)
       /\ foodItems st' = foodItems st ++ [currentFood st]
       /\ currentFood st' = emptyFood
       /\ t_calories (calculateTotals st')
          = num_add (t_calories (calculateTotals st)) (calories (currentFood st))
       /\ t_protein (calculateTotals st')
          = num_add (t_protein (calculateTotals st)) (protein (currentFood st))
       /\ t_carbs (calculateTotals st')
          = num_add (t_carbs (calculateTotals st)) (carbs (currentFood st))
       /\ t_fat (calculateTotals st')
          = num_add (t_fat (calculateTotals st)) (fat (currentFood st)))
  /\ (trim (name (currentFood st)) = "" ->
        addFoodItem st w = (Ok st, alerted w "Error" "Please enter a food name"))
  /\ (nth_error (foodItems st) index = Some f ->
      totals_safe (foodItems st) ->
        let st' := removeFoodItem index st in
        foodItems st' = take index (foodItems st) ++ drop (S index) (foodItems st)
        /\ t_calories (calculateTotals st)
           = num_add (t_calories (calculateTotals st')) (calories f)
        /\ t_protein (calculateTotals st)
           = num_add (t_protein (calculateTotals st')) (protein f)
        /\ t_carbs (calculateTotals st)
           = num_add (t_carbs (calculateTotals st')) (carbs f)
        /\ t_fat (calculateTotals st) = num_add (t_fat (calculateTotals st')) (fat f))
  /\ (length (foodItems st) <= index ->
        foodItems (removeFoodItem index st) = foodItems st).
Proof.
  split; [|split; [|split]].
  - intros Hname. unfold addFoodItem.
    destruct (str_truthy (trim (name (currentFood st)))) eqn:E;
      [|apply str_truthy_empty in E; contradiction].
    cbn [negb]. eexists. split; [reflexivity|].
    split; [reflexivity|]. split; [reflexivity|].
    pose proof (calculateTotals_sums st) as (-> & -> & -> & ->).
    match goal with
    | |- context [calculateTotals ?s] =>
        pose proof (calculateTotals_sums s) as (-> & -> & -> & ->)
    end.
    cbn [foodItems]. rewrite !sum_of_snoc. repeat split.
  - intros Hname. unfold addFoodItem. rewrite Hname. reflexivity.
  - intros Hn Hsafe. cbv zeta.
    split; [apply splice1_take_drop|].
    pose proof (calculateTotals_sums st) as (-> & -> & -> & ->).
    pose proof (calculateTotals_sums (removeFoodItem index st)) as (-> & -> & -> & ->).
    cbn [removeFoodItem foodItems].
    destruct Hsafe as (H1 & H2 & H3 & H4).
    repeat split; apply sum_of_splice1; assumption.
  - intros H. cbn [removeFoodItem foodItems]. now apply splice1_out_of_range.
Qed.

Lemma or_undefined_ok (text : string) :
  String.length text <= 14 -> detail_ok (or_undefined (parseInt text)).
Proof.
  intros H. unfold or_undefined.
  destruct (parseInt_short text H) as [->|(z & -> & Hz)]; [exact I|].
  cbn [num_truthy]. destruct (z =? 0)%Z eqn:E; cbn [negb]; [exact I|].
  apply Z.eqb_neq in E. split.
  - exists z. split; [reflexivity|].
    change (2 ^ 48)%Z with 281474976710656%Z in Hz.
    change (2 ^ 53)%Z with 9007199254740992%Z. lia.
  - intros H'. injection H' as ->. now apply E.
Qed.

Lemma emptyExercise_ok : exercise_ok emptyExercise.
Proof. repeat split. Qed.

Lemma initialWorkoutScreen_ok : workout_form_ok initialWorkoutScreen.
Proof.
  split; [left; reflexivity|]. split; [constructor|].
  split; [apply emptyExercise_ok | cbn; lia].
Qed.

(** The table of common exercises has an entry for each of the four
    types. *)
Lemma commonExercises_defined (st : WorkoutScreen) :
  In (selectedType st) (map et_id EXERCISE_TYPES) ->
  exists names, commonExercises st = Ok names.
Proof.
  unfold commonExercises. cbn [map EXERCISE_TYPES et_id In].
  intros [<-|[<-|[<-|[<-|[]]]]]; eexists; reflexivity.
Qed.

Lemma workout_entry_ok (st : WorkoutScreen) (now : Z) :
  workout_form_ok st -> ws_exercises st <> [] -> valid_duration st = true ->
  workout_ok (workout_entry st now).
Proof.
  intros (Ht & Hx & _ & Hlen) Hne Hv. unfold workout_ok.
  assert (exists d, parseInt (workoutDuration st) = Int d /\ (0 < d < 2 ^ 48)%Z) as (d & Hd & Hz).
  { destruct (parseInt_short _ Hlen) as [E|(z & E & Hz)];
      apply valid_duration_spec in Hv as [(d & Hd & Hpos)|Hd]; try congruence.
    exists d. split; [exact Hd|]. rewrite Hd in E. injection E as <-. lia. }
  split; [exact Ht|]. split; [|split; [exact Hx|]].
  { cbn [workout_entry exercises]. exact Hne. }
  assert (Z.abs (d * 5) < 2 ^ 53)%Z as Hb.
  { change (2 ^ 48)%Z with 281474976710656%Z in Hz.
    change (2 ^ 53)%Z with 9007199254740992%Z. lia. }
  split.
  - exists d. rewrite (workout_entry_exact st now d Hd Hb). cbn [duration caloriesBurned].
    split; [reflexivity|]. split; [lia | reflexivity].
  - apply (workout_entry_finite st now d); [|exact Hd|exact Hb].
    eapply Forall_impl; [exact Hx|]. intros x [_ H]. now apply exercise_ok_finite.
Qed.

Lemma saveWorkout_writes (st : WorkoutScreen) (w : World) :
  workout_form_ok st ->
  fst (saveWorkout st w) = Ok tt
  /\ faulty (snd (saveWorkout st w)) = faulty w
  /\ exists new, calls (snd (saveWorkout st w)) = calls w ++ new
                 /\ only_on EXERCISE_KEY workout_text new.
Proof.
  intros Hok. rewrite saveWorkout_exact.
  assert (forall title msg,
            fst (Ok tt, alerted w title msg) = Ok tt
            /\ faulty (snd (Ok tt, alerted w title msg)) = faulty w
            /\ exists new, calls (snd (Ok tt, alerted w title msg)) = calls w ++ new
                           /\ only_on EXERCISE_KEY workout_text new) as Hnone.
  { intros title msg. split; [reflexivity|]. split; [reflexivity|].
    exists []. split; [cbn; now rewrite app_nil_r | constructor]. }
  destruct (length (ws_exercises st) =? 0)%nat eqn:E; [apply Hnone|].
  assert (ws_exercises st <> []) as Hne by (intros H; apply length_zero in H; congruence).
  destruct (negb (str_truthy (trim (workoutDuration st)))); [apply Hnone|].
  destruct (valid_duration st) eqn:Hv; cbn [negb]; [|apply Hnone].
  rewrite addExerciseEntry_eq, add_entry_exact.
  destruct (read_result EXERCISE_KEY w) as [|b|n|s|l|l] eqn:Hr;
    try (split; [reflexivity|]; split; [reflexivity|];
         exists [GetItem EXERCISE_KEY]; split; [cbn; now rewrite app_nil_r|];
         constructor; [reflexivity | constructor]).
  cbv zeta.
  assert (only_on EXERCISE_KEY workout_text
            [GetItem EXERCISE_KEY;
             SetItem EXERCISE_KEY
               (JSON_stringify
                  (VArr (l ++ [ExerciseEntry_value (workout_entry st (clock w))])))])
    as Hnew.
  { constructor; [reflexivity|]. constructor; [|constructor]. split; [reflexivity|].
    exists l, (workout_entry st (clock w)). split; [reflexivity|].
    pose proof (workout_entry_ok st (clock w) Hok Hne Hv) as Hm. split; [|exact Hm].
    apply JSON_roundtrip. apply faithful_arr. apply Forall_app.
    split; [exact (read_result_array_faithful _ _ _ Hr)|].
    constructor; [|constructor]. apply faithful_workout. apply Hm. }
  destruct (write_fails w); (split; [reflexivity|]; split; [reflexivity|]);
    eexists; (split; [|exact Hnew]); cbn; now rewrite ?app_nil_r.
Qed.

Lemma workout_handler_run (ev : WorkoutEvent) (st : WorkoutScreen) (w : World) :
  short_workout_event ev -> workout_form_ok st ->
  exists st' new,
    fst (workout_handler ev st w) = Ok st'
    /\ workout_form_ok st'
    /\ faulty (snd (workout_handler ev st w)) = faulty w
    /\ calls (snd (workout_handler ev st w)) = calls w ++ new
    /\ only_on EXERCISE_KEY workout_text new.
Proof.
  intros Hshort Hok.
  assert (forall st', workout_form_ok st' ->
            exists st'' new,
              fst (ret st' w) = Ok st'' /\ workout_form_ok st''
              /\ faulty (snd (ret st' w)) = faulty w
              /\ calls (snd (ret st' w)) = calls w ++ new
              /\ only_on EXERCISE_KEY workout_text new) as Hret.
  { intros st' H. exists st', []. cbn. rewrite app_nil_r.
    split; [reflexivity|]. split; [exact H|]. split; [reflexivity|].
    split; [reflexivity | constructor]. }
  pose proof Hok as (Ht & Hx & Hcur & Hlen).
  pose proof Hcur as (H1 & H2 & H3 & H4 & H5).
  assert (forall text, workout_form_ok (setExerciseName text st)) as Hname.
  { intros text. split; [exact Ht|]. split; [exact Hx|]. split; [|exact Hlen].
    exact (conj H1 (conj H2 (conj H3 (conj H4 H5)))). }
  destruct ev as [n|text|n|input text|text| |index| ];
    cbn [workout_handler short_workout_event] in *.
  - destruct (nth_error EXERCISE_TYPES n) as [t|] eqn:E; apply Hret; [|exact Hok].
    split; [exact (nth_error_ids et_id _ _ _ E)|].
    split; [exact Hx|]. split; [exact Hcur | exact Hlen].
  - apply Hret, Hname.
  - destruct (commonExercises_defined st Ht) as [names ->]. unfold lift, bind.
    destruct (nth_error names n); apply Hret; [apply Hname | exact Hok].
  - destruct (existsb _ _); apply Hret; [|exact Hok].
    split; [exact Ht|]. split; [exact Hx|]. split; [|exact Hlen].
    pose proof (or_undefined_ok text Hshort) as Hv.
    destruct input.
    + exact (conj Hv (conj H2 (conj H3 (conj H4 H5)))).
    + exact (conj H1 (conj Hv (conj H3 (conj H4 H5)))).
    + exact (conj H1 (conj H2 (conj Hv (conj H4 H5)))).
    + exact (conj H1 (conj H2 (conj H3 (conj Hv H5)))).
    + exact (conj H1 (conj H2 (conj H3 (conj H4 Hv)))).
  - apply Hret. split; [exact Ht|]. split; [exact Hx|]. split; [exact Hcur | exact Hshort].
  - unfold addExercise.
    destruct (str_truthy (trim (ex_name (currentExercise st)))) eqn:E; cbn [negb].
    + apply Hret. split; [exact Ht|]. split; [|split; [apply emptyExercise_ok | exact Hlen]].
      apply Forall_app. split; [exact Hx|]. constructor; [|constructor].
      split; [|exact Hcur]. intros H. apply str_truthy_empty in H. congruence.
    + exists st, []. cbn. rewrite app_nil_r.
      split; [reflexivity|]. split; [exact Hok|]. split; [reflexivity|].
      split; [reflexivity | constructor].
  - destruct (index <? length (ws_exercises st))%nat; apply Hret; [|exact Hok].
    split; [exact Ht|]. split; [|split; [exact Hcur | exact Hlen]]. now apply splice1_Forall.
  - destruct (saveWorkout_writes st w Hok) as (Hr & Hfa & new & Hc & Hnew).
    unfold bind. destruct (saveWorkout st w) as [r w1]. cbn [fst snd] in *. subst r.
    exists st, new. cbn [ret fst snd].
    split; [reflexivity|]. split; [exact Hok|]. split; [exact Hfa|].
    split; [exact Hc | exact Hnew].
Qed.

Lemma workout_session_run (evs : list WorkoutEvent) :
  forall (st : WorkoutScreen) (w : World),
    Forall short_workout_event evs -> workout_form_ok st ->
    exists st' new,
      fst (workout_session evs st w) = Ok st'
      /\ workout_form_ok st'
      /\ faulty (snd (workout_session evs st w)) = faulty w
      /\ calls (snd (workout_session evs st w)) = calls w ++ new
      /\ only_on EXERCISE_KEY workout_text new.
Proof.
  induction evs as [|ev evs IH]; intros st w Hshort Hok.
  - exists st, []. cbn. rewrite app_nil_r.
    split; [reflexivity|]. split; [exact Hok|]. split; [reflexivity|].
    split; [reflexivity | constructor].
  - apply Forall_cons in Hshort as [Hev Hshort]. cbn [workout_session]. unfold bind.
    destruct (workout_handler_run ev st w Hev Hok) as (st1 & new1 & Hr & Hok1 & Hfa & Hc & Hn).
    destruct (workout_handler ev st w) as [r w1]. cbn [fst snd] in *. subst r.
    destruct (IH st1 w1 Hshort Hok1) as (st2 & new2 & Hr2 & Hok2 & Hfa2 & Hc2 & Hn2).
    exists st2, (new1 ++ new2). split; [exact Hr2|]. split; [exact Hok2|].
    split; [congruence|]. split; [|now apply only_on_app].
    rewrite Hc2, Hc. now rewrite app_assoc.
Qed.

(** X17.  Whatever is done on the workout screen, with numeric texts of
    fourteen characters at most, no handler raises, and at every moment the
    type is one of the four, so that the table of common exercises has a
    list to offer, every exercise of the list has a name that is not blank,
    and every numeric field of an exercise is absent or a whole number other
    than zero that binary64 holds exactly: a field typed as zero or as
    something that is not a number is left out. *)
Theorem workout_form_invariant (evs : list WorkoutEvent) (w : World) :
  Forall short_workout_event evs ->
  exists st,
    fst (workout_session evs initialWorkoutScreen w) = Ok st
    /\ workout_form_ok st
    /\ exists names, commonExercises st = Ok names.
Proof.
  intros H.
  destruct (workout_session_run evs initialWorkoutScreen w H initialWorkoutScreen_ok)
    as (st & _ & Hr & Hok & _).
  exists st. split; [exact Hr|]. split; [exact Hok|].
  apply commonExercises_defined, Hok.
Qed.

Lemma workout_form_invariant_witness :
  exists st,
    fst (workout_session workout_visit initialWorkoutScreen
           (device (fixed_zone 0) sunday_evening)) = Ok st
    /\ workout_form_ok st
    /\ exists names, commonExercises st = Ok names.
Proof.
  apply (workout_form_invariant workout_visit (device (fixed_zone 0) sunday_evening)).
  repeat constructor.
Defined.

(** X18.  Whatever is done on the workout screen, with numeric texts of
    fourteen characters at most, the only storage calls made are reads of
    the exercise key and writes to it, and every text written is a list that
    ends with a workout of one of the four types the weekly count knows,
    with at least one exercise, a duration that is a whole number above zero
    and five times that number, which binary64 holds exactly, as calories;
    and this text reads back as that very list. *)
Theorem workout_form_writes_workouts (evs : list WorkoutEvent) (w : World) :
  Forall short_workout_event evs ->
  exists new,
    calls (snd (workout_session evs initialWorkoutScreen w)) = calls w ++ new
    /\ only_on EXERCISE_KEY workout_text new.
Proof.
  intros H.
  destruct (workout_session_run evs initialWorkoutScreen w H initialWorkoutScreen_ok)
    as (st & new & _ & _ & _ & Hc & Hn).
  now exists new.
Qed.

Lemma workout_form_writes_workouts_witness :
  exists new,
    calls (snd (workout_session workout_visit initialWorkoutScreen
                  (device (fixed_zone 0) sunday_evening))) = [] ++ new
    /\ only_on EXERCISE_KEY workout_text new.
Proof.
  apply (workout_form_writes_workouts workout_visit (device (fixed_zone 0) sunday_evening)).
  repeat constructor.
Defined.

(** The visit of the example leaves one workout in the store: the sets,
    typed while the strength inputs were not on the screen, and the
    distance, typed as zero, are not part of it. *)
Example workout_visit_saves_running :
  fst (getExerciseEntries
         (snd (workout_session workout_visit initialWorkoutScreen
                 (device (fixed_zone 0) sunday_evening))))
  = Ok (VArr [ExerciseEntry_value
                {| ex_id := "1793575800000"; ex_date := "2026-11-01T23:30:00.000Z";
                   type := "cardio";
                   exercises := [{| ex_name := "Running"; sets := None; reps := None;
                                    weight := None; ex_duration := Some (Int 25);
                                    distance := None |}];
                   duration := Int 40; caloriesBurned := Int 200 |}])
  /\ alerts (snd (workout_session workout_visit initialWorkoutScreen
                    (device (fixed_zone 0) sunday_evening)))
     = [("Error", "Please enter workout duration");
        ("Success", "Workout saved successfully")].
Proof. split; vm_compute; reflexivity. Qed.

(** ** The exercise screen *)

Lemma loadWorkouts_exact (st : ExerciseScreen) (w : World) :
  let w1 := snd (getTodaysExerciseEntries w) in
  loadWorkouts st w
  = (Ok {| workouts := todays_of (host w) (clock w) (read_result EXERCISE_KEY w);
           weeklyProgress := weekly_of (host w) (clock w) (read_result EXERCISE_KEY w1) |},
     snd (getWeeklyExerciseProgress w1)).
Proof.
  cbv zeta. unfold loadWorkouts, try_catch, bind.
  rewrite getTodaysExerciseEntries_eq, get_todays_exact. cbn [snd].
  rewrite getWeeklyExerciseProgress_exact. reflexivity.
Qed.

Lemma todays_of_nonnull (h : Host) (now : Z) (v : value) :
  exists l, todays_of h now v = VArr l /\ Forall (fun e => e <> VNull) l.
Proof.
  destruct (filterable v) eqn:Hf.
  - destruct (filterable_list _ Hf) as (l & -> & Hl).
    rewrite todays_of_list, Hl. eexists. split; [reflexivity|].
    apply filter_keeps. apply List.Forall_forall. intros e He. apply readable_not_null.
    rewrite forallb_forall in Hl. now apply Hl.
  - rewrite todays_of_unfilterable by exact Hf. exists []. split; [reflexivity | constructor].
Qed.

(** X19.  Loading the exercise screen never raises and never reaches its own
    [catch] block.  Whatever the state was, it sets both parts of it: the
    workouts to what the daily reader returns, the weekly counts to what the
    weekly count returns right after.  It makes two [getItem] calls on the
    exercise key and no other call, and leaves the stored data and the
    alerts as they were. *)
Theorem loadWorkouts_outcome (st : ExerciseScreen) (w : World) :
  let w1 := snd (getTodaysExerciseEntries w) in
  let w' := snd (loadWorkouts st w) in
  exists st',
    fst (loadWorkouts st w) = Ok st'
    /\ fst (getTodaysExerciseEntries w) = Ok (workouts st')
    /\ fst (getWeeklyExerciseProgress w1) = Ok (weeklyProgress st')
    /\ storage w' = storage w
    /\ calls w' = calls w ++ [GetItem EXERCISE_KEY; GetItem EXERCISE_KEY]
    /\ alerts w' = alerts w
    /\ exists logs, console w' = console w ++ logs
                    /\ ~ In "Error loading workouts:" logs.
Proof.
  cbv zeta. rewrite loadWorkouts_exact. cbv zeta. cbn [fst snd].
  eexists. split; [reflexivity|]. cbn [workouts weeklyProgress].
  rewrite getTodaysExerciseEntries_eq, get_todays_exact. cbn [fst snd].
  rewrite getWeeklyExerciseProgress_exact. cbn [fst snd after storage calls alerts console host clock].
  split; [reflexivity|]. split; [reflexivity|]. split; [reflexivity|].
  split; [now rewrite <- app_assoc|]. split; [reflexivity|].
  eexists. split; [symmetry; apply app_assoc|].
  unfold logged. intros Hin.
  repeat match type of Hin with
  | In _ (_ ++ _) => apply in_app_or in Hin as [Hin|Hin]
  | In _ (if ?b then _ else _) => destruct b
  | In _ [_] => destruct Hin as [Hin|Hin]; [discriminate Hin|]
  | In _ [] => destruct Hin
  end.
Qed.

Lemma filter_length_cons (f : value -> bool) (e : value) (l : list value) :
  length (List.filter f (e :: l)) = (if f e then 1 else 0) + length (List.filter f l).
Proof. cbn [List.filter]. now destruct (f e). Qed.

(** An entry has at most one of the four types. *)
Lemma one_type (e : value) :
  (if typed_as "strength" e then 1 else 0) + (if typed_as "cardio" e then 1 else 0)
  + (if typed_as "walking" e then 1 else 0) + (if typed_as "flexibility" e then 1 else 0)
  = if known_type e then 1 else 0.
Proof.
  unfold known_type. cbn [existsb EXERCISE_TYPES et_id].
  unfold typed_as, strict_eq_str.
  destruct (entry_type e) as [[| | |t| |]|]; try reflexivity.
  destruct (String.eqb_spec t "strength") as [->|]; [reflexivity|].
  destruct (String.eqb_spec t "cardio") as [->|]; [reflexivity|].
  destruct (String.eqb_spec t "walking") as [->|]; [reflexivity|].
  destruct (String.eqb_spec t "flexibility") as [->|]; reflexivity.
Qed.

Lemma sections_sum (l : list value) :
  list_sum (map (fun t => length (List.filter (typed_as (et_id t)) l)) EXERCISE_TYPES)
  = length (List.filter known_type l).
Proof.
  cbn [map EXERCISE_TYPES et_id list_sum].
  induction l as [|e l IH]; [reflexivity|].
  rewrite !filter_length_cons, <- one_type, <- IH.
  unfold list_sum. cbn [fold_right]. lia.
Qed.

(** X20.  The four cards of the exercise screen.  After a load, on any
    device and from any state, the filter of each card never raises: the
    workouts are a list without a [null] in it.  The card of a type shows
    the workouts of that type, in their order, and the four cards together
    show each workout whose type is one of the four exactly once. *)
Theorem sections_split_todays_workouts (st : ExerciseScreen) (w : World) :
  exists st' l,
    fst (loadWorkouts st w) = Ok st'
    /\ workouts st' = VArr l
    /\ (forall t, typeWorkouts t st' = Ok (List.filter (typed_as (et_id t)) l))
    /\ list_sum (map (fun t => length (List.filter (typed_as (et_id t)) l)) EXERCISE_TYPES)
       = length (List.filter known_type l).
Proof.
  rewrite loadWorkouts_exact. cbv zeta. cbn [fst].
  destruct (todays_of_nonnull (host w) (clock w) (read_result EXERCISE_KEY w)) as (l & Hl & Hnn).
  eexists _, l. split; [reflexivity|]. cbn [workouts]. split; [exact Hl|].
  split; [|apply sections_sum].
  intros t. unfold typeWorkouts. cbn [workouts]. rewrite Hl.
  apply filter_list_total. eapply Forall_impl; [exact Hnn|]. intros e. apply has_type_spec.
Qed.

(** ** The progress bars *)

Section rounding.
Local Open Scope Z_scope.

(** Rounding a quotient to the nearest whole number, a tie going to the
    even one, never reverses an order. *)
Lemma nearest_mono (a a' d : Z) :
  0 < d -> a <= a' ->
  (if (d <? 2 * (a mod d)) || ((2 * (a mod d) =? d) && Z.odd (a / d))
   then a / d + 1 else a / d)
  <= (if (d <? 2 * (a' mod d)) || ((2 * (a' mod d) =? d) && Z.odd (a' / d))
      then a' / d + 1 else a' / d).
Proof.
  intros Hd Ha.
  pose proof (Z.div_le_mono a a' d Hd Ha) as Hq.
  pose proof (Z.div_mod a d ltac:(lia)) as E. pose proof (Z.div_mod a' d ltac:(lia)) as E'.
  pose proof (Z.mod_pos_bound a d Hd) as Hr. pose proof (Z.mod_pos_bound a' d Hd) as Hr'.
  destruct (Z.eq_dec (a / d) (a' / d)) as [Heq|Hne].
  - rewrite <- Heq in *. assert (a mod d <= a' mod d) as Hrr by lia.
    destruct (d <? 2 * (a mod d)) eqn:E1; cbn [orb].
    + apply Z.ltb_lt in E1. assert ((d <? 2 * (a' mod d)) = true) as -> by (apply Z.ltb_lt; lia).
      cbn [orb]. lia.
    + destruct ((2 * (a mod d) =? d) && Z.odd (a / d)) eqn:E2.
      * apply andb_prop in E2 as [E2 E3]. apply Z.eqb_eq in E2.
        destruct (d <? 2 * (a' mod d)) eqn:E4; cbn [orb]; [lia|].
        apply Z.ltb_ge in E4. assert ((2 * (a' mod d) =? d) = true) as ->
          by (apply Z.eqb_eq; lia).
        rewrite E3. cbn [andb]. lia.
      * destruct ((d <? 2 * (a' mod d)) || ((2 * (a' mod d) =? d) && Z.odd (a / d))); lia.
  - assert (a / d + 1 <= a' / d) by lia.
    destruct ((d <? 2 * (a mod d)) || ((2 * (a mod d) =? d) && Z.odd (a / d)));
      destruct ((d <? 2 * (a' mod d)) || ((2 * (a' mod d) =? d) && Z.odd (a' / d))); lia.
Qed.

Lemma nearest_bounds (a d : Z) :
  0 < d ->
  a / d <= (if (d <? 2 * (a mod d)) || ((2 * (a mod d) =? d) && Z.odd (a / d))
            then a / d + 1 else a / d) <= a / d + 1.
Proof.
  intros _. destruct ((d <? 2 * (a mod d)) || ((2 * (a mod d) =? d) && Z.odd (a / d))); lia.
Qed.

(** The exponent leaves at most 53 bits to the significand, and exactly 53
    when it is not zero. *)
Lemma exponent_spec (t : Z) :
  0 <= t ->
  let s := Z.max 0 (Z.log2 t - 52) in
  0 <= s /\ t / 2 ^ s < 2 ^ 53 /\ (0 < s -> 2 ^ 52 <= t / 2 ^ s).
Proof.
  intros Ht s. assert (0 <= s) as Hs by (subst s; lia). split; [exact Hs|].
  destruct (Z.eq_dec t 0) as [->|Hne].
  { rewrite Z.div_0_l by (apply Z.pow_nonzero; lia). split; [lia|].
    subst s. cbn. lia. }
  pose proof (Z.log2_spec t ltac:(lia)) as [Hlo Hhi].
  pose proof (Z.log2_nonneg t) as Hl.
  split.
  - apply Z.div_lt_upper_bound; [apply Z.pow_pos_nonneg; lia|].
    rewrite <- Z.pow_add_r by lia.
    eapply Z.lt_le_trans; [exact Hhi|]. apply Z.pow_le_mono_r; lia.
  - intros Hpos. assert (s = Z.log2 t - 52) as Es by lia.
    apply Z.div_le_lower_bound; [apply Z.pow_pos_nonneg; lia|].
    rewrite <- Z.pow_add_r by lia. replace (s + 52) with (Z.log2 t) by lia. exact Hlo.
Qed.

Lemma b64_round_nonneg (a b : Z) : 0 <= a -> 0 < b -> 0 <= b64_round a b.
Proof.
  intros Ha Hb. unfold b64_round.
  set (s := Z.max 0 (Z.log2 (a / b) - 52)).
  assert (0 <= s) by (subst s; lia).
  assert (0 < 2 ^ s) by (apply Z.pow_pos_nonneg; lia).
  pose proof (nearest_bounds a (b * 2 ^ s) ltac:(nia)) as [Hlo _].
  pose proof (Z.div_pos a (b * 2 ^ s) Ha ltac:(nia)). nia.
Qed.

(** Rounding never reverses an order. *)
Lemma b64_round_mono (a a' b : Z) :
  0 <= a -> a <= a' -> 0 < b -> b64_round a b <= b64_round a' b.
Proof.
  intros Ha Hle Hb. unfold b64_round.
  pose proof (Z.div_pos a b Ha Hb) as Ht.
  pose proof (Z.div_le_mono a a' b Hb Hle) as Htt.
  pose proof (Z.log2_le_mono (a / b) (a' / b) Htt) as Hlog.
  set (s := Z.max 0 (Z.log2 (a / b) - 52)). set (s' := Z.max 0 (Z.log2 (a' / b) - 52)).
  assert (s <= s') as Hss by (subst s s'; lia).
  destruct (exponent_spec (a / b) Ht) as (Hs & Hup & _). fold s in Hs, Hup.
  destruct (exponent_spec (a' / b) ltac:(lia)) as (Hs' & _ & Hlow). fold s' in Hs', Hlow.
  assert (0 < 2 ^ s) as Hp by (apply Z.pow_pos_nonneg; lia).
  assert (0 < 2 ^ s') as Hp' by (apply Z.pow_pos_nonneg; lia).
  destruct (Z.eq_dec s s') as [<-|Hne].
  - apply Z.mul_le_mono_nonneg_r; [lia|]. apply nearest_mono; nia.
  - pose proof (nearest_bounds a (b * 2 ^ s) ltac:(nia)) as [_ Hhi].
    pose proof (nearest_bounds a' (b * 2 ^ s') ltac:(nia)) as [Hlo _].
    rewrite <- !Z.div_div in Hhi, Hlo by lia.
    specialize (Hlow ltac:(lia)).
    assert (2 ^ s' = 2 ^ s * 2 ^ (s' - s)) as Epow
      by (rewrite <- Z.pow_add_r by lia; f_equal; lia).
    assert (2 <= 2 ^ (s' - s)) as H2
      by (change 2 with (2 ^ 1) at 1; apply Z.pow_le_mono_r; lia).
    rewrite <- !Z.div_div by lia.
    etransitivity; [apply Z.mul_le_mono_nonneg_r; [lia | exact Hhi]|].
    etransitivity; [|apply Z.mul_le_mono_nonneg_r; [lia | exact Hlo]].
    change (2 ^ 53) with (2 * 2 ^ 52) in Hup. nia.
Qed.

(** A quotient that is one is read as one. *)
Lemma b64_round_one (b : Z) : 0 < b -> b64_round (b * 2 ^ 1074) b = 2 ^ 1074.
Proof.
  intros Hb. unfold b64_round.
  rewrite (Z.mul_comm b (2 ^ 1074)), Z.div_mul by lia.
  rewrite Z.log2_pow2 by lia. change (Z.max 0 (1074 - 52)) with 1022.
  replace (2 ^ 1074 * b) with (2 ^ 52 * (b * 2 ^ 1022))
    by (change (2 ^ 1074) with (2 ^ 52 * 2 ^ 1022); ring).
  assert (0 < b * 2 ^ 1022) as Hd by (apply Z.mul_pos_pos; [lia | reflexivity]).
  rewrite Z.div_mul, Z.mod_mul by lia.
  assert ((b * 2 ^ 1022 <? 2 * 0) = false) as -> by (apply Z.ltb_ge; lia).
  assert ((2 * 0 =? b * 2 ^ 1022) = false) as -> by (apply Z.eqb_neq; lia).
  reflexivity.
Qed.
End rounding.

Lemma percentage_mono (value value' goal : nat) :
  0 < goal -> value <= value' -> (percentage value goal <= percentage value' goal)%Z.
Proof.
  intros Hg Hv. unfold percentage, b64_mul, b64_div, b64_of_nat.
  apply Z.min_le_compat_r.
  assert (0 < 2 ^ 1074)%Z as Hu by reflexivity.
  assert (0 < Z.of_nat goal * 2 ^ 1074)%Z as Hb by (apply Z.mul_pos_pos; lia).
  assert (0 <= Z.of_nat value * 2 ^ 1074 * 2 ^ 1074)%Z as Ha
    by (repeat apply Z.mul_nonneg_nonneg; lia).
  pose proof (b64_round_nonneg _ _ Ha Hb) as H0.
  apply b64_round_mono; [| |exact Hu].
  - apply Z.mul_nonneg_nonneg; [exact H0 | lia].
  - apply Z.mul_le_mono_nonneg_r; [lia|].
    apply b64_round_mono; [exact Ha | | exact Hb].
    repeat (apply Z.mul_le_mono_nonneg_r; [lia|]). lia.
Qed.

Lemma percentage_bounds (value goal : nat) :
  0 < goal -> (0 <= percentage value goal <= b64_of_nat 100)%Z.
Proof.
  intros Hg. unfold percentage. split; [|apply Z.le_min_r].
  apply Z.min_glb; [|unfold b64_of_nat; lia].
  unfold b64_mul, b64_div, b64_of_nat.
  assert (0 < Z.of_nat goal * 2 ^ 1074)%Z as Hb by (apply Z.mul_pos_pos; lia).
  assert (0 <= Z.of_nat value * 2 ^ 1074 * 2 ^ 1074)%Z as Ha
    by (repeat apply Z.mul_nonneg_nonneg; lia).
  pose proof (b64_round_nonneg _ _ Ha Hb) as H0.
  apply b64_round_nonneg; [|reflexivity]. apply Z.mul_nonneg_nonneg; [exact H0 | lia].
Qed.

Lemma percentage_goal (goal : nat) : 0 < goal -> percentage goal goal = b64_of_nat 100.
Proof.
  intros Hg. unfold percentage, b64_mul, b64_div.
  rewrite b64_round_one by (unfold b64_of_nat; apply Z.mul_pos_pos; lia).
  vm_compute. reflexivity.
Qed.

Lemma percentage_full (value goal : nat) :
  0 < goal -> goal <= value -> percentage value goal = b64_of_nat 100.
Proof.
  intros Hg Hv. apply Z.le_antisymm; [now apply percentage_bounds|].
  rewrite <- (percentage_goal goal Hg). now apply percentage_mono.
Qed.

(** Two thirds of the way to a goal of three: the bar is at
    66.66666666666666, just below two hundred thirds. *)
Example two_of_three :
  percentage 2 3 = (4691249611844266 * 2 ^ 1028)%Z
  /\ (3 * percentage 2 3 < 200 * b64_of_nat 1)%Z.
Proof. split; vm_compute; reflexivity. Qed.

(** X21.  The width of a progress bar, for a goal that is not zero and
    counts below 2^53 (the counts are lengths of arrays), as binary64
    computes it.  It lies between 0 and 100, it is 100 once the count has
    reached the goal, and a higher count never gives a narrower bar.  For
    the goals of the screen, 3, 4 and 5, it is below 100 as long as the
    count is below the goal, so that a bar is full exactly when its goal is
    reached; and the four bars of the screen are within 0 and 100. *)
Theorem progress_bar_width (st : ExerciseScreen) (value value' goal : nat) :
  0 < goal ->
  (Z.of_nat goal < 2 ^ 53)%Z ->
  (Z.of_nat value <= Z.of_nat value' < 2 ^ 53)%Z ->
  (0 <= percentage value goal <= b64_of_nat 100)%Z
  /\ (goal <= value -> percentage value goal = b64_of_nat 100)
  /\ (percentage value goal <= percentage value' goal)%Z
  /\ (In goal [strength WEEKLY_GOALS; cardio WEEKLY_GOALS; walking WEEKLY_GOALS;
               flexibility WEEKLY_GOALS] ->
      value < goal -> (percentage value goal < b64_of_nat 100)%Z)
  /\ Forall (fun bar => (0 <= snd bar <= b64_of_nat 100)%Z) (progressBars st).
Proof.
  intros Hg _ [Hv _].
  split; [now apply percentage_bounds|].
  split; [now apply percentage_full|].
  split; [apply percentage_mono; lia|].
  split.
  - cbn [WEEKLY_GOALS strength cardio walking flexibility In].
    intros Hin Hlt.
    assert (forall g, 0 < g -> (percentage (g - 1) g < b64_of_nat 100)%Z ->
              value < g -> (percentage value g < b64_of_nat 100)%Z) as Hbelow.
    { intros g Hg' Hlast Hvg. eapply Z.le_lt_trans; [|exact Hlast].
      apply percentage_mono; lia. }
    destruct Hin as [<-|[<-|[<-|[<-|[]]]]]; (apply Hbelow; [lia | vm_compute; reflexivity | exact Hlt]).
  - unfold progressBars. repeat (constructor; [apply percentage_bounds; cbn; lia|]).
    constructor.
Qed.

Lemma progress_bar_width_witness :
  (percentage 2 3 <= percentage 7 3)%Z
  /\ percentage 7 3 = b64_of_nat 100
  /\ (percentage 2 3 < b64_of_nat 100)%Z.
Proof.
  pose proof (progress_bar_width initialExerciseScreen 2 7 3 ltac:(lia)
                ltac:(vm_compute; reflexivity) ltac:(split; vm_compute; [discriminate | reflexivity]))
    as (_ & _ & H1 & H2 & _).
  pose proof (progress_bar_width initialExerciseScreen 7 7 3 ltac:(lia)
                ltac:(vm_compute; reflexivity) ltac:(split; vm_compute; [discriminate | reflexivity]))
    as (_ & H3 & _).
  split; [exact H1|]. split; [apply H3; lia|]. apply H2; [now left | lia].
Defined.

(** ** Lists with a [null], entries of another type *)

Lemma weekly_of_unfilterable (h : Host) (now : Z) (v : value) :
  filterable v = false -> weekly_of h now v = no_progress.
Proof.
  intros H. rewrite weekly_of_filterable. destruct v; try reflexivity. now rewrite H.
Qed.

Lemma null_unfilterable (l : list value) : In VNull l -> filterable (VArr l) = false.
Proof.
  intros Hin. cbn [filterable]. apply not_true_is_false. intros H.
  rewrite forallb_forall in H. specialize (H _ Hin). discriminate.
Qed.

(** X23.  One [null] blanks the views.  When the list read holds a [null],
    the plain reader still returns the list as it is, but the daily reader
    returns the empty list and the weekly counts are all zero, whatever else
    the list holds. *)
Theorem a_null_entry_blanks_the_views (w : World) (l : list value) :
  In VNull l ->
  (read_result DIET_KEY w = VArr l ->
     fst (getDietEntries w) = Ok (VArr l)
     /\ fst (getTodaysDietEntries w) = Ok (VArr []))
  /\ (read_result EXERCISE_KEY w = VArr l ->
        fst (getExerciseEntries w) = Ok (VArr l)
        /\ fst (getTodaysExerciseEntries w) = Ok (VArr [])
        /\ fst (getWeeklyExerciseProgress w) = Ok no_progress).
Proof.
  intros Hin. pose proof (null_unfilterable l Hin) as Hf.
  rewrite getDietEntries_eq, getExerciseEntries_eq, getTodaysDietEntries_eq,
    getTodaysExerciseEntries_eq, !get_entries_exact, !get_todays_exact,
    getWeeklyExerciseProgress_exact.
  cbn [fst]. split; intros ->.
  - now rewrite todays_of_unfilterable.
  - now rewrite todays_of_unfilterable, weekly_of_unfilterable.
Qed.

Lemma a_null_entry_blanks_the_views_witness :
  fst (getExerciseEntries holed_device) = Ok (VArr [VNull; ExerciseEntry_value workout])
  /\ fst (getTodaysExerciseEntries holed_device) = Ok (VArr [])
  /\ fst (getWeeklyExerciseProgress holed_device) = Ok no_progress.
Proof.
  apply (a_null_entry_blanks_the_views holed_device [VNull; ExerciseEntry_value workout]).
  - now left.
  - vm_compute. reflexivity.
Defined.

(** X24.  The weekly counts leave out the entries of another type.  When the
    read succeeds on a stored list and the filter can read a date off every
    element of it (none is [null], no date is an object that does not
    convert to a primitive), the four counts together are the number of
    entries dated this week whose type is one of the four: an entry of any
    other type, or without a type, is in none of them. *)
Theorem weekly_counts_add_up (w : World) (l : list value) :
  fails_next w = false ->
  stored EXERCISE_KEY w = VArr l ->
  forallb readable l = true ->
  exists p,
    fst (getWeeklyExerciseProgress w) = Ok p
    /\ strength p + cardio p + walking p + flexibility p
       = length (List.filter
                   (fun e => dated_this_week (host w) (clock w) e && known_type e) l).
Proof.
  intros Hf Hst Hl. rewrite getWeeklyExerciseProgress_exact. cbn [fst].
  unfold read_result. rewrite Hf, Hst, weekly_of_list, Hl.
  eexists. split; [reflexivity|].
  unfold progress_of, count_week. cbn [strength cardio walking flexibility].
  clear Hst Hl. induction l as [|e l IH]; [reflexivity|].
  rewrite !filter_length_cons, <- IH.
  pose proof (one_type e) as Ht.
  destruct (dated_this_week (host w) (clock w) e); cbn [andb]; lia.
Qed.

Lemma weekly_counts_add_up_witness :
  exists p,
    fst (getWeeklyExerciseProgress week_device) = Ok p
    /\ strength p + cardio p + walking p + flexibility p
       = length (List.filter
                   (fun e => dated_this_week kolkata sunday_evening e && known_type e)
                   (map ExerciseEntry_value week_sample)).
Proof.
  apply (weekly_counts_add_up week_device (map ExerciseEntry_value week_sample)).
  - reflexivity.
  - vm_compute. reflexivity.
  - reflexivity.
Defined.

(** ** What the inputs show *)

Lemma read_digits_count (s : string) :
  forall acc cnt, cnt <= snd (fst (read_digits s acc cnt)).
Proof.
  induction s as [|c r IH]; intros acc cnt; cbn [read_digits]; [cbn; lia|].
  destruct (is_digit c); [|cbn; lia].
  specialize (IH (acc * 10 + digit_val c)%Z (S cnt)). lia.
Qed.

(** A text that starts with a sign or a digit has no white space to
    skip. *)
Lemma trim_start_text (c : ascii) (r : string) :
  (33 <= code c < 128)%Z -> trim_start (String c r) = String c r.
Proof.
  intros Hc. cbn [trim_start].
  assert (is_white c = false) as ->.
  { unfold is_white. cbv zeta. repeat (apply orb_false_intro); apply Z.eqb_neq; lia. }
  destruct r as [|c2 r2]; [reflexivity|].
  assert (is_white2 c c2 = false) as ->.
  { unfold is_white2. apply andb_false_intro1. apply Z.eqb_neq. lia. }
  destruct r2 as [|c3 r3]; [reflexivity|].
  assert (is_white3 c c2 c3 = false) as ->; [|reflexivity].
  unfold is_white3. cbv zeta.
  assert (forall k, (128 <= k)%Z -> (code c =? k)%Z = false) as Hk
    by (intros k Hk; apply Z.eqb_neq; lia).
  rewrite !Hk by lia. reflexivity.
Qed.

(** [parseInt] of the numeral of a natural number. *)
Lemma parseInt_digits (n : Z) (neg : bool) :
  (0 <= n < 2 ^ 53)%Z -> (neg = true -> 1 <= n)%Z ->
  parseInt (if neg then String "-" (digits n "") else digits n "")
  = Int (if neg then - n else n).
Proof.
  intros [Hn Hsafe] Hneg.
  assert (exists c r, digits n "" = String c r /\ is_digit c = true
                      /\ (code c = 48%Z -> r = "")) as (c & r & Hd & Hc & Hz).
  { destruct (Z.eq_dec n 0%Z) as [->|Hne].
    - exists "0"%char, "". repeat split.
    - destruct (digits_head n "" ltac:(lia)) as (c & r & H1 & H2 & H3).
      exists c, r. repeat split; try assumption. intros E. contradiction. }
  destruct (read_digits_digits n Hn) as [d Hread].
  specialize (Hread "" 0). cbn [read_digits] in Hread.
  assert (read_digits (digits n "") 0 0 = (n, 0 + d, "") /\ 1 <= 0 + d) as [Hr Hcnt].
  { split; [exact Hread|].
    pose proof (read_digits_count r (0 * 10 + digit_val c)%Z 1) as Hle.
    rewrite Hd in Hread. cbn [read_digits] in Hread. rewrite Hc in Hread.
    rewrite Hread in Hle. cbn [fst snd] in Hle. lia. }
  assert (parseInt (if neg then String "-" (digits n "") else digits n "")
          = let '(v, cnt) :=
              match digits n "" with
              | String z (String x r0) =>
                  if ((code z =? 48) && ((code x =? 120) || (code x =? 88)))%Z
                  then read_hex r0 0 0
                  else let '(v, m, _) := read_digits (digits n "") 0 0 in (v, m)
              | _ => let '(v, m, _) := read_digits (digits n "") 0 0 in (v, m)
              end in
            match cnt with
            | O => NaN
            | S _ => round64 (if neg then - v else v)
            end) as ->.
  { unfold parseInt. destruct neg.
    - rewrite (trim_start_text "-") by (split; vm_compute; [discriminate | reflexivity]).
      change (code "-" =? 45)%Z with true. cbv iota. reflexivity.
    - rewrite Hd. pose proof Hc as Hc'. apply is_digit_spec in Hc'.
      rewrite (trim_start_text c) by lia.
      destruct (code c =? 45)%Z eqn:E1; [apply Z.eqb_eq in E1; lia|].
      destruct (code c =? 43)%Z eqn:E2; [apply Z.eqb_eq in E2; lia|].
      reflexivity. }
  assert (match digits n "" with
          | String z (String x r0) =>
              if ((code z =? 48) && ((code x =? 120) || (code x =? 88)))%Z
              then read_hex r0 0 0
              else let '(v, m, _) := read_digits (digits n "") 0 0 in (v, m)
          | _ => let '(v, m, _) := read_digits (digits n "") 0 0 in (v, m)
          end = (n, 0 + d)) as ->.
  { rewrite Hr. rewrite Hd. destruct r as [|x r0]; [reflexivity|].
    destruct (code c =? 48)%Z eqn:E; [|reflexivity].
    apply Z.eqb_eq in E. specialize (Hz E). discriminate. }
  cbv iota beta. destruct (0 + d) as [|m] eqn:E; [lia|].
  apply round64_safe. destruct neg; lia.
Qed.

Lemma parseInt_toString (z : Z) :
  (Z.abs z < 2 ^ 53)%Z -> parseInt (Number_toString (Int z)) = Int z.
Proof.
  intros Hz. unfold Number_toString. cbn [print_number]. unfold print_Z.
  destruct (z <? 0)%Z eqn:E.
  - apply Z.ltb_lt in E. rewrite (parseInt_digits (- z) true) by lia. f_equal. lia.
  - apply Z.ltb_ge in E. apply (parseInt_digits z false); [lia | discriminate].
Qed.

Lemma or_zero_toString (n : number) :
  safe n -> or_zero (parseInt (Number_toString n)) = n.
Proof.
  intros (z & -> & Hz). rewrite parseInt_toString by exact Hz. unfold or_zero. cbn [num_truthy].
  destruct (Z.eqb_spec z 0%Z) as [->|]; reflexivity.
Qed.

Lemma Number_toString_truthy (z : Z) : str_truthy (Number_toString (Int z)) = true.
Proof.
  unfold Number_toString. cbn [print_number]. unfold print_Z.
  destruct (z <? 0)%Z eqn:E; [reflexivity|]. apply Z.ltb_ge in E.
  destruct (Z.eq_dec z 0%Z) as [->|Hne]; [reflexivity|].
  destruct (digits_head z "" ltac:(lia)) as (c & r & -> & _). reflexivity.
Qed.

Lemma or_undefined_toString (o : option number) :
  detail_ok o ->
  or_undefined (parseInt (match o with
                          | Some n => let s := Number_toString n in
                                      if str_truthy s then s else ""
                          | None => ""
                          end)) = o.
Proof.
  destruct o as [n|]; [|reflexivity]. intros [(z & -> & Hz) Hnz]. cbv zeta.
  rewrite Number_toString_truthy, parseInt_toString by exact Hz.
  unfold or_undefined. cbn [num_truthy].
  destruct (Z.eqb_spec z 0%Z) as [->|]; [now destruct Hnz | reflexivity].
Qed.

(** X25.  The numeric inputs show what the form holds.  Each input is given
    the numeral of its field as its text and a change handler that parses
    the text back.  Parsing the text an input shows gives the field it
    shows: handling a change to the very text shown leaves the form as it
    is.  This holds of the meal form, whose fields are whole numbers, and of
    the workout form, whose fields are absent or whole numbers other than
    zero. *)
Theorem inputs_show_what_is_held (m : MealScreen) (s : WorkoutScreen) (input : DetailInput) :
  (meal_form_ok m ->
     setCalories (caloriesText m) m = m
     /\ setProtein (proteinText m) m = m
     /\ setCarbs (carbsText m) m = m
     /\ setFat (fatText m) m = m)
  /\ (workout_form_ok s -> setDetail input (detailText input s) s = s).
Proof.
  split.
  - intros (_ & _ & H1 & H2 & H3 & H4).
    unfold setCalories, setProtein, setCarbs, setFat, caloriesText, proteinText,
      carbsText, fatText. cbv zeta.
    rewrite !or_zero_toString by assumption.
    destruct m as [t items [n c p cb f]]. repeat split.
  - intros (_ & _ & (H1 & H2 & H3 & H4 & H5) & _).
    unfold setDetail, detailText, setCurrentExercise. cbv zeta.
    destruct s as [t xs [n a b c d e] wd].
    cbn [currentExercise sets reps weight ex_duration distance ex_name selectedType
         ws_exercises workoutDuration] in *.
    destruct input; cbn [detail_of sets reps weight ex_duration distance];
      rewrite or_undefined_toString by assumption; reflexivity.
Qed.

Lemma inputs_show_what_is_held_witness :
  setCalories (caloriesText meal_screen) meal_screen = meal_screen
  /\ setDetail SetsInput (detailText SetsInput (workout_screen "30")) (workout_screen "30")
     = workout_screen "30".
Proof.
  pose proof (inputs_show_what_is_held meal_screen (workout_screen "30") SetsInput)
    as [Hm Hs].
  split.
  - apply Hm. split; [left; reflexivity|]. split.
    + repeat constructor; try discriminate;
        (eexists; split; [reflexivity | cbn; lia]).
    + apply emptyFood_safe.
  - apply Hs. split; [left; reflexivity|]. split.
    + repeat constructor; try discriminate;
        try (eexists; split; [reflexivity | cbn; lia]).
    + split; [apply emptyExercise_ok | cbn; lia].
Defined.

(** ** From the workout screen to the exercise screen *)

(** What a device that holds the saved workout shows, later on the same
    day. *)
Lemma saved_workout_seen (st : WorkoutScreen) (w w2 : World) (l : list value) (off d : Z) :
  ws_exercises st <> [] ->
  trim (workoutDuration st) <> "" ->
  parseInt (workoutDuration st) = Int d ->
  (0 < d)%Z ->
  (d * 5 < 2 ^ 53)%Z ->
  Forall exercise_ok (ws_exercises st) ->
  read_result EXERCISE_KEY w = VArr l ->
  forallb readable l = true ->
  write_fails w = false ->
  Date_parse (host w) (toISOString (clock w)) = Some (clock w) ->
  constant_offset (host w) off ->
  storage w2 = storage (snd (saveWorkout st w)) ->
  host w2 = host w ->
  local_day (host w) (clock w2) = local_day (host w) (clock w) ->
  fails_next w2 = false ->
  weekly_of (host w2) (clock w2) (read_result EXERCISE_KEY w2)
  = bump (selectedType st) (progress_of (host w) (clock w2) l)
  /\ todays_of (host w2) (clock w2) (read_result EXERCISE_KEY w2)
     = VArr (List.filter (dated_today (host w) (clock w2)) l
             ++ [ExerciseEntry_value (workout_entry st (clock w))]).
Proof.
  intros Hne Hnt Hd Hpos Hb Hfin Hr Hl Hw Hparse Hoff Hst2 Hh Hday Hf.
  assert (valid_duration st = true) as Hv by (apply valid_duration_spec; left; eauto).
  rewrite saveWorkout_exact in Hst2.
  destruct (length (ws_exercises st) =? 0)%nat eqn:E; [apply length_zero in E; contradiction|].
  destruct (str_truthy (trim (workoutDuration st))) eqn:Et;
    [|apply str_truthy_empty in Et; contradiction].
  rewrite Hv in Hst2. cbn [negb] in Hst2.
  rewrite addExerciseEntry_eq, add_entry_exact, Hr, Hw in Hst2. cbv zeta in Hst2.
  cbn [snd alerted after storage] in Hst2.
  set (v := ExerciseEntry_value (workout_entry st (clock w))) in *.
  assert (stored EXERCISE_KEY w2 = VArr (l ++ [v])) as Hst.
  { apply (stored_after_write EXERCISE_KEY (l ++ [v]) w); [exact Hst2|].
    apply Forall_app. split; [exact (read_result_array_faithful _ _ _ Hr)|].
    constructor; [|constructor].
    apply faithful_workout, (workout_entry_finite st _ d); [|exact Hd|lia].
    eapply Forall_impl; [exact Hfin|]. apply exercise_ok_finite. }
  assert (dated_today (host w) (clock w2) v = true) as Htoday.
  { unfold dated_today. subst v. rewrite workout_entry_date, Hparse.
    apply Z.eqb_eq. now symmetry. }
  unfold read_result. rewrite Hf, Hst, Hh.
  rewrite todays_of_list, weekly_of_list, forallb_app, Hl. cbn [forallb andb].
  change (readable v) with true. cbn [andb].
  split.
  - unfold progress_of, bump. cbn [strength cardio walking flexibility].
    rewrite !count_week_snoc, (today_is_this_week _ off _ _ Hoff Htoday). cbn [andb].
    unfold typed_as. subst v. rewrite workout_entry_type. reflexivity.
  - rewrite filter_snoc, Htoday. reflexivity.
Qed.

(** X26.  From the save button to the exercise screen.  Take a workout with
    at least one exercise, whose exercises hold numeric fields that are
    absent or whole numbers other than zero and below 2^53 in magnitude, and
    whose duration is not blank and parses to [d > 0] with [d * 5] below
    2^53, a save that goes through on a host that reads the date of the
    entry back as the instant of the save, in a zone whose offset from UTC
    never changes, and a stored list with no number beyond the range of
    binary64, off every element of which the filters can read a date.  When
    the exercise screen is loaded later on the same local day and its two
    reads succeed, the weekly counts of the screen are those of the list
    that was there with one more for the type of the workout, and a card of
    that type shows today's workouts of the type from that list followed by
    the new workout, with duration [d] and calories [d * 5]. *)
Theorem saved_workout_shows_on_the_exercise_screen (st : WorkoutScreen)
    (screen : ExerciseScreen) (w : World) (l : list value) (now off d : Z)
    (t : ExerciseType) :
  let w' := later (snd (saveWorkout st w)) now in
  ws_exercises st <> [] ->
  trim (workoutDuration st) <> "" ->
  parseInt (workoutDuration st) = Int d ->
  (0 < d)%Z ->
  (d * 5 < 2 ^ 53)%Z ->
  Forall exercise_ok (ws_exercises st) ->
  read_result EXERCISE_KEY w = VArr l ->
  in_range (VArr l) = true ->
  forallb readable l = true ->
  write_fails w = false ->
  Date_parse (host w) (toISOString (clock w)) = Some (clock w) ->
  constant_offset (host w) off ->
  local_day (host w) now = local_day (host w) (clock w) ->
  fails_next w' = false ->
  fails_next (snd (getTodaysExerciseEntries w')) = false ->
  et_id t = selectedType st ->
  exists screen' e,
    fst (loadWorkouts screen w') = Ok screen'
    /\ weeklyProgress screen' = bump (selectedType st) (progress_of (host w) now l)
    /\ typeWorkouts t screen'
       = Ok (List.filter (typed_as (et_id t)) (List.filter (dated_today (host w) now) l)
             ++ [ExerciseEntry_value e])
    /\ type e = selectedType st
    /\ exercises e = ws_exercises st
    /\ duration e = Int d
    /\ caloriesBurned e = Int (d * 5).
Proof.
  cbv zeta. intros Hne Hnt Hd Hpos Hb Hfin Hr _ Hl Hw Hparse Hoff Hday Hf1 Hf2 Ht.
  set (w' := later (snd (saveWorkout st w)) now) in *.
  assert (host w' = host w /\ clock w' = now) as [Hh Hc].
  { subst w'. rewrite saveWorkout_exact.
    destruct (length (ws_exercises st) =? 0)%nat;
      [|destruct (negb (str_truthy (trim (workoutDuration st))));
        [|destruct (negb (valid_duration st));
          [|rewrite addExerciseEntry_eq, add_entry_exact;
            destruct (read_result EXERCISE_KEY w); cbv zeta;
            try destruct (write_fails w)]]]; split; reflexivity. }
  destruct (saved_workout_seen st w w' l off d Hne Hnt Hd Hpos Hb Hfin Hr Hl Hw Hparse Hoff
              eq_refl Hh ltac:(now rewrite Hc) Hf1) as [_ Htoday].
  set (w1 := snd (getTodaysExerciseEntries w')) in *.
  assert (storage w1 = storage w' /\ host w1 = host w' /\ clock w1 = clock w')
    as (Hs1 & Hh1 & Hc1).
  { subst w1. rewrite getTodaysExerciseEntries_eq, get_todays_exact. repeat split. }
  destruct (saved_workout_seen st w w1 l off d Hne Hnt Hd Hpos Hb Hfin Hr Hl Hw Hparse Hoff
              Hs1 ltac:(congruence) ltac:(now rewrite Hc1, Hc) Hf2) as [Hweek _].
  rewrite loadWorkouts_exact. cbv zeta. fold w1. cbn [fst].
  exists {| workouts := todays_of (host w') (clock w') (read_result EXERCISE_KEY w');
            weeklyProgress := weekly_of (host w') (clock w') (read_result EXERCISE_KEY w1) |},
    (workout_entry st (clock w)).
  split; [reflexivity|]. cbn [weeklyProgress].
  rewrite Hh1, Hc1, Hh, Hc in Hweek. rewrite Hh, Hc in Htoday.
  split; [|split].
  - rewrite <- Hweek. rewrite Hh, Hc. reflexivity.
  - unfold typeWorkouts. cbn [workouts]. rewrite Hh, Hc, Htoday.
    set (v := ExerciseEntry_value (workout_entry st (clock w))).
    assert (Forall (fun e => e <> VNull) (List.filter (dated_today (host w) now) l ++ [v]))
      as Hnn.
    { apply Forall_app. split.
      - apply filter_keeps. apply List.Forall_forall. intros e He. apply readable_not_null.
        rewrite forallb_forall in Hl. now apply Hl.
      - constructor; [discriminate | constructor]. }
    rewrite (filter_list_total _ (typed_as (et_id t)))
      by (eapply Forall_impl; [exact Hnn|]; intros e; apply has_type_spec).
    rewrite filter_snoc. f_equal. f_equal.
    unfold typed_as. subst v. rewrite workout_entry_type, Ht. cbn [strict_eq_str].
    now rewrite String.eqb_refl.
  - rewrite (workout_entry_exact st (clock w) d Hd) by lia. repeat split.
Qed.

Lemma saved_workout_shows_on_the_exercise_screen_witness :
  exists screen' e,
    fst (loadWorkouts initialExerciseScreen
           (later (snd (saveWorkout (workout_screen "30") week_device))
              (sunday_evening + 60000))) = Ok screen'
    /\ weeklyProgress screen'
       = bump "strength"
           (progress_of kolkata (sunday_evening + 60000) (map ExerciseEntry_value week_sample))
    /\ typeWorkouts {| et_id := "strength"; et_label := "Strength";
                       et_icon := "barbell-outline"; et_color := "#FF6B6B" |} screen'
       = Ok (List.filter (typed_as "strength")
               (List.filter (dated_today kolkata (sunday_evening + 60000))
                  (map ExerciseEntry_value week_sample))
             ++ [ExerciseEntry_value e])
    /\ caloriesBurned e = Int (30 * 5).
Proof.
  assert (Forall exercise_ok [squats]) as Hok.
  { constructor; [|constructor].
    repeat split; try discriminate; eexists; (split; [reflexivity | cbn; lia]). }
  destruct (saved_workout_shows_on_the_exercise_screen (workout_screen "30")
              initialExerciseScreen week_device (map ExerciseEntry_value week_sample)
              (sunday_evening + 60000) 19800000 30
              {| et_id := "strength"; et_label := "Strength";
                 et_icon := "barbell-outline"; et_color := "#FF6B6B" |}
              ltac:(discriminate) ltac:(discriminate) eq_refl eq_refl eq_refl Hok
              ltac:(vm_compute; reflexivity) eq_refl eq_refl eq_refl
              ltac:(vm_compute; reflexivity) ltac:(intros t b; reflexivity)
              ltac:(vm_compute; reflexivity) eq_refl eq_refl eq_refl)
    as (screen' & e & H1 & H2 & H3 & _ & _ & _ & H4).
  exists screen', e. repeat split; assumption.
Defined.

(** X27.  After a reset the views are blank.  After a reset that succeeded,
    the two daily readers return the empty list and the weekly counts are
    all zero, whatever the store held before and whether or not the reads
    fail. *)
Theorem reset_empties_the_views (w : World) :
  let w' := snd (clearHealthData w) in
  fst (clearHealthData w) = Ok tt ->
  fst (getTodaysDietEntries w') = Ok (VArr [])
  /\ fst (getTodaysExerciseEntries w') = Ok (VArr [])
  /\ fst (getWeeklyExerciseProgress w') = Ok no_progress.
Proof.
  cbv zeta. rewrite clearHealthData_exact.
  destruct (fails_next w); [discriminate|]. intros _. cbn [snd].
  set (w' := after w _ _ _).
  assert (forall key, key = DIET_KEY \/ key = EXERCISE_KEY -> read_result key w' = VArr [])
    as Hempty.
  { intros key Hk. apply read_result_empty. left. subst w'. cbn [after storage].
    destruct Hk as [-> | ->].
    - apply lookup_delete_eq.
    - rewrite lookup_delete_ne by discriminate. apply lookup_delete_eq. }
  rewrite getTodaysDietEntries_eq, getTodaysExerciseEntries_eq, !get_todays_exact,
    getWeeklyExerciseProgress_exact. cbn [fst].
  rewrite !Hempty by auto. repeat split.
Qed.

Lemma reset_empties_the_views_witness :
  fst (getTodaysDietEntries used_device) = Ok (VArr [DietEntry_value breakfast])
  /\ fst (getTodaysDietEntries (snd (clearHealthData used_device))) = Ok (VArr [])
  /\ fst (getTodaysExerciseEntries (snd (clearHealthData used_device))) = Ok (VArr [])
  /\ fst (getWeeklyExerciseProgress (snd (clearHealthData used_device))) = Ok no_progress.
Proof.
  split; [vm_compute; reflexivity|].
  apply (reset_empties_the_views used_device). vm_compute. reflexivity.
Defined.
